(** * QuickDraw-Screenshot: the annotation, undo/redo and export engine

    A shallow embedding of the drawing core of [main.py], [src/commands.py]
    and [src/utils.py].

    Conventions of the embedding:
    - Canvas coordinates are Tk doubles and the arrow code calls
      [math.atan2], [math.cos] and [math.sin]; they are modelled by the real
      numbers [R] (rounding of binary64 is not modelled).  Pointer events
      carry integer pixel positions ([Z]).
    - The Tk canvas is an explicit value (a display list with an id
      counter) threaded through every call that draws on it.
    - A Python method that mutates [self] is a function on the record
      [App]; a method that can raise (unpacking [None], a missing item)
      returns [option], [None] standing for the exception.
    - Command objects are stored by value in the two stacks; a command is
      in exactly one stack at a time, so the update of its handle by
      [execute]/[undo] is threaded through pop and push.
    - Tkinter and PIL are libraries; the modules [Tk] and [PIL] give the
      calls the controller makes their documented meaning.  Event bindings,
      the cursor, the toolbar and the settings file do not touch the scene
      and are left out. *)

From Stdlib Require Import Reals Lra List String ZArith Bool Lia.
Import ListNotations.
Open Scope string_scope.
Open Scope list_scope.
Open Scope R_scope.

(** ** Python's [math] module, on the reals *)

Module math.

Definition pi : R := PI.

(** [math.atan2 y x]: the angle of the vector [(x, y)], in (-pi, pi]. *)
Definition atan2 (y x : R) : R :=
  if Rlt_dec 0 x then atan (y / x)
  else if Rlt_dec x 0 then
    if Rle_dec 0 y then atan (y / x) + PI else atan (y / x) - PI
  else if Rlt_dec 0 y then PI / 2
  else if Rlt_dec y 0 then - (PI / 2)
  else 0.

End math.

(** ** The Tk canvas *)

Module Tk.

(** Values of item options ([outline=], [width=], [text=], ...). [VDim w h]
    is the formatted readout [f"{w}x{h}"]. *)
Inductive optval :=
| VStr (s : string)
| VInt (z : Z)
| VNum (r : R)
| VFont (family : string) (size : Z)
| VDash (a b : Z)
| VDim (w h : R).

Record item := mkItem {
  iid : nat;
  ikind : string;
  icoords : list R;
  iopts : list (string * optval);
  itags : list string
}.

(** The display list, bottom item first, and the next free id (Tk ids
    start at 1 and are never reused). *)
Record canvas := mkCanvas {
  items : list item;
  next_id : nat
}.

Definition empty : canvas := mkCanvas [] 1.

Definition is_id (i : nat) (it : item) : bool := Nat.eqb (iid it) i.

Definition has_tag (t : string) (it : item) : bool :=
  existsb (String.eqb t) (itags it).

(** A rectangle item keeps its corners ordered, lowest first, whatever
    the order they were given in; other items keep their coordinates as
    given. *)
Definition normalize (kind : string) (coords : list R) : list R :=
  if String.eqb kind "rectangle" then
    match coords with
    | [x1; y1; x2; y2] => [Rmin x1 x2; Rmin y1 y2; Rmax x1 x2; Rmax y1 y2]
    | _ => coords
    end
  else coords.

(** [create_rectangle], [create_line], [create_polygon], [create_text],
    [create_image]: a new item on top of the display list. *)
Definition create (kind : string) (coords : list R)
    (opts : list (string * optval)) (tags : list string)
    (c : canvas) : nat * canvas :=
  (next_id c,
   mkCanvas (items c
             ++ [mkItem (next_id c) kind (normalize kind coords) opts tags])
            (S (next_id c))).

(** [delete(id)]; an id that names no item deletes nothing. *)
Definition delete (i : nat) (c : canvas) : canvas :=
  mkCanvas (filter (fun it => negb (is_id i it)) (items c)) (next_id c).

(** [delete(tag)] *)
Definition delete_withtag (t : string) (c : canvas) : canvas :=
  mkCanvas (filter (fun it => negb (has_tag t it)) (items c)) (next_id c).

Definition update (i : nat) (f : item -> item) (c : canvas) : canvas :=
  mkCanvas (map (fun it => if is_id i it then f it else it) (items c))
           (next_id c).

Fixpoint shift (dx dy : R) (cs : list R) : list R :=
  match cs with
  | x :: y :: rest => (x + dx) :: (y + dy) :: shift dx dy rest
  | _ => cs
  end.

(** [move(id, dx, dy)] *)
Definition move (i : nat) (dx dy : R) (c : canvas) : canvas :=
  update i (fun it => mkItem (iid it) (ikind it) (shift dx dy (icoords it))
                             (iopts it) (itags it)) c.

(** [coords(id)]: the coordinate list, empty when there is no such item. *)
Definition coords (i : nat) (c : canvas) : list R :=
  match find (is_id i) (items c) with
  | Some it => icoords it
  | None => []
  end.

(** [coords(id, x1, y1, ...)] *)
Definition set_coords (i : nat) (cs : list R) (c : canvas) : canvas :=
  update i (fun it => mkItem (iid it) (ikind it) (normalize (ikind it) cs)
                             (iopts it) (itags it)) c.

(** [find_withtag(tag)], in display order. *)
Definition find_withtag (t : string) (c : canvas) : list nat :=
  map iid (filter (has_tag t) (items c)).

(** [tag_raise(id)]: the item goes to the top of the display list. *)
Definition tag_raise (i : nat) (c : canvas) : canvas :=
  mkCanvas (filter (fun it => negb (is_id i it)) (items c)
            ++ filter (is_id i) (items c))
           (next_id c).

(** [addtag_withtag(new, id)] *)
Definition addtag_withtag (new : string) (i : nat) (c : canvas) : canvas :=
  update i (fun it => if has_tag new it then it
                      else mkItem (iid it) (ikind it) (icoords it) (iopts it)
                                  (itags it ++ [new])) c.

Fixpoint set_opt (k : string) (v : optval) (os : list (string * optval))
    : list (string * optval) :=
  match os with
  | [] => [(k, v)]
  | (k', v') :: rest =>
      if String.eqb k k' then (k, v) :: rest else (k', v') :: set_opt k v rest
  end.

(** [itemconfig(id, k=v, ...)] *)
Definition itemconfig (i : nat) (kvs : list (string * optval)) (c : canvas)
    : canvas :=
  update i (fun it => mkItem (iid it) (ikind it) (icoords it)
                             (fold_left (fun os kv => set_opt (fst kv) (snd kv) os)
                                        kvs (iopts it))
                             (itags it)) c.

(** What an item looks like: everything but its id. *)
Definition visual (it : item)
    : string * list R * list (string * optval) * list string :=
  (ikind it, icoords it, iopts it, itags it).

(** Ids start at 1, and the ids in use are below the counter. *)
Definition wf (c : canvas) : Prop :=
  (0 < next_id c)%nat /\ Forall (fun it => (iid it < next_id c)%nat) (items c).

End Tk.

(** ** Commands ([src/commands.py]) *)

(** The handle a [DrawCommand] keeps in [shape_id]: [None], one canvas id
    (rectangle) or a list of ids (shaft and head of an arrow). *)
Inductive handle :=
| HNone
| HId (i : nat)
| HList (l : list nat).

Module DrawCommand.

Record t := mk {
  tool : string;
  shape_id : handle;
  x1 : R; y1 : R; x2 : R; y2 : R;
  color : string;
  thickness : Z
}.

Definition with_shape_id (self : t) (h : handle) : t :=
  mk (tool self) h (x1 self) (y1 self) (x2 self) (y2 self)
     (color self) (thickness self).

(** [execute]: draws the shape and stores the new handle(s) in
    [shape_id]; the returned command carries the value Python returns. *)
Definition execute (self : t) (canvas : Tk.canvas) : t * Tk.canvas :=
  if String.eqb (tool self) "rectangle" then
    let '(i, c) :=
      Tk.create "rectangle" [x1 self; y1 self; x2 self; y2 self]
        [("outline", Tk.VStr (color self)); ("width", Tk.VInt (thickness self))]
        ["drawing"] canvas in
    (with_shape_id self (HId i), c)
  else if String.eqb (tool self) "arrow" then
    let arrow_head_size := IZR (Z.max (thickness self * 3) 8) in
    let angle := math.atan2 (y2 self - y1 self) (x2 self - x1 self) in
    let x_diff := arrow_head_size * 0.8 * cos angle in
    let y_diff := arrow_head_size * 0.8 * sin angle in
    let '(shaft, c1) :=
      Tk.create "line"
        [x1 self; y1 self; x2 self - x_diff; y2 self - y_diff]
        [("fill", Tk.VStr (color self)); ("width", Tk.VInt (thickness self))]
        ["drawing"] canvas in
    let '(head, c2) :=
      Tk.create "polygon"
        [x2 self; y2 self;
         x2 self - arrow_head_size * cos (angle - math.pi / 6);
         y2 self - arrow_head_size * sin (angle - math.pi / 6);
         x2 self - arrow_head_size * cos (angle + math.pi / 6);
         y2 self - arrow_head_size * sin (angle + math.pi / 6)]
        [("fill", Tk.VStr (color self)); ("outline", Tk.VStr (color self))]
        ["drawing"] c1 in
    (with_shape_id self (HList [shaft; head]), c2)
  else (self, canvas).

(** [undo]: deletes what [shape_id] names.  With [shape_id = None] the
    call is [canvas.delete(None)]; Tkinter ends the Tcl argument list at a
    [None], so no item is named and nothing is deleted. *)
Definition undo (self : t) (canvas : Tk.canvas) : t * Tk.canvas :=
  match shape_id self with
  | HList l => (self, fold_left (fun c shape => Tk.delete shape c) l canvas)
  | HId i => (self, Tk.delete i canvas)
  | HNone => (self, canvas)
  end.

End DrawCommand.

Module TextCommand.

Record t := mk {
  text : string;
  x : R; y : R;
  color : string;
  font : string * Z;
  width : R; height : R;
  text_id : option nat
}.

Definition with_text_id (self : t) (i : option nat) : t :=
  mk (text self) (x self) (y self) (color self) (font self)
     (width self) (height self) i.

Definition execute (self : t) (canvas : Tk.canvas) : t * Tk.canvas :=
  let '(i, c) :=
    Tk.create "text" [x self; y self]
      [("text", Tk.VStr (text self)); ("fill", Tk.VStr (color self));
       ("font", Tk.VFont (fst (font self)) (snd (font self)));
       ("anchor", Tk.VStr "nw"); ("width", Tk.VNum (width self))]
      ["text"; "drawing"] canvas in
  (with_text_id self (Some i), Tk.tag_raise i c).

(** [if self.text_id:] — id 0 is falsy, like [None]. *)
Definition undo (self : t) (canvas : Tk.canvas) : t * Tk.canvas :=
  match text_id self with
  | Some (S n) => (with_text_id self None, Tk.delete (S n) canvas)
  | _ => (self, canvas)
  end.

End TextCommand.

(** The two concrete subclasses of [Command]; [redo] is inherited from the
    base class, where it calls [execute]. *)
Module Command.

Inductive t :=
| Draw (d : DrawCommand.t)
| Text (c : TextCommand.t).

Definition execute (cmd : t) (canvas : Tk.canvas) : t * Tk.canvas :=
  match cmd with
  | Draw d => let '(d', c) := DrawCommand.execute d canvas in (Draw d', c)
  | Text t => let '(t', c) := TextCommand.execute t canvas in (Text t', c)
  end.

Definition undo (cmd : t) (canvas : Tk.canvas) : t * Tk.canvas :=
  match cmd with
  | Draw d => let '(d', c) := DrawCommand.undo d canvas in (Draw d', c)
  | Text t => let '(t', c) := TextCommand.undo t canvas in (Text t', c)
  end.

Definition redo (cmd : t) (canvas : Tk.canvas) : t * Tk.canvas :=
  execute cmd canvas.

End Command.

(** ** Comparisons on coordinates, as booleans *)

Definition Rleb (a b : R) : bool := if Rle_dec a b then true else false.
Definition Rltb (a b : R) : bool := if Rlt_dec a b then true else false.
Definition Reqb (a b : R) : bool := if Req_dec_T a b then true else false.


(** ** Raster images (the part of PIL the exporter calls) *)

Module PIL.

Definition rgba := (Z * Z * Z * Z)%type.

Record image := mkImage {
  width : Z;
  height : Z;
  px : Z -> Z -> rgba
}.

(** [int(round(v))], Python's round-half-to-even, as [Image.crop] applies
    it to its box. *)
Definition round (r : R) : Z :=
  let f := Int_part r in
  let d := r - IZR f in
  if Rlt_dec d (1 / 2) then f
  else if Rlt_dec (1 / 2) d then (f + 1)%Z
  else if Z.even f then f else (f + 1)%Z.

Definition inside (img : image) (i j : Z) : bool :=
  ((0 <=? i) && (i <? width img) && (0 <=? j) && (j <? height img))%Z.

Definition getpixel (img : image) (i j : Z) : rgba :=
  if inside img i j then px img i j else (0, 0, 0, 0)%Z.

(** [Image.crop(box)] *)
Definition crop (img : image) (box : R * R * R * R) : image :=
  let '(x0, y0, x1, y1) := box in
  mkImage (round x1 - round x0) (round y1 - round y0)
          (fun i j => getpixel img (i + round x0) (j + round y0)).

(** [Image.new('RGBA', size, color)] *)
Definition new (size : Z * Z) (color : rgba) : image :=
  mkImage (fst size) (snd size) (fun _ _ => color).

(** [dst.paste(src, (ox, oy))] *)
Definition paste (dst src : image) (at_ : Z * Z) : image :=
  mkImage (width dst) (height dst)
          (fun i j =>
             if inside src (i - fst at_) (j - snd at_)
             then px src (i - fst at_) (j - snd at_)
             else px dst i j).

(** What the exporter takes from PIL and from the platform without this
    repository defining it: the colour table, the installed fonts and the
    rasterisers of lines, polygons and glyphs. *)
Record externals := mkExternals {
  font : Type;
  getrgb : string -> rgba;
  truetype : string -> Z -> option font;
  load_default : font;
  line : image -> list (R * R) -> string -> Z -> image;
  polygon : image -> list (R * R) -> string -> image;
  text : image -> R * R -> string -> string -> font -> image
}.

(** [ImageDraw.rectangle(box, outline=, width=)], for a box with
    integral corners: the pixels of the box that lie within [width] of one
    of its four sides take the outline colour. *)
Definition rectangle (E : externals) (img : image) (box : list R)
    (outline : string) (w : Z) : image :=
  match box with
  | [x0; y0; x1; y1] =>
      mkImage (width img) (height img)
        (fun i j =>
           if Rleb x0 (IZR i) && Rleb (IZR i) x1
              && Rleb y0 (IZR j) && Rleb (IZR j) y1
              && (Rltb (IZR i) (x0 + IZR w) || Rltb (x1 - IZR w) (IZR i)
                  || Rltb (IZR j) (y0 + IZR w) || Rltb (y1 - IZR w) (IZR j))
           then getrgb E outline
           else px img i j)
  | _ => img
  end.

End PIL.

(** ** [src/utils.py] *)

(** The calls [draw_pil_arrow] and the exporter make on the [ImageDraw]
    surface. *)
Inductive draw_call :=
| DrawRectangle (box : list R) (outline : string) (width : Z)
| DrawLine (pts : list (R * R)) (fill : string) (width : Z)
| DrawPolygon (pts : list (R * R)) (fill : string)
| DrawText (pos : R * R) (text : string) (fill : string) (size : Z).

(** [draw_pil_arrow(draw, x1, y1, x2, y2, fill, width)]: the shaft, then
    the head. *)
Definition draw_pil_arrow (x1 y1 x2 y2 : R) (fill : string) (width : Z)
    : list draw_call :=
  let angle := math.atan2 (y2 - y1) (x2 - x1) in
  let arrow_length := IZR (Z.max (width * 3) 8) in
  let arrow_width := IZR (Z.max (width * 2) 6) in
  let sin_angle := sin angle in
  let cos_angle := cos angle in
  let x_diff := arrow_length * cos_angle in
  let y_diff := arrow_length * sin_angle in
  let arrow_point1 :=
    (x2 - x_diff + arrow_width * sin_angle, y2 - y_diff - arrow_width * cos_angle) in
  let arrow_point2 :=
    (x2 - x_diff - arrow_width * sin_angle, y2 - y_diff + arrow_width * cos_angle) in
  [DrawLine [(x1, y1); (x2 - x_diff, y2 - y_diff)] fill width;
   DrawPolygon [(x2, y2); arrow_point1; arrow_point2] fill].

(** One call on the surface. *)
Definition run_call (E : PIL.externals) (img : PIL.image) (d : draw_call)
    : PIL.image :=
  match d with
  | DrawRectangle box outline w => PIL.rectangle E img box outline w
  | DrawLine pts fill w => PIL.line E img pts fill w
  | DrawPolygon pts fill => PIL.polygon E img pts fill
  | DrawText pos txt fill size =>
      let font_obj :=
        match PIL.truetype E "meiryo.ttc" size with
        | Some f => f
        | None => PIL.load_default E
        end in
      PIL.text E img pos txt fill font_obj
  end.

(** ** The controller ([main.py], class [QuickDrawScreenshot]) *)

(** A pointer event: position and the modifier/button mask. *)
Record Event := mkEvent {
  ev_x : Z;
  ev_y : Z;
  ev_state : Z
}.

(** The [ttk.Text] field of a text annotation: what the user typed and
    where the widget was placed ([winfo_x], [winfo_y], [winfo_width],
    [winfo_height]). *)
Record TextEntry := mkTextEntry {
  te_content : string;
  te_x : R;
  te_y : R;
  te_width : R;
  te_height : R
}.

Definition bind {A B : Type} (m : option A) (f : A -> option B) : option B :=
  match m with
  | Some a => f a
  | None => None
  end.

Notation "x <- m ;; k" := (bind m (fun x => k))
  (at level 61, m at next level, right associativity).
Notation "' p <- m ;; k" := (bind m (fun p => k))
  (at level 61, p pattern, m at next level, right associativity).

(** [list.pop()]: the last element and the list without it. *)
Fixpoint pop {A : Type} (l : list A) : option (list A * A) :=
  match l with
  | [] => None
  | a :: rest =>
      match pop rest with
      | None => Some ([], a)
      | Some (rest', z) => Some (a :: rest', z)
      end
  end.

(** ** The colour picker ([src/color_picker.py]) *)

Module ColorPicker.

(** [color_window] is [true] while the positioning window exists. *)
Record t := mk {
  initial_color : string;
  is_open : bool;
  color_window : bool
}.

(** [close]: the window is destroyed and the picker is closed.  The
    callback is then called with [None], which changes no colour. *)
Definition close (self : t) : t :=
  mk (initial_color self) false false.

End ColorPicker.

(** ** The text editor on the canvas ([src/text.py]) *)

(** [s[:-1]] *)
Fixpoint drop_last (s : string) : string :=
  match s with
  | EmptyString => EmptyString
  | String a rest =>
      match rest with
      | EmptyString => EmptyString
      | String _ _ => String a (drop_last rest)
      end
  end.

Module CanvasTextEditor.

Record t := mk {
  x : R;
  y : R;
  text : string;
  color : string;
  font_name : string;
  font_size : Z;
  text_id : nat;
  rect_id : nat
}.

Definition set_text (v : string) (self : t) : t :=
  mk (x self) (y self) v (color self) (font_name self) (font_size self)
     (text_id self) (rect_id self).

Section Metrics.

(** [canvas.bbox(id)]: the box Tk computes from the font; [None] when Tk
    reports no box, which the calls that take the box do not accept. *)
Variable bbox : nat -> Tk.canvas -> option (R * R * R * R).

(** [__init__]: the text item and the rectangle around it. *)
Definition init (canvas : Tk.canvas) (x y : R) (initial_text : string)
    (font_name : string) (font_size : Z) (color : string)
    : option (t * Tk.canvas) :=
  let '(text_id, c) :=
    Tk.create "text" [x; y]
      [("text", Tk.VStr initial_text); ("font", Tk.VFont font_name font_size);
       ("fill", Tk.VStr color); ("anchor", Tk.VStr "nw")] [] canvas in
  '(x1, y1, x2, y2) <- bbox text_id c ;;
  let '(rect_id, c) :=
    Tk.create "rectangle" [x1; y1; x2; y2]
      [("outline", Tk.VStr color); ("width", Tk.VInt 1)] [] c in
  Some (mk x y initial_text color font_name font_size text_id rect_id, c).

Definition update_rectangle (self : t) (c : Tk.canvas) : option Tk.canvas :=
  '(x1, y1, x2, y2) <- bbox (text_id self) c ;;
  Some (Tk.set_coords (rect_id self) [x1; y1; x2; y2] c).

(** [finalize_text]: the rectangle goes, the id of the text is returned. *)
Definition finalize_text (self : t) (c : Tk.canvas) : nat * Tk.canvas :=
  (text_id self, Tk.delete (rect_id self) c).

(** [on_key_press], for an event with the given [keysym] and [char]; the
    third component is the value returned, [None] unless the key was
    Return. *)
Definition on_key_press (keysym char : string) (self : t) (c : Tk.canvas)
    : option (t * Tk.canvas * option nat) :=
  let edited :=
    if String.eqb keysym "BackSpace"
    then Some (set_text (drop_last (text self)) self)
    else if String.eqb keysym "Return" then None
    else Some (set_text (text self ++ char) self) in
  match edited with
  | None =>
      let '(i, c) := finalize_text self c in
      Some (self, c, Some i)
  | Some self =>
      let c := Tk.itemconfig (text_id self) [("text", Tk.VStr (text self))] c in
      c <- update_rectangle self c ;;
      Some (self, c, None)
  end.

(** [cancel] *)
Definition cancel (self : t) (c : Tk.canvas) : Tk.canvas :=
  Tk.delete (text_id self) (Tk.delete (rect_id self) c).

End Metrics.

End CanvasTextEditor.

Module QuickDrawScreenshot.

Record App := mkApp {
  rect_canvas : Tk.canvas;
  text_entry : option TextEntry;
  text_box : option nat;
  start_x : option R;
  start_y : option R;
  end_x : option R;
  end_y : option R;
  screenshot : option PIL.image;
  full_screenshot : option PIL.image;
  screen_width : Z;
  screen_height : Z;
  current_tool : string;
  current_color : string;
  line_thickness : Z;
  max_line_thickness : Z;
  font_size : Z;
  selection_rect : nat;
  overlay_rectangles : list nat;
  dimension_text : nat;
  is_drawing_mode : bool;
  is_screenshot_in_progress : bool;
  state : string;
  undo_stack : list Command.t;
  redo_stack : list Command.t;
  resize_handles : list nat;
  resizing : option nat;
  resize_start_x : option Z;
  resize_start_y : option Z;
  dragging : bool;
  drag_start_x : option Z;
  drag_start_y : option Z;
  last_update_time : R;
  update_interval : R;
  drawing_area : option (R * R * R * R)
}.

Definition set_rect_canvas (v : Tk.canvas) (self : App) : App :=
  mkApp v (text_entry self) (text_box self) (start_x self)
    (start_y self) (end_x self) (end_y self) (screenshot self)
    (full_screenshot self) (screen_width self) (screen_height self)
    (current_tool self) (current_color self) (line_thickness self)
    (max_line_thickness self) (font_size self) (selection_rect self)
    (overlay_rectangles self) (dimension_text self)
    (is_drawing_mode self) (is_screenshot_in_progress self) (state self)
    (undo_stack self) (redo_stack self) (resize_handles self)
    (resizing self) (resize_start_x self) (resize_start_y self)
    (dragging self) (drag_start_x self) (drag_start_y self)
    (last_update_time self) (update_interval self) (drawing_area self).

Definition set_text_entry (v : option TextEntry) (self : App) : App :=
  mkApp (rect_canvas self) v (text_box self) (start_x self)
    (start_y self) (end_x self) (end_y self) (screenshot self)
    (full_screenshot self) (screen_width self) (screen_height self)
    (current_tool self) (current_color self) (line_thickness self)
    (max_line_thickness self) (font_size self) (selection_rect self)
    (overlay_rectangles self) (dimension_text self)
    (is_drawing_mode self) (is_screenshot_in_progress self) (state self)
    (undo_stack self) (redo_stack self) (resize_handles self)
    (resizing self) (resize_start_x self) (resize_start_y self)
    (dragging self) (drag_start_x self) (drag_start_y self)
    (last_update_time self) (update_interval self) (drawing_area self).

Definition set_text_box (v : option nat) (self : App) : App :=
  mkApp (rect_canvas self) (text_entry self) v (start_x self)
    (start_y self) (end_x self) (end_y self) (screenshot self)
    (full_screenshot self) (screen_width self) (screen_height self)
    (current_tool self) (current_color self) (line_thickness self)
    (max_line_thickness self) (font_size self) (selection_rect self)
    (overlay_rectangles self) (dimension_text self)
    (is_drawing_mode self) (is_screenshot_in_progress self) (state self)
    (undo_stack self) (redo_stack self) (resize_handles self)
    (resizing self) (resize_start_x self) (resize_start_y self)
    (dragging self) (drag_start_x self) (drag_start_y self)
    (last_update_time self) (update_interval self) (drawing_area self).

Definition set_start_x (v : option R) (self : App) : App :=
  mkApp (rect_canvas self) (text_entry self) (text_box self) v
    (start_y self) (end_x self) (end_y self) (screenshot self)
    (full_screenshot self) (screen_width self) (screen_height self)
    (current_tool self) (current_color self) (line_thickness self)
    (max_line_thickness self) (font_size self) (selection_rect self)
    (overlay_rectangles self) (dimension_text self)
    (is_drawing_mode self) (is_screenshot_in_progress self) (state self)
    (undo_stack self) (redo_stack self) (resize_handles self)
    (resizing self) (resize_start_x self) (resize_start_y self)
    (dragging self) (drag_start_x self) (drag_start_y self)
    (last_update_time self) (update_interval self) (drawing_area self).

Definition set_start_y (v : option R) (self : App) : App :=
  mkApp (rect_canvas self) (text_entry self) (text_box self)
    (start_x self) v (end_x self) (end_y self) (screenshot self)
    (full_screenshot self) (screen_width self) (screen_height self)
    (current_tool self) (current_color self) (line_thickness self)
    (max_line_thickness self) (font_size self) (selection_rect self)
    (overlay_rectangles self) (dimension_text self)
    (is_drawing_mode self) (is_screenshot_in_progress self) (state self)
    (undo_stack self) (redo_stack self) (resize_handles self)
    (resizing self) (resize_start_x self) (resize_start_y self)
    (dragging self) (drag_start_x self) (drag_start_y self)
    (last_update_time self) (update_interval self) (drawing_area self).

Definition set_end_x (v : option R) (self : App) : App :=
  mkApp (rect_canvas self) (text_entry self) (text_box self)
    (start_x self) (start_y self) v (end_y self) (screenshot self)
    (full_screenshot self) (screen_width self) (screen_height self)
    (current_tool self) (current_color self) (line_thickness self)
    (max_line_thickness self) (font_size self) (selection_rect self)
    (overlay_rectangles self) (dimension_text self)
    (is_drawing_mode self) (is_screenshot_in_progress self) (state self)
    (undo_stack self) (redo_stack self) (resize_handles self)
    (resizing self) (resize_start_x self) (resize_start_y self)
    (dragging self) (drag_start_x self) (drag_start_y self)
    (last_update_time self) (update_interval self) (drawing_area self).

Definition set_end_y (v : option R) (self : App) : App :=
  mkApp (rect_canvas self) (text_entry self) (text_box self)
    (start_x self) (start_y self) (end_x self) v (screenshot self)
    (full_screenshot self) (screen_width self) (screen_height self)
    (current_tool self) (current_color self) (line_thickness self)
    (max_line_thickness self) (font_size self) (selection_rect self)
    (overlay_rectangles self) (dimension_text self)
    (is_drawing_mode self) (is_screenshot_in_progress self) (state self)
    (undo_stack self) (redo_stack self) (resize_handles self)
    (resizing self) (resize_start_x self) (resize_start_y self)
    (dragging self) (drag_start_x self) (drag_start_y self)
    (last_update_time self) (update_interval self) (drawing_area self).

Definition set_screenshot (v : option PIL.image) (self : App) : App :=
  mkApp (rect_canvas self) (text_entry self) (text_box self)
    (start_x self) (start_y self) (end_x self) (end_y self) v
    (full_screenshot self) (screen_width self) (screen_height self)
    (current_tool self) (current_color self) (line_thickness self)
    (max_line_thickness self) (font_size self) (selection_rect self)
    (overlay_rectangles self) (dimension_text self)
    (is_drawing_mode self) (is_screenshot_in_progress self) (state self)
    (undo_stack self) (redo_stack self) (resize_handles self)
    (resizing self) (resize_start_x self) (resize_start_y self)
    (dragging self) (drag_start_x self) (drag_start_y self)
    (last_update_time self) (update_interval self) (drawing_area self).

Definition set_full_screenshot (v : option PIL.image) (self : App) : App :=
  mkApp (rect_canvas self) (text_entry self) (text_box self)
    (start_x self) (start_y self) (end_x self) (end_y self)
    (screenshot self) v (screen_width self) (screen_height self)
    (current_tool self) (current_color self) (line_thickness self)
    (max_line_thickness self) (font_size self) (selection_rect self)
    (overlay_rectangles self) (dimension_text self)
    (is_drawing_mode self) (is_screenshot_in_progress self) (state self)
    (undo_stack self) (redo_stack self) (resize_handles self)
    (resizing self) (resize_start_x self) (resize_start_y self)
    (dragging self) (drag_start_x self) (drag_start_y self)
    (last_update_time self) (update_interval self) (drawing_area self).

Definition set_screen_width (v : Z) (self : App) : App :=
  mkApp (rect_canvas self) (text_entry self) (text_box self)
    (start_x self) (start_y self) (end_x self) (end_y self)
    (screenshot self) (full_screenshot self) v (screen_height self)
    (current_tool self) (current_color self) (line_thickness self)
    (max_line_thickness self) (font_size self) (selection_rect self)
    (overlay_rectangles self) (dimension_text self)
    (is_drawing_mode self) (is_screenshot_in_progress self) (state self)
    (undo_stack self) (redo_stack self) (resize_handles self)
    (resizing self) (resize_start_x self) (resize_start_y self)
    (dragging self) (drag_start_x self) (drag_start_y self)
    (last_update_time self) (update_interval self) (drawing_area self).

Definition set_screen_height (v : Z) (self : App) : App :=
  mkApp (rect_canvas self) (text_entry self) (text_box self)
    (start_x self) (start_y self) (end_x self) (end_y self)
    (screenshot self) (full_screenshot self) (screen_width self) v
    (current_tool self) (current_color self) (line_thickness self)
    (max_line_thickness self) (font_size self) (selection_rect self)
    (overlay_rectangles self) (dimension_text self)
    (is_drawing_mode self) (is_screenshot_in_progress self) (state self)
    (undo_stack self) (redo_stack self) (resize_handles self)
    (resizing self) (resize_start_x self) (resize_start_y self)
    (dragging self) (drag_start_x self) (drag_start_y self)
    (last_update_time self) (update_interval self) (drawing_area self).

Definition set_current_tool (v : string) (self : App) : App :=
  mkApp (rect_canvas self) (text_entry self) (text_box self)
    (start_x self) (start_y self) (end_x self) (end_y self)
    (screenshot self) (full_screenshot self) (screen_width self)
    (screen_height self) v (current_color self) (line_thickness self)
    (max_line_thickness self) (font_size self) (selection_rect self)
    (overlay_rectangles self) (dimension_text self)
    (is_drawing_mode self) (is_screenshot_in_progress self) (state self)
    (undo_stack self) (redo_stack self) (resize_handles self)
    (resizing self) (resize_start_x self) (resize_start_y self)
    (dragging self) (drag_start_x self) (drag_start_y self)
    (last_update_time self) (update_interval self) (drawing_area self).

Definition set_current_color (v : string) (self : App) : App :=
  mkApp (rect_canvas self) (text_entry self) (text_box self)
    (start_x self) (start_y self) (end_x self) (end_y self)
    (screenshot self) (full_screenshot self) (screen_width self)
    (screen_height self) (current_tool self) v (line_thickness self)
    (max_line_thickness self) (font_size self) (selection_rect self)
    (overlay_rectangles self) (dimension_text self)
    (is_drawing_mode self) (is_screenshot_in_progress self) (state self)
    (undo_stack self) (redo_stack self) (resize_handles self)
    (resizing self) (resize_start_x self) (resize_start_y self)
    (dragging self) (drag_start_x self) (drag_start_y self)
    (last_update_time self) (update_interval self) (drawing_area self).

Definition set_line_thickness (v : Z) (self : App) : App :=
  mkApp (rect_canvas self) (text_entry self) (text_box self)
    (start_x self) (start_y self) (end_x self) (end_y self)
    (screenshot self) (full_screenshot self) (screen_width self)
    (screen_height self) (current_tool self) (current_color self) v
    (max_line_thickness self) (font_size self) (selection_rect self)
    (overlay_rectangles self) (dimension_text self)
    (is_drawing_mode self) (is_screenshot_in_progress self) (state self)
    (undo_stack self) (redo_stack self) (resize_handles self)
    (resizing self) (resize_start_x self) (resize_start_y self)
    (dragging self) (drag_start_x self) (drag_start_y self)
    (last_update_time self) (update_interval self) (drawing_area self).

Definition set_max_line_thickness (v : Z) (self : App) : App :=
  mkApp (rect_canvas self) (text_entry self) (text_box self)
    (start_x self) (start_y self) (end_x self) (end_y self)
    (screenshot self) (full_screenshot self) (screen_width self)
    (screen_height self) (current_tool self) (current_color self)
    (line_thickness self) v (font_size self) (selection_rect self)
    (overlay_rectangles self) (dimension_text self)
    (is_drawing_mode self) (is_screenshot_in_progress self) (state self)
    (undo_stack self) (redo_stack self) (resize_handles self)
    (resizing self) (resize_start_x self) (resize_start_y self)
    (dragging self) (drag_start_x self) (drag_start_y self)
    (last_update_time self) (update_interval self) (drawing_area self).

Definition set_font_size (v : Z) (self : App) : App :=
  mkApp (rect_canvas self) (text_entry self) (text_box self)
    (start_x self) (start_y self) (end_x self) (end_y self)
    (screenshot self) (full_screenshot self) (screen_width self)
    (screen_height self) (current_tool self) (current_color self)
    (line_thickness self) (max_line_thickness self) v
    (selection_rect self) (overlay_rectangles self)
    (dimension_text self) (is_drawing_mode self)
    (is_screenshot_in_progress self) (state self) (undo_stack self)
    (redo_stack self) (resize_handles self) (resizing self)
    (resize_start_x self) (resize_start_y self) (dragging self)
    (drag_start_x self) (drag_start_y self) (last_update_time self)
    (update_interval self) (drawing_area self).

Definition set_selection_rect (v : nat) (self : App) : App :=
  mkApp (rect_canvas self) (text_entry self) (text_box self)
    (start_x self) (start_y self) (end_x self) (end_y self)
    (screenshot self) (full_screenshot self) (screen_width self)
    (screen_height self) (current_tool self) (current_color self)
    (line_thickness self) (max_line_thickness self) (font_size self) v
    (overlay_rectangles self) (dimension_text self)
    (is_drawing_mode self) (is_screenshot_in_progress self) (state self)
    (undo_stack self) (redo_stack self) (resize_handles self)
    (resizing self) (resize_start_x self) (resize_start_y self)
    (dragging self) (drag_start_x self) (drag_start_y self)
    (last_update_time self) (update_interval self) (drawing_area self).

Definition set_overlay_rectangles (v : list nat) (self : App) : App :=
  mkApp (rect_canvas self) (text_entry self) (text_box self)
    (start_x self) (start_y self) (end_x self) (end_y self)
    (screenshot self) (full_screenshot self) (screen_width self)
    (screen_height self) (current_tool self) (current_color self)
    (line_thickness self) (max_line_thickness self) (font_size self)
    (selection_rect self) v (dimension_text self) (is_drawing_mode self)
    (is_screenshot_in_progress self) (state self) (undo_stack self)
    (redo_stack self) (resize_handles self) (resizing self)
    (resize_start_x self) (resize_start_y self) (dragging self)
    (drag_start_x self) (drag_start_y self) (last_update_time self)
    (update_interval self) (drawing_area self).

Definition set_dimension_text (v : nat) (self : App) : App :=
  mkApp (rect_canvas self) (text_entry self) (text_box self)
    (start_x self) (start_y self) (end_x self) (end_y self)
    (screenshot self) (full_screenshot self) (screen_width self)
    (screen_height self) (current_tool self) (current_color self)
    (line_thickness self) (max_line_thickness self) (font_size self)
    (selection_rect self) (overlay_rectangles self) v
    (is_drawing_mode self) (is_screenshot_in_progress self) (state self)
    (undo_stack self) (redo_stack self) (resize_handles self)
    (resizing self) (resize_start_x self) (resize_start_y self)
    (dragging self) (drag_start_x self) (drag_start_y self)
    (last_update_time self) (update_interval self) (drawing_area self).

Definition set_is_drawing_mode (v : bool) (self : App) : App :=
  mkApp (rect_canvas self) (text_entry self) (text_box self)
    (start_x self) (start_y self) (end_x self) (end_y self)
    (screenshot self) (full_screenshot self) (screen_width self)
    (screen_height self) (current_tool self) (current_color self)
    (line_thickness self) (max_line_thickness self) (font_size self)
    (selection_rect self) (overlay_rectangles self)
    (dimension_text self) v (is_screenshot_in_progress self)
    (state self) (undo_stack self) (redo_stack self)
    (resize_handles self) (resizing self) (resize_start_x self)
    (resize_start_y self) (dragging self) (drag_start_x self)
    (drag_start_y self) (last_update_time self) (update_interval self)
    (drawing_area self).

Definition set_is_screenshot_in_progress (v : bool) (self : App) : App :=
  mkApp (rect_canvas self) (text_entry self) (text_box self)
    (start_x self) (start_y self) (end_x self) (end_y self)
    (screenshot self) (full_screenshot self) (screen_width self)
    (screen_height self) (current_tool self) (current_color self)
    (line_thickness self) (max_line_thickness self) (font_size self)
    (selection_rect self) (overlay_rectangles self)
    (dimension_text self) (is_drawing_mode self) v (state self)
    (undo_stack self) (redo_stack self) (resize_handles self)
    (resizing self) (resize_start_x self) (resize_start_y self)
    (dragging self) (drag_start_x self) (drag_start_y self)
    (last_update_time self) (update_interval self) (drawing_area self).

Definition set_state (v : string) (self : App) : App :=
  mkApp (rect_canvas self) (text_entry self) (text_box self)
    (start_x self) (start_y self) (end_x self) (end_y self)
    (screenshot self) (full_screenshot self) (screen_width self)
    (screen_height self) (current_tool self) (current_color self)
    (line_thickness self) (max_line_thickness self) (font_size self)
    (selection_rect self) (overlay_rectangles self)
    (dimension_text self) (is_drawing_mode self)
    (is_screenshot_in_progress self) v (undo_stack self)
    (redo_stack self) (resize_handles self) (resizing self)
    (resize_start_x self) (resize_start_y self) (dragging self)
    (drag_start_x self) (drag_start_y self) (last_update_time self)
    (update_interval self) (drawing_area self).

Definition set_undo_stack (v : list Command.t) (self : App) : App :=
  mkApp (rect_canvas self) (text_entry self) (text_box self)
    (start_x self) (start_y self) (end_x self) (end_y self)
    (screenshot self) (full_screenshot self) (screen_width self)
    (screen_height self) (current_tool self) (current_color self)
    (line_thickness self) (max_line_thickness self) (font_size self)
    (selection_rect self) (overlay_rectangles self)
    (dimension_text self) (is_drawing_mode self)
    (is_screenshot_in_progress self) (state self) v (redo_stack self)
    (resize_handles self) (resizing self) (resize_start_x self)
    (resize_start_y self) (dragging self) (drag_start_x self)
    (drag_start_y self) (last_update_time self) (update_interval self)
    (drawing_area self).

Definition set_redo_stack (v : list Command.t) (self : App) : App :=
  mkApp (rect_canvas self) (text_entry self) (text_box self)
    (start_x self) (start_y self) (end_x self) (end_y self)
    (screenshot self) (full_screenshot self) (screen_width self)
    (screen_height self) (current_tool self) (current_color self)
    (line_thickness self) (max_line_thickness self) (font_size self)
    (selection_rect self) (overlay_rectangles self)
    (dimension_text self) (is_drawing_mode self)
    (is_screenshot_in_progress self) (state self) (undo_stack self) v
    (resize_handles self) (resizing self) (resize_start_x self)
    (resize_start_y self) (dragging self) (drag_start_x self)
    (drag_start_y self) (last_update_time self) (update_interval self)
    (drawing_area self).

Definition set_resize_handles (v : list nat) (self : App) : App :=
  mkApp (rect_canvas self) (text_entry self) (text_box self)
    (start_x self) (start_y self) (end_x self) (end_y self)
    (screenshot self) (full_screenshot self) (screen_width self)
    (screen_height self) (current_tool self) (current_color self)
    (line_thickness self) (max_line_thickness self) (font_size self)
    (selection_rect self) (overlay_rectangles self)
    (dimension_text self) (is_drawing_mode self)
    (is_screenshot_in_progress self) (state self) (undo_stack self)
    (redo_stack self) v (resizing self) (resize_start_x self)
    (resize_start_y self) (dragging self) (drag_start_x self)
    (drag_start_y self) (last_update_time self) (update_interval self)
    (drawing_area self).

Definition set_resizing (v : option nat) (self : App) : App :=
  mkApp (rect_canvas self) (text_entry self) (text_box self)
    (start_x self) (start_y self) (end_x self) (end_y self)
    (screenshot self) (full_screenshot self) (screen_width self)
    (screen_height self) (current_tool self) (current_color self)
    (line_thickness self) (max_line_thickness self) (font_size self)
    (selection_rect self) (overlay_rectangles self)
    (dimension_text self) (is_drawing_mode self)
    (is_screenshot_in_progress self) (state self) (undo_stack self)
    (redo_stack self) (resize_handles self) v (resize_start_x self)
    (resize_start_y self) (dragging self) (drag_start_x self)
    (drag_start_y self) (last_update_time self) (update_interval self)
    (drawing_area self).

Definition set_resize_start_x (v : option Z) (self : App) : App :=
  mkApp (rect_canvas self) (text_entry self) (text_box self)
    (start_x self) (start_y self) (end_x self) (end_y self)
    (screenshot self) (full_screenshot self) (screen_width self)
    (screen_height self) (current_tool self) (current_color self)
    (line_thickness self) (max_line_thickness self) (font_size self)
    (selection_rect self) (overlay_rectangles self)
    (dimension_text self) (is_drawing_mode self)
    (is_screenshot_in_progress self) (state self) (undo_stack self)
    (redo_stack self) (resize_handles self) (resizing self) v
    (resize_start_y self) (dragging self) (drag_start_x self)
    (drag_start_y self) (last_update_time self) (update_interval self)
    (drawing_area self).

Definition set_resize_start_y (v : option Z) (self : App) : App :=
  mkApp (rect_canvas self) (text_entry self) (text_box self)
    (start_x self) (start_y self) (end_x self) (end_y self)
    (screenshot self) (full_screenshot self) (screen_width self)
    (screen_height self) (current_tool self) (current_color self)
    (line_thickness self) (max_line_thickness self) (font_size self)
    (selection_rect self) (overlay_rectangles self)
    (dimension_text self) (is_drawing_mode self)
    (is_screenshot_in_progress self) (state self) (undo_stack self)
    (redo_stack self) (resize_handles self) (resizing self)
    (resize_start_x self) v (dragging self) (drag_start_x self)
    (drag_start_y self) (last_update_time self) (update_interval self)
    (drawing_area self).

Definition set_dragging (v : bool) (self : App) : App :=
  mkApp (rect_canvas self) (text_entry self) (text_box self)
    (start_x self) (start_y self) (end_x self) (end_y self)
    (screenshot self) (full_screenshot self) (screen_width self)
    (screen_height self) (current_tool self) (current_color self)
    (line_thickness self) (max_line_thickness self) (font_size self)
    (selection_rect self) (overlay_rectangles self)
    (dimension_text self) (is_drawing_mode self)
    (is_screenshot_in_progress self) (state self) (undo_stack self)
    (redo_stack self) (resize_handles self) (resizing self)
    (resize_start_x self) (resize_start_y self) v (drag_start_x self)
    (drag_start_y self) (last_update_time self) (update_interval self)
    (drawing_area self).

Definition set_drag_start_x (v : option Z) (self : App) : App :=
  mkApp (rect_canvas self) (text_entry self) (text_box self)
    (start_x self) (start_y self) (end_x self) (end_y self)
    (screenshot self) (full_screenshot self) (screen_width self)
    (screen_height self) (current_tool self) (current_color self)
    (line_thickness self) (max_line_thickness self) (font_size self)
    (selection_rect self) (overlay_rectangles self)
    (dimension_text self) (is_drawing_mode self)
    (is_screenshot_in_progress self) (state self) (undo_stack self)
    (redo_stack self) (resize_handles self) (resizing self)
    (resize_start_x self) (resize_start_y self) (dragging self) v
    (drag_start_y self) (last_update_time self) (update_interval self)
    (drawing_area self).

Definition set_drag_start_y (v : option Z) (self : App) : App :=
  mkApp (rect_canvas self) (text_entry self) (text_box self)
    (start_x self) (start_y self) (end_x self) (end_y self)
    (screenshot self) (full_screenshot self) (screen_width self)
    (screen_height self) (current_tool self) (current_color self)
    (line_thickness self) (max_line_thickness self) (font_size self)
    (selection_rect self) (overlay_rectangles self)
    (dimension_text self) (is_drawing_mode self)
    (is_screenshot_in_progress self) (state self) (undo_stack self)
    (redo_stack self) (resize_handles self) (resizing self)
    (resize_start_x self) (resize_start_y self) (dragging self)
    (drag_start_x self) v (last_update_time self) (update_interval self)
    (drawing_area self).

Definition set_last_update_time (v : R) (self : App) : App :=
  mkApp (rect_canvas self) (text_entry self) (text_box self)
    (start_x self) (start_y self) (end_x self) (end_y self)
    (screenshot self) (full_screenshot self) (screen_width self)
    (screen_height self) (current_tool self) (current_color self)
    (line_thickness self) (max_line_thickness self) (font_size self)
    (selection_rect self) (overlay_rectangles self)
    (dimension_text self) (is_drawing_mode self)
    (is_screenshot_in_progress self) (state self) (undo_stack self)
    (redo_stack self) (resize_handles self) (resizing self)
    (resize_start_x self) (resize_start_y self) (dragging self)
    (drag_start_x self) (drag_start_y self) v (update_interval self)
    (drawing_area self).

Definition set_update_interval (v : R) (self : App) : App :=
  mkApp (rect_canvas self) (text_entry self) (text_box self)
    (start_x self) (start_y self) (end_x self) (end_y self)
    (screenshot self) (full_screenshot self) (screen_width self)
    (screen_height self) (current_tool self) (current_color self)
    (line_thickness self) (max_line_thickness self) (font_size self)
    (selection_rect self) (overlay_rectangles self)
    (dimension_text self) (is_drawing_mode self)
    (is_screenshot_in_progress self) (state self) (undo_stack self)
    (redo_stack self) (resize_handles self) (resizing self)
    (resize_start_x self) (resize_start_y self) (dragging self)
    (drag_start_x self) (drag_start_y self) (last_update_time self) v
    (drawing_area self).

Definition set_drawing_area (v : option (R * R * R * R)) (self : App) : App :=
  mkApp (rect_canvas self) (text_entry self) (text_box self)
    (start_x self) (start_y self) (end_x self) (end_y self)
    (screenshot self) (full_screenshot self) (screen_width self)
    (screen_height self) (current_tool self) (current_color self)
    (line_thickness self) (max_line_thickness self) (font_size self)
    (selection_rect self) (overlay_rectangles self)
    (dimension_text self) (is_drawing_mode self)
    (is_screenshot_in_progress self) (state self) (undo_stack self)
    (redo_stack self) (resize_handles self) (resizing self)
    (resize_start_x self) (resize_start_y self) (dragging self)
    (drag_start_x self) (drag_start_y self) (last_update_time self)
    (update_interval self) v.
(** [__init__], with the settings [load_settings] returns when there is
    no settings file.  Before a capture there is no canvas; it is the
    empty canvas here, and the ids of its fixed items are 0. *)
Definition init : App :=
  mkApp Tk.empty None None None None None None None None 0 0
    "move" "red" 2 10 12 0 [] 0 false false "idle" [] [] [] None None None
    false None None 0 (1 / 60) None.

Definition accent_color : string := "#007bff".

Definition set_tool (tool : string) (self : App) : App :=
  set_current_tool tool self.

Definition adjust_line_thickness (delta : Z) (self : App) : App :=
  set_line_thickness
    (Z.max 1 (Z.min (max_line_thickness self) (line_thickness self + delta)))
    self.

Definition reset_screenshot_state (self : App) : App :=
  let self := set_undo_stack [] self in
  let self := set_redo_stack [] self in
  let self := set_start_x None (set_start_y None self) in
  let self := set_end_x None (set_end_y None self) in
  let self := set_screenshot None self in
  set_rect_canvas Tk.empty self.

(** [setup_screenshot_canvas]; the bounding box of the monitors and the
    grabbed image are arguments. *)
Definition setup_screenshot_canvas (width height : Z) (grab : PIL.image)
    (self : App) : App :=
  let self := set_screen_width width self in
  let self := set_screen_height height self in
  let self := set_full_screenshot (Some grab) self in
  let '(_, c) := Tk.create "image" [0; 0] [("anchor", Tk.VStr "nw")] []
                   Tk.empty in
  let '(sel, c) :=
    Tk.create "rectangle" [0; 0; 0; 0]
      [("outline", Tk.VStr accent_color); ("width", Tk.VInt 2)] [] c in
  let self := set_selection_rect sel self in
  let '(ovs, c) :=
    fold_left
      (fun (acc : list nat * Tk.canvas) (_ : nat) =>
         let '(i, c') :=
           Tk.create "rectangle" [0; 0; IZR width; IZR height]
             [("fill", Tk.VStr "black"); ("stipple", Tk.VStr "gray50")]
             ["overlay"] (snd acc) in
         (fst acc ++ [i], c'))
      (seq 0 4) ([], c) in
  let self := set_overlay_rectangles ovs self in
  let '(dim, c) :=
    Tk.create "text" [0; 0]
      [("text", Tk.VStr ""); ("fill", Tk.VStr "white");
       ("font", Tk.VFont "Segoe UI" 10)] ["dimensions"] c in
  let self := set_dimension_text dim self in
  set_rect_canvas (Tk.itemconfig dim [("state", Tk.VStr "normal")] c) self.

(** [_initiate_screenshot_gui] *)
Definition initiate_screenshot (width height : Z) (grab : PIL.image)
    (self : App) : App :=
  let self := set_state "selecting" self in
  let self := set_is_screenshot_in_progress true self in
  let self := reset_screenshot_state self in
  setup_screenshot_canvas width height grab self.

Definition update_overlay (x1 y1 x2 y2 : R) (self : App) : option App :=
  let W := IZR (screen_width self) in
  let H := IZR (screen_height self) in
  o0 <- nth_error (overlay_rectangles self) 0 ;;
  o1 <- nth_error (overlay_rectangles self) 1 ;;
  o2 <- nth_error (overlay_rectangles self) 2 ;;
  o3 <- nth_error (overlay_rectangles self) 3 ;;
  let c := rect_canvas self in
  let c := Tk.set_coords o0 [0; 0; W; y1] c in
  let c := Tk.set_coords o1 [0; y1; x1; y2] c in
  let c := Tk.set_coords o2 [x2; y1; W; y2] c in
  let c := Tk.set_coords o3 [0; y2; W; H] c in
  let c :=
    fold_left
      (fun c rect =>
         Tk.itemconfig rect
           [("fill", Tk.VStr "black"); ("stipple", Tk.VStr "gray50")] c)
      (overlay_rectangles self) c in
  let width := x2 - x1 in
  let height := y2 - y1 in
  let c := Tk.set_coords (dimension_text self) [(x1 + x2) / 2; (y1 + y2) / 2] c in
  let c :=
    Tk.itemconfig (dimension_text self)
      [("text", Tk.VDim width height); ("state", Tk.VStr "normal")] c in
  Some (set_rect_canvas c self).

(** [update_selection]; [now] is the value of [time.monotonic()]. *)
Definition update_selection (now : R) (self : App) : option App :=
  match start_x self, start_y self, end_x self, end_y self with
  | Some sx, Some sy, Some ex, Some ey =>
      if Rltb (now - last_update_time self) (update_interval self)
      then Some self
      else
        let self := set_last_update_time now self in
        let x1 := Rmin sx ex in
        let y1 := Rmin sy ey in
        let x2 := Rmax sx ex in
        let y2 := Rmax sy ey in
        let self :=
          set_rect_canvas
            (Tk.set_coords (selection_rect self) [x1; y1; x2; y2]
               (rect_canvas self)) self in
        update_overlay x1 y1 x2 y2 self
  | _, _, _, _ => Some self
  end.

Definition on_button_press (event : Event) (now : R) (self : App)
    : option App :=
  let self := set_start_x (Some (IZR (ev_x event))) self in
  let self := set_end_x (Some (IZR (ev_x event))) self in
  let self := set_start_y (Some (IZR (ev_y event))) self in
  let self := set_end_y (Some (IZR (ev_y event))) self in
  update_selection now self.

Definition on_move_press (event : Event) (now : R) (self : App)
    : option App :=
  let self := set_end_x (Some (IZR (ev_x event))) self in
  let self := set_end_y (Some (IZR (ev_y event))) self in
  update_selection now self.

Definition create_resize_handles (x1 y1 x2 y2 : R) (self : App) : App :=
  let handle_size := 10 in
  let corners :=
    [(x1, y1, "handle0"); (x2, y1, "handle1");
     (x2, y2, "handle2"); (x1, y2, "handle3")] in
  let '(hs, c) :=
    fold_left
      (fun (acc : list nat * Tk.canvas) (corner : R * R * string) =>
         let '(x, y, tag) := corner in
         let '(handle, c') :=
           Tk.create "rectangle"
             [x - handle_size / 2; y - handle_size / 2;
              x + handle_size / 2; y + handle_size / 2]
             [("fill", Tk.VStr "white"); ("outline", Tk.VStr "black")]
             [tag] (snd acc) in
         (fst acc ++ [handle], c'))
      corners ([], rect_canvas self) in
  set_rect_canvas c (set_resize_handles hs self).

(** [setup_drawing_mode]; the event bindings, the cursor and the toolbar
    are widgets of their own and are left out. *)
Definition setup_drawing_mode (x1 y1 x2 y2 : R) (self : App) : App :=
  let self :=
    set_rect_canvas
      (Tk.itemconfig (dimension_text self) [("state", Tk.VStr "hidden")]
         (rect_canvas self)) self in
  let self := set_drawing_area (Some (x1, y1, x2, y2)) self in
  let self := set_is_drawing_mode true self in
  create_resize_handles x1 y1 x2 y2 self.

(** [on_button_release]: the end of the selection drag.  A missing
    screenshot raises inside the [try], which only logs. *)
Definition on_button_release (event : Event) (now : R) (self : App)
    : option App :=
  match start_x self, start_y self with
  | Some sx, Some sy =>
      let ex := IZR (ev_x event) in
      let ey := IZR (ev_y event) in
      let '(ex, ey) :=
        if Reqb ex sx && Reqb ey sy then (ex + 1, ey + 1) else (ex, ey) in
      let self := set_end_x (Some ex) (set_end_y (Some ey) self) in
      self <- update_selection now self ;;
      let x1 := Rmin sx ex in
      let y1 := Rmin sy ey in
      let x2 := Rmax sx ex in
      let y2 := Rmax sy ey in
      match full_screenshot self with
      | Some full =>
          let self :=
            set_screenshot (Some (PIL.crop full (x1, y1, x2, y2))) self in
          let self := setup_drawing_mode x1 y1 x2 y2 self in
          let self := set_state "drawing" self in
          Some (set_is_screenshot_in_progress false self)
      | None => Some self
      end
  | _, _ => Some self
  end.

Definition point_in_drawing_area (x y : Z) (self : App) : option bool :=
  '(x1, y1, x2, y2) <- drawing_area self ;;
  Some (Rleb x1 (IZR x) && Rleb (IZR x) x2
        && Rleb y1 (IZR y) && Rleb (IZR y) y2).

Definition start_draw (event : Event) (self : App) : option App :=
  '(x1, y1, _, _) <- drawing_area self ;;
  let self := set_start_x (Some (IZR (ev_x event) - x1)) self in
  Some (set_start_y (Some (IZR (ev_y event) - y1)) self).

(** [draw_arrow]: the arrow of the live preview. *)
Definition draw_arrow (x1 y1 x2 y2 : R) (tags : list string) (self : App)
    : App :=
  let angle := math.atan2 (y2 - y1) (x2 - x1) in
  let arrow_length := IZR (Z.max (line_thickness self * 3) 8) in
  let x_diff := arrow_length * cos angle in
  let y_diff := arrow_length * sin angle in
  let '(_, c) :=
    Tk.create "line" [x1; y1; x2 - x_diff; y2 - y_diff]
      [("fill", Tk.VStr (current_color self));
       ("width", Tk.VInt (line_thickness self))] tags (rect_canvas self) in
  let '(_, c) :=
    Tk.create "polygon"
      [x2; y2;
       x2 - x_diff + IZR (line_thickness self * 2) * sin angle;
       y2 - y_diff - IZR (line_thickness self * 2) * cos angle;
       x2 - x_diff - IZR (line_thickness self * 2) * sin angle;
       y2 - y_diff + IZR (line_thickness self * 2) * cos angle]
      [("fill", Tk.VStr (current_color self))] tags c in
  set_rect_canvas c self.

(** [draw_shape]: the temporary shape, redrawn at every motion event. *)
Definition draw_shape (event : Event) (self : App) : option App :=
  match start_x self with
  | None => Some self
  | Some sx =>
      inside <- point_in_drawing_area (ev_x event) (ev_y event) self ;;
      if negb inside then Some self
      else
        let self :=
          set_rect_canvas (Tk.delete_withtag "temp_shape" (rect_canvas self))
            self in
        '(x1, y1, _, _) <- drawing_area self ;;
        let current_x := IZR (ev_x event) - x1 in
        let current_y := IZR (ev_y event) - y1 in
        if String.eqb (current_tool self) "rectangle" then
          sy <- start_y self ;;
          let draw_x1 := Rmin sx current_x in
          let draw_y1 := Rmin sy current_y in
          let draw_x2 := Rmax sx current_x in
          let draw_y2 := Rmax sy current_y in
          let '(_, c) :=
            Tk.create "rectangle"
              [draw_x1 + x1; draw_y1 + y1; draw_x2 + x1; draw_y2 + y1]
              [("outline", Tk.VStr (current_color self));
               ("width", Tk.VInt (line_thickness self))]
              ["temp_shape"; "drawing"] (rect_canvas self) in
          Some (set_rect_canvas c self)
        else if String.eqb (current_tool self) "arrow" then
          sy <- start_y self ;;
          Some (draw_arrow (sx + x1) (sy + y1) (current_x + x1)
                  (current_y + y1) ["temp_shape"; "drawing"] self)
        else Some self
  end.

(** [end_draw]: the shape is committed.  With a tool that is neither
    rectangle nor arrow [execute] returns [None], and
    [addtag_withtag("drawing", None)] is a Tcl error. *)
Definition end_draw (event : Event) (self : App) : option App :=
  match start_x self with
  | None => Some self
  | Some sx =>
      inside <- point_in_drawing_area (ev_x event) (ev_y event) self ;;
      if negb inside then Some self
      else
        let c := Tk.delete_withtag "temp_shape" (rect_canvas self) in
        '(x1, y1, _, _) <- drawing_area self ;;
        let current_x := IZR (ev_x event) - x1 in
        let current_y := IZR (ev_y event) - y1 in
        sy <- start_y self ;;
        let command :=
          DrawCommand.mk (current_tool self) HNone
            (sx + x1) (sy + y1) (current_x + x1) (current_y + y1)
            (current_color self) (line_thickness self) in
        let '(command, c) := DrawCommand.execute command c in
        c <- match DrawCommand.shape_id command with
             | HList l =>
                 Some (fold_left (fun c sid => Tk.addtag_withtag "drawing" sid c)
                         l c)
             | HId shape_id => Some (Tk.addtag_withtag "drawing" shape_id c)
             | HNone => None
             end ;;
        let self := set_rect_canvas c self in
        let self :=
          set_undo_stack (undo_stack self ++ [Command.Draw command]) self in
        let self := set_redo_stack [] self in
        Some (set_start_x None (set_start_y None self))
  end.

(** [end_text_entry]: the text field loses focus (or a new text box is
    started). *)
Definition end_text_entry (self : App) : App :=
  match text_entry self with
  | Some entry =>
      let text := te_content entry in
      let self :=
        if negb (String.eqb text "") then
          let command :=
            TextCommand.mk text (te_x entry) (te_y entry) (current_color self)
              ("TkDefaultFont", font_size self)
              (te_width entry) (te_height entry) None in
          let '(command, c) := TextCommand.execute command (rect_canvas self) in
          let self := set_rect_canvas c self in
          let self :=
            set_undo_stack (undo_stack self ++ [Command.Text command]) self in
          set_redo_stack [] self
        else self in
      let self := set_text_entry None self in
      set_rect_canvas (Tk.delete_withtag "text_box" (rect_canvas self)) self
  | None => self
  end.

Definition start_text_entry (event : Event) (self : App) : option App :=
  inside <- point_in_drawing_area (ev_x event) (ev_y event) self ;;
  if inside then
    let self :=
      match text_entry self with
      | Some _ => end_text_entry self
      | None => self
      end in
    let self := set_start_x (Some (IZR (ev_x event))) self in
    let self := set_start_y (Some (IZR (ev_y event))) self in
    let '(box, c) :=
      Tk.create "rectangle"
        [IZR (ev_x event); IZR (ev_y event); IZR (ev_x event); IZR (ev_y event)]
        [("outline", Tk.VStr (current_color self)); ("dash", Tk.VDash 2 2)]
        ["text_box"] (rect_canvas self) in
    Some (set_text_box (Some box) (set_rect_canvas c self))
  else Some self.

Definition resize_text_box (event : Event) (self : App) : option App :=
  box <- text_box self ;;
  sx <- start_x self ;;
  sy <- start_y self ;;
  Some (set_rect_canvas
          (Tk.set_coords box [sx; sy; IZR (ev_x event); IZR (ev_y event)]
             (rect_canvas self)) self).

(** [finalize_text_box]: the editable field is placed over the box. *)
Definition finalize_text_box (event : Event) (self : App) : option App :=
  box <- text_box self ;;
  match Tk.coords box (rect_canvas self) with
  | [x1; y1; x2; y2] =>
      let width := Rabs (x2 - x1) in
      let height := Rabs (y2 - y1) in
      Some (set_text_entry
              (Some (mkTextEntry "" (Rmin x1 x2) (Rmin y1 y2) width height))
              self)
  | _ => None
  end.

(** The user types in the text field. *)
Definition type_text (s : string) (self : App) : App :=
  match text_entry self with
  | Some entry =>
      set_text_entry
        (Some (mkTextEntry s (te_x entry) (te_y entry)
                 (te_width entry) (te_height entry))) self
  | None => self
  end.

Definition undo (self : App) : App :=
  match pop (undo_stack self) with
  | Some (rest, command) =>
      let self := set_undo_stack rest self in
      let '(command, c) := Command.undo command (rect_canvas self) in
      let self := set_rect_canvas c self in
      let self := set_redo_stack (redo_stack self ++ [command]) self in
      let self :=
        set_rect_canvas (Tk.delete_withtag "temp_shape" (rect_canvas self))
          self in
      set_start_x None (set_start_y None self)
  | None => self
  end.

Definition redo (self : App) : App :=
  match pop (redo_stack self) with
  | Some (rest, command) =>
      let self := set_redo_stack rest self in
      let '(command, c) := Command.execute command (rect_canvas self) in
      let self := set_rect_canvas c self in
      let self := set_undo_stack (undo_stack self ++ [command]) self in
      let self :=
        set_rect_canvas (Tk.delete_withtag "temp_shape" (rect_canvas self))
          self in
      set_start_x None (set_start_y None self)
  | None => self
  end.

Definition update_resize_handles (x1 y1 x2 y2 : R) (self : App) : App :=
  let handle_size := 10 in
  let corners := [(x1, y1); (x2, y1); (x2, y2); (x1, y2)] in
  set_rect_canvas
    (fold_left
       (fun c (hc : nat * (R * R)) =>
          let '(handle, (x, y)) := hc in
          Tk.set_coords handle
            [x - handle_size / 2; y - handle_size / 2;
             x + handle_size / 2; y + handle_size / 2] c)
       (combine (resize_handles self) corners) (rect_canvas self))
    self.

(** [drag_selection]: the drawing area follows the pointer. *)
Definition drag_selection (x y : Z) (self : App) : option App :=
  if negb (dragging self) then Some self
  else
    dsx <- drag_start_x self ;;
    dsy <- drag_start_y self ;;
    let dx := IZR (x - dsx) in
    let dy := IZR (y - dsy) in
    '(x1, y1, x2, y2) <- drawing_area self ;;
    let new_x1 := x1 + dx in
    let new_y1 := y1 + dy in
    let new_x2 := x2 + dx in
    let new_y2 := y2 + dy in
    let dx :=
      if Rltb new_x1 0 then - x1
      else if Rltb (IZR (screen_width self)) new_x2
           then IZR (screen_width self) - x2
           else dx in
    let dy :=
      if Rltb new_y1 0 then - y1
      else if Rltb (IZR (screen_height self)) new_y2
           then IZR (screen_height self) - y2
           else dy in
    let new_x1 := x1 + dx in
    let new_y1 := y1 + dy in
    let new_x2 := x2 + dx in
    let new_y2 := y2 + dy in
    let c :=
      Tk.set_coords (selection_rect self) [new_x1; new_y1; new_x2; new_y2]
        (rect_canvas self) in
    let c :=
      fold_left (fun c item => Tk.move item dx dy c)
        (Tk.find_withtag "drawing" c) c in
    let self := set_rect_canvas c self in
    let self := update_resize_handles new_x1 new_y1 new_x2 new_y2 self in
    let self := set_drawing_area (Some (new_x1, new_y1, new_x2, new_y2)) self in
    self <- update_overlay new_x1 new_y1 new_x2 new_y2 self ;;
    let self :=
      set_rect_canvas
        (Tk.itemconfig (dimension_text self) [("state", Tk.VStr "hidden")]
           (rect_canvas self)) self in
    Some (set_drag_start_x (Some x) (set_drag_start_y (Some y) self)).

(** [resize_selection]: the corner [self.resizing] follows the pointer. *)
Definition resize_selection (x y : Z) (self : App) : option App :=
  match Tk.coords (selection_rect self) (rect_canvas self) with
  | [x1; y1; x2; y2] =>
      let '(x1, y1, x2, y2) :=
        match resizing self with
        | Some 0%nat => (IZR x, IZR y, x2, y2)
        | Some 1%nat => (x1, IZR y, IZR x, y2)
        | Some 2%nat => (x1, y1, IZR x, IZR y)
        | Some 3%nat => (IZR x, y1, x2, IZR y)
        | _ => (x1, y1, x2, y2)
        end in
      let '(x1, x2) := (Rmin x1 x2, Rmax x1 x2) in
      let '(y1, y2) := (Rmin y1 y2, Rmax y1 y2) in
      let self :=
        set_rect_canvas
          (Tk.set_coords (selection_rect self) [x1; y1; x2; y2]
             (rect_canvas self)) self in
      let self := update_resize_handles x1 y1 x2 y2 self in
      self <- update_overlay x1 y1 x2 y2 self ;;
      let self := set_drawing_area (Some (x1, y1, x2, y2)) self in
      let width := Rabs (x2 - x1) in
      let height := Rabs (y2 - y1) in
      let c :=
        Tk.itemconfig (dimension_text self)
          [("text", Tk.VDim width height); ("state", Tk.VStr "normal")]
          (rect_canvas self) in
      let c :=
        Tk.set_coords (dimension_text self) [(x1 + x2) / 2; (y1 + y2) / 2] c in
      Some (set_rect_canvas c self)
  | _ => None
  end.

(** The loop of [on_press] over the resize handles: the index of the
    first handle whose square contains the pointer.  A handle without
    its four coordinates makes the indexing raise. *)
Fixpoint hit_handle (c : Tk.canvas) (x y : R) (handles : list nat) (i : nat)
    : option (option nat) :=
  match handles with
  | [] => Some None
  | handle :: rest =>
      match Tk.coords handle c with
      | c0 :: c1 :: c2 :: c3 :: _ =>
          if Rleb c0 x && Rleb x c2 && Rleb c1 y && Rleb y c3
          then Some (Some i)
          else hit_handle c x y rest (S i)
      | _ => None
      end
  end.

Definition on_press (event : Event) (self : App) : option App :=
  let x := ev_x event in
  let y := ev_y event in
  hit <- hit_handle (rect_canvas self) (IZR x) (IZR y) (resize_handles self) 0 ;;
  match hit with
  | Some i =>
      let self := set_resizing (Some i) self in
      let self := set_resize_start_x (Some x) self in
      let self := set_resize_start_y (Some y) self in
      Some (set_rect_canvas
              (Tk.itemconfig (dimension_text self) [("state", Tk.VStr "normal")]
                 (rect_canvas self)) self)
  | None =>
      if String.eqb (current_tool self) "move" then
        '(x1, y1, x2, y2) <- drawing_area self ;;
        if Rleb x1 (IZR x) && Rleb (IZR x) x2
           && Rleb y1 (IZR y) && Rleb (IZR y) y2
        then
          let self := set_dragging true self in
          let self := set_drag_start_x (Some x) self in
          Some (set_drag_start_y (Some y) self)
        else Some self
      else if String.eqb (current_tool self) "text" then
        start_text_entry event self
      else start_draw event self
  end.

Definition is_text_or_move (tool : string) : bool :=
  String.eqb tool "text" || String.eqb tool "move".

Definition on_drag (event : Event) (self : App) : option App :=
  if negb (Z.eqb (Z.land (ev_state event) 256) 0) then
    match resizing self with
    | Some _ => resize_selection (ev_x event) (ev_y event) self
    | None =>
        if dragging self && String.eqb (current_tool self) "move" then
          drag_selection (ev_x event) (ev_y event) self
        else if negb (is_text_or_move (current_tool self)) then
          draw_shape event self
        else Some self
    end
  else Some self.

Definition on_release (event : Event) (self : App) : option App :=
  match resizing self with
  | Some _ =>
      self <- resize_selection (ev_x event) (ev_y event) self ;;
      let self := set_resizing None self in
      let self := set_resize_start_x None self in
      let self := set_resize_start_y None self in
      Some (set_rect_canvas
              (Tk.itemconfig (dimension_text self) [("state", Tk.VStr "hidden")]
                 (rect_canvas self)) self)
  | None =>
      if dragging self && String.eqb (current_tool self) "move" then
        self <- drag_selection (ev_x event) (ev_y event) self ;;
        let self := set_dragging false self in
        let self := set_drag_start_x None self in
        Some (set_drag_start_y None self)
      else if negb (is_text_or_move (current_tool self)) then
        end_draw event self
      else Some self
  end.

(** The body of the loop of [copy_to_clipboard] over the undo stack:
    the calls one command makes on the drawing surface. *)
Definition command_calls (bbox : R * R * R * R) (stroke_width : Z)
    (command : Command.t) : list draw_call :=
  let '(bbox0, bbox1, _, _) := bbox in
  match command with
  | Command.Draw command =>
      let adjusted_x1 := DrawCommand.x1 command - bbox0 + IZR stroke_width in
      let adjusted_y1 := DrawCommand.y1 command - bbox1 + IZR stroke_width in
      let adjusted_x2 := DrawCommand.x2 command - bbox0 + IZR stroke_width in
      let adjusted_y2 := DrawCommand.y2 command - bbox1 + IZR stroke_width in
      let x0 := Rmin adjusted_x1 adjusted_x2 in
      let y0 := Rmin adjusted_y1 adjusted_y2 in
      let x1_ := Rmax adjusted_x1 adjusted_x2 in
      let y1_ := Rmax adjusted_y1 adjusted_y2 in
      if String.eqb (DrawCommand.tool command) "rectangle" then
        [DrawRectangle [x0; y0; x1_; y1_] (DrawCommand.color command)
           (DrawCommand.thickness command)]
      else if String.eqb (DrawCommand.tool command) "arrow" then
        draw_pil_arrow adjusted_x1 adjusted_y1 adjusted_x2 adjusted_y2
          (DrawCommand.color command) (DrawCommand.thickness command)
      else []
  | Command.Text command =>
      let adjusted_x := TextCommand.x command - bbox0 + IZR stroke_width in
      let adjusted_y := TextCommand.y command - bbox1 + IZR stroke_width in
      [DrawText (adjusted_x, adjusted_y) (TextCommand.text command)
         (TextCommand.color command) (snd (TextCommand.font command))]
  end.

(** The compositing part of [copy_to_clipboard]: the image handed to
    [copy_image_to_clipboard]. *)
Definition flatten (E : PIL.externals) (self : App) : option PIL.image :=
  '(x1, y1, x2, y2) <- drawing_area self ;;
  let bbox := (Rmin x1 x2, Rmin y1 y2, Rmax x1 x2, Rmax y1 y2) in
  full <- full_screenshot self ;;
  let temp_image := PIL.crop full bbox in
  let stroke_width := 1%Z in
  let new_size :=
    ((PIL.width temp_image + 2 * stroke_width)%Z,
     (PIL.height temp_image + 2 * stroke_width)%Z) in
  let stroke_image := PIL.new new_size (0, 0, 0, 0)%Z in
  let stroke_image :=
    PIL.paste stroke_image temp_image (stroke_width, stroke_width) in
  let stroke_image :=
    PIL.rectangle E stroke_image
      [0; 0; IZR (fst new_size - 1); IZR (snd new_size - 1)]
      (current_color self) stroke_width in
  Some (fold_left (run_call E)
          (flat_map (command_calls bbox stroke_width) (undo_stack self))
          stroke_image).

Definition reset_for_new_screenshot (self : App) : App :=
  let self := set_state "idle" self in
  let self := set_is_drawing_mode false self in
  let self := set_is_screenshot_in_progress false self in
  let self := set_undo_stack [] self in
  let self := set_redo_stack [] self in
  let self := set_full_screenshot None self in
  let self := set_screenshot None self in
  let self := set_rect_canvas Tk.empty self in
  let self := set_start_x None (set_start_y None self) in
  let self := set_end_x None (set_end_y None self) in
  let self := set_drawing_area None self in
  let self := set_text_entry None self in
  let self := set_resize_handles [] self in
  let self := set_resizing None self in
  set_resize_start_x None (set_resize_start_y None self).

(** [copy_to_clipboard]: the new state and the image put on the
    clipboard, if any. *)
Definition copy_to_clipboard (E : PIL.externals) (self : App)
    : option (App * option PIL.image) :=
  if negb (is_drawing_mode self) then Some (self, None)
  else
    stroke_image <- flatten E self ;;
    Some (reset_for_new_screenshot self, Some stroke_image).


(** [safe_cancel_screenshot]: the capture is abandoned and its canvas
    destroyed. *)
Definition safe_cancel_screenshot (self : App) : App :=
  let self := set_state "idle" self in
  let self := set_is_screenshot_in_progress false self in
  let self := set_is_drawing_mode false self in
  let self := set_rect_canvas Tk.empty self in
  let self := set_start_x None (set_start_y None self) in
  let self := set_end_x None (set_end_y None self) in
  let self := set_screenshot None self in
  set_full_screenshot None self.

(** *** The hot key, the Escape key and the settings *)

Definition SCREENSHOT_KEY_MAP : list (string * string) :=
  [("print screen", "print_screen");
   ("prtscn", "print_screen");
   ("prt sc", "print_screen");
   ("prnt scrn", "print_screen");
   ("print_screen", "print_screen");
   ("ctrl+shift+s", "ctrl+shift+s")].

(** The attributes of the controller that the capture itself does not
    read, beside the capture. *)
Record Shell := mkShell {
  app : App;
  screenshot_key : string;
  _last_hotkey_state : bool;
  _last_escape_state : bool;
  color_picker : option ColorPicker.t
}.

Definition set_app (v : App) (self : Shell) : Shell :=
  mkShell v (screenshot_key self) (_last_hotkey_state self)
          (_last_escape_state self) (color_picker self).

Definition set__last_hotkey_state (v : bool) (self : Shell) : Shell :=
  mkShell (app self) (screenshot_key self) v (_last_escape_state self)
          (color_picker self).

Definition set__last_escape_state (v : bool) (self : Shell) : Shell :=
  mkShell (app self) (screenshot_key self) (_last_hotkey_state self) v
          (color_picker self).

Definition set_color_picker (v : option ColorPicker.t) (self : Shell)
    : Shell :=
  mkShell (app self) (screenshot_key self) (_last_hotkey_state self)
          (_last_escape_state self) v.

(** The part of [__init__] and [start] that sets these attributes;
    [setting] is the lower-cased entry of the settings file. *)
Definition start (setting : string) : Shell :=
  let screenshot_key :=
    if existsb (fun kv => String.eqb (fst kv) setting) SCREENSHOT_KEY_MAP
    then setting else "print screen" in
  mkShell init screenshot_key false false None.

(** One reading of the keyboard: for each virtual key whether
    [GetAsyncKeyState] reports it down. *)
Record Keyboard := mkKeyboard {
  VK_CONTROL : bool;
  VK_SHIFT : bool;
  VK_S : bool;
  VK_SNAPSHOT : bool;
  VK_ESCAPE : bool
}.

(** The value [poll_hotkey_state] computes for [hotkey_pressed]. *)
Definition hotkey_pressed (keys : Keyboard) (self : Shell) : bool :=
  if String.eqb (screenshot_key self) "ctrl+shift+s"
     && VK_CONTROL keys && VK_SHIFT keys && VK_S keys
  then true
  else if (String.eqb (screenshot_key self) "print screen"
           || String.eqb (screenshot_key self) "print_screen")
          && VK_SNAPSHOT keys
  then true
  else false.

(** [poll_hotkey_state]: whether [initiate_screenshot] is scheduled, and
    the new state. *)
Definition poll_hotkey_state (keys : Keyboard) (self : Shell)
    : bool * Shell :=
  let hotkey_pressed := hotkey_pressed keys self in
  (hotkey_pressed && negb (_last_hotkey_state self)
   && String.eqb (state (app self)) "idle",
   set__last_hotkey_state hotkey_pressed self).

(** [handle_escape] *)
Definition handle_escape (self : Shell) : Shell :=
  match color_picker self with
  | Some picker =>
      if ColorPicker.is_open picker
      then set_color_picker (Some (ColorPicker.close picker)) self
      else if String.eqb (state (app self)) "selecting"
              || String.eqb (state (app self)) "drawing"
      then set_app (safe_cancel_screenshot (app self)) self
      else self
  | None =>
      if String.eqb (state (app self)) "selecting"
         || String.eqb (state (app self)) "drawing"
      then set_app (safe_cancel_screenshot (app self)) self
      else self
  end.

(** [poll_escape_key], with the call of [handle_escape] it schedules. *)
Definition poll_escape_key (keys : Keyboard) (self : Shell) : Shell :=
  let escape_pressed := VK_ESCAPE keys in
  let fire := escape_pressed && negb (_last_escape_state self) in
  let self := set__last_escape_state escape_pressed self in
  if fire then handle_escape self else self.

End QuickDrawScreenshot.

Import QuickDrawScreenshot.

(** ** What the claims speak about *)

(** The annotations on screen: kind and coordinates of the canvas items
    tagged ["drawing"], bottom first. *)
Definition rendered (self : App) : list (string * list R) :=
  map (fun it => (Tk.ikind it, Tk.icoords it))
      (filter (Tk.has_tag "drawing") (Tk.items (rect_canvas self))).

(** The canvas items tagged ["drawing"], with ids, options and tags. *)
Definition drawing_items (self : App) : list Tk.item :=
  filter (Tk.has_tag "drawing") (Tk.items (rect_canvas self)).

(** A successful call of [end_draw] or [end_text_entry] that pushed a
    command: the commit of the specification. *)
Definition commits (s s' : App) : Prop :=
  ((exists event, end_draw event s = Some s') \/ s' = end_text_entry s)
  /\ undo_stack s' <> undo_stack s.

(** The drawing area lies within the captured screen. *)
Definition within_screen (self : App) (area : R * R * R * R) : Prop :=
  let '(x1, y1, x2, y2) := area in
  0 <= x1 /\ 0 <= y1
  /\ x2 <= IZR (screen_width self) /\ y2 <= IZR (screen_height self).

(** [drag_selection]'s clamp of one axis: the delta that keeps [lo, hi]
    inside [0, size]. *)
Definition clamp_delta (lo hi size d : R) : R :=
  if Rltb (lo + d) 0 then - lo
  else if Rltb size (hi + d) then size - hi
  else d.

(** The fixed items of the canvas (selection rectangle, handles, overlay
    panels, dimension readout) are not annotations. *)
Definition ui_ids (self : App) : list nat :=
  selection_rect self :: dimension_text self
  :: resize_handles self ++ overlay_rectangles self.

Definition ui_separate (self : App) : Prop :=
  forall it, In it (Tk.items (rect_canvas self)) ->
             Tk.has_tag "drawing" it = true -> ~ In (Tk.iid it) (ui_ids self).

(** [c'] differs from [c] only in items whose id is in [ids]; ids, tags
    and the display order are the same. *)
Definition agree_outside (ids : list nat) (c c' : Tk.canvas) : Prop :=
  Forall2 (fun it it' =>
             Tk.iid it' = Tk.iid it /\ Tk.itags it' = Tk.itags it
             /\ (~ In (Tk.iid it) ids -> it' = it))
          (Tk.items c) (Tk.items c').

(** The items [c'] has on top of those of [c]. *)
Definition added (c c' : Tk.canvas) : list Tk.item :=
  skipn (List.length (Tk.items c)) (Tk.items c').

(** The canvas ids a command holds as its rendering handle. *)
Definition handle_ids (cmd : Command.t) : list nat :=
  match cmd with
  | Command.Draw d =>
      match DrawCommand.shape_id d with
      | HNone => []
      | HId i => [i]
      | HList l => l
      end
  | Command.Text t =>
      match TextCommand.text_id t with
      | Some i => [i]
      | None => []
      end
  end.

(** The parameters of a command, without its rendering handle. *)
Definition params (cmd : Command.t) : Command.t :=
  match cmd with
  | Command.Draw d => Command.Draw (DrawCommand.with_shape_id d HNone)
  | Command.Text t => Command.Text (TextCommand.with_text_id t None)
  end.

(** The commands the controller builds: [end_draw] runs for the rectangle
    and the arrow tool only. *)
Definition drawable (cmd : Command.t) : Prop :=
  match cmd with
  | Command.Draw d =>
      DrawCommand.tool d = "rectangle" \/ DrawCommand.tool d = "arrow"
  | Command.Text _ => True
  end.

(** A command as its constructor call in [end_draw] or [end_text_entry]
    leaves it, before any [execute]. *)
Definition never_executed (cmd : Command.t) : Prop :=
  match cmd with
  | Command.Draw d => DrawCommand.shape_id d = HNone
  | Command.Text t => TextCommand.text_id t = None
  end.

(** ** Plane geometry of the arrow *)

Definition dist (p q : R * R) : R :=
  sqrt ((fst q - fst p)² + (snd q - snd p)²).

(** [e] is [q] moved back by [k] along the direction from [p] to [q]. *)
Definition shortened_by (k : R) (p q e : R * R) : Prop :=
  dist p q * (fst q - fst e) = k * (fst q - fst p)
  /\ dist p q * (snd q - snd e) = k * (snd q - snd p)
  /\ (fst q - fst e)² + (snd q - snd e)² = k².

(** [a] and [b] are mirror images in the line through [p] and [q]: their
    midpoint is on the line and the segment [a b] is normal to it. *)
Definition symmetric_about (p q a b : R * R) : Prop :=
  ((fst a + fst b) / 2 - fst p) * (snd q - snd p)
  - ((snd a + snd b) / 2 - snd p) * (fst q - fst p) = 0
  /\ (fst b - fst a) * (fst q - fst p) + (snd b - snd a) * (snd q - snd p) = 0.

(** The arrow of the examples: from (0,0) to (100,0), width 2. *)
Definition example_arrow : DrawCommand.t :=
  DrawCommand.mk "arrow" HNone 0 0 100 0 "red" 2.

(** Coordinates relative to an origin: the position of a shape within
    the drawing area on screen, or within the crop in the exported image. *)
Definition relative_to (ox oy : R) (coords : list R) : list R :=
  Tk.shift (- ox) (- oy) coords.

(** ** A session used in the examples *)

(** A black screenshot. *)
Definition blank (w h : Z) : PIL.image :=
  PIL.mkImage w h (fun _ _ => (0, 0, 0, 255)%Z).

(** The pointer at [(x, y)] with button 1 held. *)
Definition click (x y : Z) : Event := mkEvent x y 256.

(** A platform for the examples: two named colours, no TrueType font, and
    rasterisers of lines, polygons and glyphs that are never reached by an
    example that composites rectangles only. *)
Definition palette : PIL.externals :=
  PIL.mkExternals unit
    (fun c => if String.eqb c "red" then (255, 0, 0, 255)%Z
              else if String.eqb c "blue" then (0, 0, 255, 255)%Z
              else (0, 0, 0, 255)%Z)
    (fun _ _ => None) tt
    (fun img _ _ _ => img) (fun img _ _ => img) (fun img _ _ _ _ => img).

(** A 200x200 screen on which (0,0)-(100,100) has been selected. *)
Definition studio : option App :=
  s <- on_button_press (click 0 0) 1
         (initiate_screenshot 200 200 (blank 200 200) init) ;;
  on_button_release (click 100 100) 2 s.

(** ... a rectangle has been drawn from (10,10) to (50,50) ... *)
Definition drawn : option App :=
  s <- studio ;;
  s <- on_press (click 10 10) (set_tool "rectangle" s) ;;
  on_release (click 50 50) s.

(** ... and the drawing area has been dragged by (20,0) with the move
    tool. *)
Definition sketch : option App :=
  s <- drawn ;;
  s <- on_press (click 60 60) (set_tool "move" s) ;;
  on_release (click 80 60) s.

(** ** Vocabulary for the rest of the controller *)

(** The history of edits: the committed commands, oldest first, followed
    by the undone ones in the order a redo brings them back; handles left
    aside. *)
Definition timeline (self : App) : list Command.t :=
  map params (undo_stack self) ++ rev (map params (redo_stack self)).

(** A canvas item moved by [(dx, dy)]. *)
Definition moved (dx dy : R) (it : Tk.item) : Tk.item :=
  Tk.mkItem (Tk.iid it) (Tk.ikind it) (Tk.shift dx dy (Tk.icoords it))
            (Tk.iopts it) (Tk.itags it).

(** The toolbar buttons for the line width, pressed one after the other. *)
Definition adjust_line_thickness_all (deltas : list Z) (self : App) : App :=
  fold_left (fun s delta => adjust_line_thickness delta s) deltas self.

(** The pointer moves with the button held: the motion events in turn. *)
Fixpoint drag_all (moves : list Event) (self : App) : option App :=
  match moves with
  | [] => Some self
  | event :: rest => self <- on_drag event self ;; drag_all rest self
  end.

(** The polls of the hot key in turn, each with the reading of the
    keyboard and the capture as the handlers left it by then: for every
    poll, whether it starts a capture. *)
Fixpoint polls_fire (polls : list (Keyboard * App)) (self : Shell)
    : list bool :=
  match polls with
  | [] => []
  | (keys, a) :: rest =>
      let '(fire, self) := poll_hotkey_state keys (set_app a self) in
      fire :: polls_fire rest self
  end.

(** Key presses in the text editor, in turn; Return unbinds the editor,
    which gets no key after it. *)
Fixpoint type_keys (bbox : nat -> Tk.canvas -> option (R * R * R * R))
    (keys : list (string * string)) (ed : CanvasTextEditor.t)
    (c : Tk.canvas) : option (CanvasTextEditor.t * Tk.canvas) :=
  match keys with
  | [] => Some (ed, c)
  | (keysym, char) :: rest =>
      '(ed, c, returned) <-
        CanvasTextEditor.on_key_press bbox keysym char ed c ;;
      match returned with
      | Some _ => Some (ed, c)
      | None => type_keys bbox rest ed c
      end
  end.

(** The editor [ed], opened on the canvas [c0], has nothing but its text
    and its rectangle on top of the items of [c0]. *)
Definition editing (c0 : Tk.canvas) (ed : CanvasTextEditor.t)
    (c : Tk.canvas) : Prop :=
  CanvasTextEditor.text_id ed = Tk.next_id c0
  /\ CanvasTextEditor.rect_id ed = S (Tk.next_id c0)
  /\ exists new,
       Tk.items c = Tk.items c0 ++ new
       /\ Forall (fun it => Tk.iid it = CanvasTextEditor.text_id ed
                            \/ Tk.iid it = CanvasTextEditor.rect_id ed) new.

(** The value of the [text] option of the item [i], as [itemcget] gives
    it. *)
Definition shown_text (i : nat) (c : Tk.canvas) : option Tk.optval :=
  match find (Tk.is_id i) (Tk.items c) with
  | Some it =>
      option_map snd (find (fun kv => String.eqb (fst kv) "text") (Tk.iopts it))
  | None => None
  end.

(** Font metrics for the examples: every text is 10 pixels wide and
    high. *)
Definition square_metrics (i : nat) (c : Tk.canvas)
    : option (R * R * R * R) :=
  match Tk.coords i c with
  | [x; y] => Some (x, y, x + 10, y + 10)
  | _ => None
  end.



(** The point [(x, y)] is within 5 pixels, on both axes, of [(cx, cy)]:
    it is on the handle centred there. *)
Definition on_handle (cx cy x y : R) : Prop :=
  cx - 5 <= x <= cx + 5 /\ cy - 5 <= y <= cy + 5.

(** The corner of the box [x1, y1, x2, y2] that is opposite to the handle
    [k]; the handles are numbered from the upper left corner, clockwise. *)
Definition anchor (k : nat) (box : R * R * R * R) : R * R :=
  let '(x1, y1, x2, y2) := box in
  match k with
  | 0%nat => (x2, y2)
  | 1%nat => (x1, y2)
  | 2%nat => (x1, y1)
  | _ => (x2, y1)
  end.

(** The rectangle with the opposite corners [p] and [q], lowest first. *)
Definition span (p q : R * R) : R * R * R * R :=
  (Rmin (fst p) (fst q), Rmin (snd p) (snd q),
   Rmax (fst p) (fst q), Rmax (snd p) (snd q)).

(** On which side of the opposite corner the handle [k] lies, per axis. *)
Definition toward (k : nat) : R * R :=
  match k with
  | 0%nat => (-1, -1)
  | 1%nat => (1, -1)
  | 2%nat => (1, 1)
  | _ => (-1, 1)
  end.

(** The pointer [q], dragging the handle [k], is on the handle's side of
    the opposite corner [p] on both axes, or has gone past that corner on
    both axes. *)
Definition on_its_side (k : nat) (p q : R * R) : Prop :=
  0 <= fst (toward k) * (fst q - fst p)
  /\ 0 <= snd (toward k) * (snd q - snd p).

Definition crossed (k : nat) (p q : R * R) : Prop :=
  fst (toward k) * (fst q - fst p) < 0
  /\ snd (toward k) * (snd q - snd p) < 0.

(** The position of the pointer at an event. *)
Definition pointer (event : Event) : R * R :=
  (IZR (ev_x event), IZR (ev_y event)).

(** The ids and tags on the canvas in display order, and the id
    counter. *)
Definition layout (c : Tk.canvas) : list (nat * list string) * nat :=
  (map (fun it => (Tk.iid it, Tk.itags it)) (Tk.items c), Tk.next_id c).

(** The selection gesture after the press: the motion events in turn,
    each with the time at which it is handled. *)
Fixpoint on_move_press_all (moves : list (Event * R)) (self : App)
    : option App :=
  match moves with
  | [] => Some self
  | (event, now) :: rest =>
      self <- on_move_press event now self ;; on_move_press_all rest self
  end.

(** A capture during the selection: on the canvas the image, the
    selection rectangle, the four overlay panels and the dimension
    readout, and nothing committed. *)
Definition selecting (self : App) : Prop :=
  layout (rect_canvas self)
  = ([(1, []); (2, []); (3, ["overlay"]); (4, ["overlay"]); (5, ["overlay"]);
      (6, ["overlay"]); (7, ["dimensions"])], 8)%nat
  /\ selection_rect self = 2%nat
  /\ overlay_rectangles self = [3; 4; 5; 6]%nat
  /\ dimension_text self = 7%nat
  /\ undo_stack self = [] /\ redo_stack self = []
  /\ full_screenshot self <> None.

(** A canvas in order, with respect to the ids [ui] of its fixed items:
    the ids in use are below the counter and used once, no item with an
    id of [ui] is an annotation, and the ids of [ui] are below the
    counter. *)
Definition in_order (ui : list nat) (c : Tk.canvas) : Prop :=
  Tk.wf c
  /\ NoDup (map Tk.iid (Tk.items c))
  /\ (forall it, In it (Tk.items c) -> Tk.has_tag "drawing" it = true ->
                 ~ In (Tk.iid it) ui)
  /\ Forall (fun i => (i < Tk.next_id c)%nat) ui.

(** What the theorems on the drawing mode assume of the controller: its
    canvas in order, four overlay panels, four handles, and the fixed
    items distinct from each other. *)
Definition canvas_in_order (self : App) : Prop :=
  in_order (ui_ids self) (rect_canvas self)
  /\ List.length (overlay_rectangles self) = 4%nat
  /\ List.length (resize_handles self) = 4%nat
  /\ NoDup (ui_ids self).

(** One event of the drawing mode: a pointer event on the canvas or on
    the text box being dragged out, typing in the text field, the field
    losing focus, undo, redo, or a button of the toolbar. *)
Inductive drawing_step (s s' : App) : Prop :=
| step_press (event : Event) (H : on_press event s = Some s')
| step_drag (event : Event) (H : on_drag event s = Some s')
| step_release (event : Event) (H : on_release event s = Some s')
| step_resize_text_box (event : Event) (H : resize_text_box event s = Some s')
| step_finalize_text_box (event : Event)
    (H : finalize_text_box event s = Some s')
| step_type_text (typed : string) (H : s' = type_text typed s)
| step_end_text_entry (H : s' = end_text_entry s)
| step_undo (H : s' = undo s)
| step_redo (H : s' = redo s)
| step_set_tool (tool : string) (H : s' = set_tool tool s)
| step_adjust_line_thickness (delta : Z)
    (H : s' = adjust_line_thickness delta s).

(** The states a session of drawing goes through. *)
Inductive drawing_steps (s : App) : App -> Prop :=
| steps_none : drawing_steps s s
| steps_more (s1 s2 : App) :
    drawing_steps s s1 -> drawing_step s1 s2 -> drawing_steps s s2.

(** The fixed items of [s'] are those of [s]. *)
Definition same_ui (s s' : App) : Prop :=
  selection_rect s' = selection_rect s
  /\ dimension_text s' = dimension_text s
  /\ resize_handles s' = resize_handles s
  /\ overlay_rectangles s' = overlay_rectangles s.

(** * Proofs *)

(** ** Deciding comparisons *)

Lemma Rleb_true (a b : R) : a <= b -> Rleb a b = true.
Proof. intros H. unfold Rleb. destruct (Rle_dec a b); [reflexivity | contradiction]. Qed.

Lemma Rleb_false (a b : R) : b < a -> Rleb a b = false.
Proof. intros H. unfold Rleb. destruct (Rle_dec a b); [lra | reflexivity]. Qed.

Lemma Rltb_true (a b : R) : a < b -> Rltb a b = true.
Proof. intros H. unfold Rltb. destruct (Rlt_dec a b); [reflexivity | contradiction]. Qed.

Lemma Rltb_false (a b : R) : b <= a -> Rltb a b = false.
Proof. intros H. unfold Rltb. destruct (Rlt_dec a b); [lra | reflexivity]. Qed.

Lemma Reqb_true (a b : R) : a = b -> Reqb a b = true.
Proof. intros H. unfold Reqb. destruct (Req_dec_T a b); [reflexivity | contradiction]. Qed.

Lemma Reqb_false (a b : R) : a <> b -> Reqb a b = false.
Proof. intros H. unfold Reqb. destruct (Req_dec_T a b); [contradiction | reflexivity]. Qed.

(** Settles every comparison, minimum, maximum and absolute value of the
    goal whose operands linear arithmetic can order. *)
Ltac Rdecide :=
  repeat match goal with
  | |- context [Rleb ?a ?b] =>
      first [rewrite (Rleb_true a b) by lra | rewrite (Rleb_false a b) by lra]
  | |- context [Rltb ?a ?b] =>
      first [rewrite (Rltb_true a b) by lra | rewrite (Rltb_false a b) by lra]
  | |- context [Reqb ?a ?b] =>
      first [rewrite (Reqb_true a b) by lra | rewrite (Reqb_false a b) by lra]
  | |- context [Rmin ?a ?b] =>
      first [rewrite (Rmin_left a b) by lra | rewrite (Rmin_right a b) by lra]
  | |- context [Rmax ?a ?b] =>
      first [rewrite (Rmax_right a b) by lra | rewrite (Rmax_left a b) by lra]
  | |- context [Rabs ?a] =>
      first [rewrite (Rabs_pos_eq a) by lra | rewrite (Rabs_left1 a) by lra]
  end.

(** ** Lists used as stacks *)

Lemma pop_app {A : Type} (l : list A) (a : A) : pop (l ++ [a]) = Some (l, a).
Proof.
  induction l as [| b l IH]; simpl.
  - reflexivity.
  - rewrite IH. reflexivity.
Qed.

(** ** Redo after a commit (C2) *)

Lemma redo_empty (s : App) : redo_stack s = [] -> redo s = s.
Proof. intros H. unfold redo. rewrite H. reflexivity. Qed.

Lemma end_draw_stacks (event : Event) (s s' : App) :
  end_draw event s = Some s' ->
  s' = s \/ (redo_stack s' = []
             /\ exists d, undo_stack s' = undo_stack s ++ [Command.Draw d]).
Proof.
  unfold end_draw. intros H.
  destruct (start_x s) as [sx |]; [| left; congruence].
  destruct (point_in_drawing_area (ev_x event) (ev_y event) s) as [[|] |];
    cbn in H; [| left; congruence | discriminate].
  destruct (drawing_area s) as [[[[x1 y1] x2] y2] |]; cbn in H; [| discriminate].
  destruct (start_y s) as [sy |]; cbn in H; [| discriminate].
  destruct (DrawCommand.execute _ _) as [command c].
  destruct (DrawCommand.shape_id command); cbn in H; try discriminate;
    inversion H; subst; right; cbn; (split; [reflexivity | eexists; reflexivity]).
Qed.

Lemma end_text_entry_stacks (s : App) :
  undo_stack (end_text_entry s) = undo_stack s
  \/ (redo_stack (end_text_entry s) = []
      /\ exists t, undo_stack (end_text_entry s) = undo_stack s ++ [Command.Text t]).
Proof.
  unfold end_text_entry.
  destruct (text_entry s) as [entry |]; [| left; reflexivity].
  destruct (String.eqb (te_content entry) ""); cbn.
  - left. reflexivity.
  - right. split; [reflexivity | eexists; reflexivity].
Qed.

(** C2. Whenever a command is committed — by [end_draw] or by
    [end_text_entry], from any state, in particular from the state an
    [undo] leaves — the redo stack is empty afterwards and [redo] changes
    nothing: neither stack, nor the canvas, nor any other field. *)
Theorem commit_clears_redo_stack (s s' : App) :
  commits s s' -> redo_stack s' = [] /\ redo s' = s'.
Proof.
  intros [Hstep Hpush].
  assert (Hempty : redo_stack s' = []).
  { destruct Hstep as [[event Hdraw] | Htext].
    - destruct (end_draw_stacks _ _ _ Hdraw) as [-> | [H _]];
        [contradiction | exact H].
    - subst s'. destruct (end_text_entry_stacks s) as [H | [H _]];
        [contradiction | exact H]. }
  split; [exact Hempty | apply redo_empty; exact Hempty].
Qed.

(** ** A text field that loses focus (C9) *)

(** C9. When the text field loses focus with nothing typed, no command is
    committed: both stacks and the annotations on the canvas are as
    before.  A [TextCommand] is pushed exactly when the final text is not
    empty, and then it carries that text. *)
Theorem empty_text_is_discarded (s : App) (entry : TextEntry) :
  text_entry s = Some entry ->
  (te_content entry = "" ->
     undo_stack (end_text_entry s) = undo_stack s
     /\ redo_stack (end_text_entry s) = redo_stack s
     /\ Tk.items (rect_canvas (end_text_entry s))
        = Tk.items (Tk.delete_withtag "text_box" (rect_canvas s)))
  /\ (te_content entry <> "" ->
        exists t, undo_stack (end_text_entry s) = undo_stack s ++ [Command.Text t]
                  /\ TextCommand.text t = te_content entry)
  /\ (undo_stack (end_text_entry s) <> undo_stack s -> te_content entry <> "").
Proof.
  intros Hentry. unfold end_text_entry. rewrite Hentry.
  destruct (String.eqb_spec (te_content entry) "") as [Hempty | Hfull]; cbn.
  - repeat split; try reflexivity; intros H; contradiction.
  - split; [intros H; contradiction |].
    split; [| intros _; exact Hfull].
    intros _. eexists. split; reflexivity.
Qed.

(** ** Dragging the drawing area (C7) *)

Lemma clamp_delta_bounds (lo hi size d : R) :
  0 <= lo -> hi <= size ->
  0 <= lo + clamp_delta lo hi size d /\ hi + clamp_delta lo hi size d <= size.
Proof.
  intros Hlo Hhi. unfold clamp_delta, Rltb.
  destruct (Rlt_dec (lo + d) 0); [lra |].
  destruct (Rlt_dec size (hi + d)); lra.
Qed.

Lemma update_overlay_some (x1 y1 x2 y2 : R) (s : App) :
  List.length (overlay_rectangles s) = 4%nat ->
  exists c, update_overlay x1 y1 x2 y2 s = Some (set_rect_canvas c s).
Proof.
  intros H. unfold update_overlay.
  destruct (overlay_rectangles s) as [| o0 [| o1 [| o2 [| o3 [| o4 rest]]]]];
    try discriminate.
  cbn. eexists. reflexivity.
Qed.

(** C7. A drag of a drawing area that lies within the screen returns, and
    the drawing area it leaves lies within the screen: [x1 >= 0], [y1 >= 0],
    [x2 <= screen_width], [y2 <= screen_height].  While dragging, each axis
    moves by its own clamped delta. *)
Theorem drag_keeps_area_on_screen (s : App) (x y dsx dsy : Z)
    (x1 y1 x2 y2 : R) :
  drag_start_x s = Some dsx ->
  drag_start_y s = Some dsy ->
  drawing_area s = Some (x1, y1, x2, y2) ->
  within_screen s (x1, y1, x2, y2) ->
  List.length (overlay_rectangles s) = 4%nat ->
  exists s' area,
    drag_selection x y s = Some s'
    /\ drawing_area s' = Some area
    /\ within_screen s' area
    /\ (dragging s = true ->
        let dx := clamp_delta x1 x2 (IZR (screen_width s)) (IZR (x - dsx)) in
        let dy := clamp_delta y1 y2 (IZR (screen_height s)) (IZR (y - dsy)) in
        area = (x1 + dx, y1 + dy, x2 + dx, y2 + dy)).
Proof.
  intros Hsx Hsy Harea (Hx1 & Hy1 & Hx2 & Hy2) Hov.
  unfold drag_selection. destruct (dragging s) eqn:Hdrag; cbn.
  - rewrite Hsx, Hsy, Harea. cbn.
    fold (clamp_delta x1 x2 (IZR (screen_width s)) (IZR (x - dsx))).
    fold (clamp_delta y1 y2 (IZR (screen_height s)) (IZR (y - dsy))).
    set (dx := clamp_delta x1 x2 _ _). set (dy := clamp_delta y1 y2 _ _).
    match goal with
    | |- context [update_overlay ?a ?b ?c ?d ?t] =>
        destruct (update_overlay_some a b c d t) as [c' Hc']; [exact Hov |];
        rewrite Hc'
    end.
    cbn. eexists. eexists. split; [reflexivity |]. cbn.
    split; [reflexivity |]. split; [| intros _; reflexivity].
    destruct (clamp_delta_bounds x1 x2 (IZR (screen_width s)) (IZR (x - dsx)) Hx1 Hx2).
    destruct (clamp_delta_bounds y1 y2 (IZR (screen_height s)) (IZR (y - dsy)) Hy1 Hy2).
    fold dx in H, H0. fold dy in H1, H2. repeat split; assumption.
  - exists s, (x1, y1, x2, y2). split; [reflexivity |]. split; [exact Harea |].
    split; [| intros H; discriminate]. repeat split; assumption.
Qed.

(** ** Resizing the drawing area (C10) *)

Lemma agree_outside_refl (ids : list nat) (c : Tk.canvas) : agree_outside ids c c.
Proof.
  unfold agree_outside. induction (Tk.items c); constructor; auto.
Qed.

Lemma agree_outside_trans (ids : list nat) (c1 c2 c3 : Tk.canvas) :
  agree_outside ids c1 c2 -> agree_outside ids c2 c3 -> agree_outside ids c1 c3.
Proof.
  unfold agree_outside. generalize (Tk.items c1) (Tk.items c2) (Tk.items c3).
  intros l1 l2 l3 H12. revert l3.
  induction H12 as [| a b l1 l2 (Hid & Htag & Hsame) _ IH]; intros l3 H23;
    inversion H23 as [| b' c' l2' l3' (Hid' & Htag' & Hsame') Hrest]; subst;
    constructor.
  - split; [congruence |]. split; [congruence |].
    intros Hout. rewrite Hsame', (Hsame Hout); [reflexivity |].
    rewrite Hid. exact Hout.
  - apply IH. exact Hrest.
Qed.

Lemma update_agree_outside (ids : list nat) (i : nat) (f : Tk.item -> Tk.item)
    (c : Tk.canvas) :
  In i ids ->
  (forall it, Tk.iid (f it) = Tk.iid it /\ Tk.itags (f it) = Tk.itags it) ->
  agree_outside ids c (Tk.update i f c).
Proof.
  intros Hin Hf. unfold agree_outside, Tk.update. cbn.
  induction (Tk.items c) as [| it l IH]; cbn; constructor; [| exact IH].
  unfold Tk.is_id. destruct (Nat.eqb_spec (Tk.iid it) i) as [Heq | Hne].
  - destruct (Hf it) as [Hid Htag]. split; [exact Hid |]. split; [exact Htag |].
    intros Hout. rewrite Heq in Hout. contradiction.
  - auto.
Qed.

Lemma set_coords_agree (ids : list nat) (i : nat) (cs : list R) (c : Tk.canvas) :
  In i ids -> agree_outside ids c (Tk.set_coords i cs c).
Proof. intros H. apply update_agree_outside; [exact H | intros it; split; reflexivity]. Qed.

Lemma itemconfig_agree (ids : list nat) (i : nat) (kvs : list (string * Tk.optval))
    (c : Tk.canvas) :
  In i ids -> agree_outside ids c (Tk.itemconfig i kvs c).
Proof. intros H. apply update_agree_outside; [exact H | intros it; split; reflexivity]. Qed.

Lemma fold_agree {A : Type} (ids : list nat) (step : Tk.canvas -> A -> Tk.canvas)
    (P : A -> Prop) (l : list A) (c : Tk.canvas) :
  (forall c a, P a -> agree_outside ids c (step c a)) ->
  Forall P l -> agree_outside ids c (fold_left step l c).
Proof.
  intros Hstep Hl. revert c.
  induction Hl as [| a l Ha _ IH]; intros c; cbn.
  - apply agree_outside_refl.
  - eapply agree_outside_trans; [apply Hstep; exact Ha | apply IH].
Qed.

Lemma agree_outside_drawing (ids : list nat) (c c' : Tk.canvas) :
  agree_outside ids c c' ->
  (forall it, In it (Tk.items c) -> Tk.has_tag "drawing" it = true ->
              ~ In (Tk.iid it) ids) ->
  filter (Tk.has_tag "drawing") (Tk.items c')
  = filter (Tk.has_tag "drawing") (Tk.items c).
Proof.
  unfold agree_outside. generalize (Tk.items c) (Tk.items c').
  intros l l' H. induction H as [| it it' l l' (Hid & Htag & Hsame) _ IH];
    intros Hsep; [reflexivity |].
  cbn. assert (Htags : Tk.has_tag "drawing" it' = Tk.has_tag "drawing" it).
  { unfold Tk.has_tag. rewrite Htag. reflexivity. }
  rewrite Htags. rewrite IH by (intros j Hj; apply Hsep; right; exact Hj).
  destruct (Tk.has_tag "drawing" it) eqn:Hd; [| reflexivity].
  rewrite (Hsame (Hsep it (or_introl eq_refl) Hd)). reflexivity.
Qed.

Lemma update_resize_handles_agree (x1 y1 x2 y2 : R) (s : App) :
  agree_outside (ui_ids s) (rect_canvas s)
    (rect_canvas (update_resize_handles x1 y1 x2 y2 s)).
Proof.
  unfold update_resize_handles. cbn.
  apply (fold_agree (ui_ids s) _ (fun hc => In (fst hc) (resize_handles s))).
  - intros c [handle [x y]] Hin. cbn in Hin. apply set_coords_agree.
    unfold ui_ids. right. right. apply in_or_app. left. exact Hin.
  - apply Forall_forall. intros [handle xy] Hin. cbn.
    eapply in_combine_l. exact Hin.
Qed.

Lemma update_overlay_agree (x1 y1 x2 y2 : R) (s s' : App) :
  update_overlay x1 y1 x2 y2 s = Some s' ->
  agree_outside (ui_ids s) (rect_canvas s) (rect_canvas s')
  /\ s' = set_rect_canvas (rect_canvas s') s.
Proof.
  unfold update_overlay. intros H.
  destruct (nth_error (overlay_rectangles s) 0) as [o0 |] eqn:E0; [| discriminate].
  destruct (nth_error (overlay_rectangles s) 1) as [o1 |] eqn:E1; [| discriminate].
  destruct (nth_error (overlay_rectangles s) 2) as [o2 |] eqn:E2; [| discriminate].
  destruct (nth_error (overlay_rectangles s) 3) as [o3 |] eqn:E3; [| discriminate].
  cbn in H. inversion H; subst s'; clear H. split; [| reflexivity].
  assert (Hov : forall o, In o (overlay_rectangles s) -> In o (ui_ids s)).
  { intros o Ho. unfold ui_ids. right. right. apply in_or_app. right. exact Ho. }
  apply nth_error_In in E0, E1, E2, E3.
  cbn [rect_canvas set_rect_canvas].
  eapply agree_outside_trans; [| apply itemconfig_agree; right; left; reflexivity].
  eapply agree_outside_trans; [| apply set_coords_agree; right; left; reflexivity].
  eapply agree_outside_trans;
    [| apply (fold_agree (ui_ids s) _ (fun o => In o (overlay_rectangles s)));
       [intros c o Ho; apply itemconfig_agree; auto
       | apply Forall_forall; auto]].
  eapply agree_outside_trans; [| apply set_coords_agree; auto].
  eapply agree_outside_trans; [| apply set_coords_agree; auto].
  eapply agree_outside_trans; [| apply set_coords_agree; auto].
  apply set_coords_agree; auto.
Qed.

(** C10. A resize returns, and it leaves both stacks and every
    annotation on the canvas (id, coordinates, options, tags, display
    order) as they were: of the controller only the drawing area and the
    canvas change, and on the canvas only the selection rectangle, the
    handles, the overlay panels and the dimension readout. *)
Theorem resize_leaves_shapes_alone (s : App) (x y : Z) :
  ui_separate s ->
  List.length (overlay_rectangles s) = 4%nat ->
  List.length (Tk.coords (selection_rect s) (rect_canvas s)) = 4%nat ->
  exists s',
    resize_selection x y s = Some s'
    /\ undo_stack s' = undo_stack s
    /\ redo_stack s' = redo_stack s
    /\ drawing_items s' = drawing_items s
    /\ agree_outside (ui_ids s) (rect_canvas s) (rect_canvas s')
    /\ s' = set_rect_canvas (rect_canvas s')
               (set_drawing_area (drawing_area s') s).
Proof.
  intros Hsep Hov Hsel. unfold resize_selection.
  destruct (Tk.coords (selection_rect s) (rect_canvas s))
    as [| a [| b [| c [| d [| e rest]]]]]; try discriminate.
  set (corner := match resizing s with
                 | Some 0%nat => _ | Some 1%nat => _ | Some 2%nat => _
                 | Some 3%nat => _ | _ => _ end).
  destruct corner as [[[x1 y1] x2] y2]. cbn [bind].
  set (s1 := set_rect_canvas _ s).
  set (s2 := update_resize_handles _ _ _ _ s1).
  destruct (update_overlay_some (Rmin x1 x2) (Rmin y1 y2) (Rmax x1 x2) (Rmax y1 y2) s2)
    as [c3 Hc3]; [exact Hov |].
  rewrite Hc3. cbn [bind]. eexists. split; [reflexivity |].
  assert (Hagree : agree_outside (ui_ids s) (rect_canvas s)
            (Tk.set_coords (dimension_text s)
               [(Rmin x1 x2 + Rmax x1 x2) / 2; (Rmin y1 y2 + Rmax y1 y2) / 2]
               (Tk.itemconfig (dimension_text s)
                  [("text", Tk.VDim (Rabs (Rmax x1 x2 - Rmin x1 x2))
                                    (Rabs (Rmax y1 y2 - Rmin y1 y2)));
                   ("state", Tk.VStr "normal")] c3))).
  { eapply agree_outside_trans; [| apply set_coords_agree; right; left; reflexivity].
    eapply agree_outside_trans; [| apply itemconfig_agree; right; left; reflexivity].
    destruct (update_overlay_agree _ _ _ _ _ _ Hc3) as [H3 _].
    cbn [rect_canvas set_rect_canvas] in H3.
    eapply agree_outside_trans; [| exact H3].
    eapply agree_outside_trans; [| apply (update_resize_handles_agree _ _ _ _ s1)].
    apply set_coords_agree. left. reflexivity. }
  split; [reflexivity |]. split; [reflexivity |].
  split; [| split; [exact Hagree | reflexivity]].
  unfold drawing_items. apply (agree_outside_drawing (ui_ids s)); [| exact Hsep].
  exact Hagree.
Qed.

(** ** Executing and undoing one command (C6) *)

Lemma skipn_all_app {A : Type} (l l' : list A) :
  skipn (List.length l) (l ++ l') = l'.
Proof. induction l as [| a l IH]; [reflexivity | exact IH]. Qed.

Lemma filter_keeps_below (n : nat) (l : list Tk.item) :
  Forall (fun it => (Tk.iid it < n)%nat) l ->
  filter (fun it => negb (Tk.is_id n it)) l = l.
Proof.
  induction 1 as [| it l Hit _ IH]; [reflexivity |].
  cbn. unfold Tk.is_id at 1.
  destruct (Nat.eqb_spec (Tk.iid it) n) as [Heq | _]; [lia |].
  cbn. rewrite IH. reflexivity.
Qed.

Lemma filter_none_below (n : nat) (l : list Tk.item) :
  Forall (fun it => (Tk.iid it < n)%nat) l -> filter (Tk.is_id n) l = [].
Proof.
  induction 1 as [| it l Hit _ IH]; [reflexivity |].
  cbn. unfold Tk.is_id at 1.
  destruct (Nat.eqb_spec (Tk.iid it) n) as [Heq | _]; [lia | exact IH].
Qed.

Lemma Forall_below_S (n : nat) (l : list Tk.item) :
  Forall (fun it => (Tk.iid it < n)%nat) l ->
  Forall (fun it => (Tk.iid it < S n)%nat) l.
Proof. apply Forall_impl. intros it H. lia. Qed.

Lemma wf_push (c : Tk.canvas) (it : Tk.item) :
  Tk.wf c -> Tk.iid it = Tk.next_id c ->
  Tk.wf (Tk.mkCanvas (Tk.items c ++ [it]) (S (Tk.next_id c))).
Proof.
  intros [Hpos Hall] Hid. split; cbn; [lia |].
  apply Forall_app. split; [apply Forall_below_S; exact Hall |].
  constructor; [lia | constructor].
Qed.

Lemma fold_delete_items (ids : list nat) (c : Tk.canvas) :
  Tk.items (fold_left (fun c i => Tk.delete i c) ids c)
  = filter (fun it => negb (existsb (fun i => Tk.is_id i it) ids)) (Tk.items c).
Proof.
  revert c. induction ids as [| i ids IH]; intros c; cbn.
  - induction (Tk.items c) as [| it l IHl]; [reflexivity |].
    cbn. rewrite <- IHl. reflexivity.
  - rewrite IH. cbn. induction (Tk.items c) as [| it l IHl]; [reflexivity |].
    cbn. destruct (Tk.is_id i it); cbn; [exact IHl |].
    destruct (existsb _ ids); cbn; [exact IHl | rewrite IHl; reflexivity].
Qed.

(** Deleting the ids of the items on top, all of them new, gives the
    display list below them back. *)
Lemma delete_all_added (n m : nat) (l new : list Tk.item) :
  Forall (fun it => (Tk.iid it < n)%nat) l ->
  Forall (fun it => (n <= Tk.iid it)%nat) new ->
  Tk.items (fold_left (fun c i => Tk.delete i c) (map Tk.iid new)
              (Tk.mkCanvas (l ++ new) m)) = l.
Proof.
  intros Hold Hnew. rewrite fold_delete_items. cbn. rewrite filter_app.
  assert (Hkeep : filter (fun it => negb (existsb (fun i => Tk.is_id i it)
                                            (map Tk.iid new))) l = l).
  { clear - Hold Hnew. induction Hold as [| it l Hit _ IH]; [reflexivity |].
    cbn. rewrite IH.
    replace (existsb (fun i => Tk.is_id i it) (map Tk.iid new)) with false;
      [reflexivity |].
    symmetry. apply not_true_is_false. intros H.
    apply existsb_exists in H. destruct H as (i & Hi & Heq).
    apply in_map_iff in Hi. destruct Hi as (it' & <- & Hin).
    rewrite Forall_forall in Hnew. specialize (Hnew it' Hin).
    unfold Tk.is_id in Heq. apply Nat.eqb_eq in Heq. lia. }
  assert (Hdrop : filter (fun it => negb (existsb (fun i => Tk.is_id i it)
                                            (map Tk.iid new))) new = []).
  { assert (Hgen : forall ids, (forall it, In it new -> In (Tk.iid it) ids) ->
              filter (fun it => negb (existsb (fun i => Tk.is_id i it) ids)) new = []).
    { clear. induction new as [| it new IH]; intros ids H; [reflexivity |].
      cbn. replace (existsb (fun i => Tk.is_id i it) ids) with true.
      - cbn. apply IH. intros j Hj. apply H. right. exact Hj.
      - symmetry. apply existsb_exists. exists (Tk.iid it).
        split; [apply H; left; reflexivity | apply Nat.eqb_refl]. }
    apply Hgen. intros it Hin. apply in_map. exact Hin. }
  rewrite Hkeep, Hdrop. apply app_nil_r.
Qed.

Lemma raise_new_item (n : nat) (l : list Tk.item) (a : Tk.item) :
  Forall (fun it => (Tk.iid it < n)%nat) l -> Tk.iid a = n ->
  filter (fun it => negb (Tk.is_id n it)) (l ++ [a]) ++ filter (Tk.is_id n) (l ++ [a])
  = l ++ [a].
Proof.
  intros Hall Ha.
  rewrite !filter_app, (filter_keeps_below _ _ Hall), (filter_none_below _ _ Hall).
  cbn. unfold Tk.is_id. rewrite Ha, Nat.eqb_refl. cbn.
  rewrite app_nil_r. reflexivity.
Qed.

(** [execute] puts its items on top of the display list, with fresh ids,
    and keeps them as the handle. *)
Lemma execute_adds (cmd : Command.t) (c : Tk.canvas) :
  drawable cmd -> Tk.wf c ->
  let r := Command.execute cmd c in
  exists new,
    new <> []
    /\ Tk.items (snd r) = Tk.items c ++ new
    /\ handle_ids (fst r) = map Tk.iid new
    /\ Forall (fun it => (Tk.next_id c <= Tk.iid it)%nat) new
    /\ Tk.wf (snd r)
    /\ params (fst r) = params cmd.
Proof.
  intros Htool Hwf. destruct cmd as [d | t]; cbn in Htool |- *.
  - unfold DrawCommand.execute.
    destruct (String.eqb_spec (DrawCommand.tool d) "rectangle") as [Hrect | Hnrect].
    + cbn. eexists. split; [| split; [reflexivity |]]; [discriminate |].
      split; [reflexivity |]. split; [repeat constructor; cbn; lia |].
      split; [apply wf_push; [exact Hwf | reflexivity] | reflexivity].
    + destruct Htool as [Hrect | Harrow]; [contradiction |].
      destruct (String.eqb_spec (DrawCommand.tool d) "arrow") as [_ | Hn];
        [| contradiction].
      cbn. eexists. split; [| split; [rewrite <- app_assoc; reflexivity |]];
        [discriminate |].
      split; [reflexivity |]. split; [repeat constructor; cbn; lia |].
      split; [| reflexivity].
      destruct Hwf as [Hpos Hall]. split; cbn; [lia |].
      apply Forall_app. split; [| repeat constructor; cbn; lia].
      apply Forall_app. split; [| repeat constructor; cbn; lia].
      eapply Forall_impl; [| exact Hall]. cbn. intros it Hit. lia.
  - unfold TextCommand.execute, Tk.tag_raise. cbn.
    destruct Hwf as [Hpos Hall].
    rewrite raise_new_item by (try exact Hall; reflexivity).
    eexists. split; [| split; [reflexivity |]]; [discriminate |].
    split; [reflexivity |]. split; [repeat constructor; cbn; lia |].
    split; [| reflexivity].
    split; cbn; [lia |].
    apply Forall_app. split; [| repeat constructor; cbn; lia].
    eapply Forall_impl; [| exact Hall]. cbn. intros it Hit. lia.
Qed.

(** [undo] deletes the items the handle names, and nothing else. *)
Lemma undo_deletes_handle (cmd : Command.t) (c : Tk.canvas) :
  ~ In 0%nat (handle_ids cmd) ->
  Tk.items (snd (Command.undo cmd c))
  = Tk.items (fold_left (fun c i => Tk.delete i c) (handle_ids cmd) c).
Proof.
  intros Hpos. destruct cmd as [d | t]; cbn in *.
  - unfold DrawCommand.undo. destruct (DrawCommand.shape_id d); reflexivity.
  - unfold TextCommand.undo. destruct (TextCommand.text_id t) as [[| n] |];
      cbn in *; [tauto | reflexivity | reflexivity].
Qed.

(** What [execute] draws depends on the parameters of the command alone:
    not on the canvas, and not on an earlier handle. *)
Lemma execute_same_visual (cmd cmd' : Command.t) (c c' : Tk.canvas) :
  params cmd' = params cmd -> Tk.wf c -> Tk.wf c' ->
  map Tk.visual (added c' (snd (Command.execute cmd' c')))
  = map Tk.visual (added c (snd (Command.execute cmd c))).
Proof.
  intros Hsame Hwf Hwf'. unfold added.
  destruct cmd as [d | t], cmd' as [d' | t']; cbn in Hsame; try discriminate.
  - injection Hsame as Ht Hx1 Hy1 Hx2 Hy2 Hc Hth. cbn.
    unfold DrawCommand.execute. rewrite Ht.
    destruct (String.eqb (DrawCommand.tool d) "rectangle").
    + cbn. rewrite !skipn_all_app. cbn. unfold Tk.visual. cbn.
      rewrite Hx1, Hy1, Hx2, Hy2, Hc, Hth. reflexivity.
    + destruct (String.eqb (DrawCommand.tool d) "arrow").
      * cbn. rewrite <- !app_assoc, !skipn_all_app. cbn. unfold Tk.visual. cbn.
        rewrite Hx1, Hy1, Hx2, Hy2, Hc, Hth. reflexivity.
      * cbn. rewrite !skipn_all. reflexivity.
  - injection Hsame as Htx Hx Hy Hc Hf Hw Hh.
    destruct Hwf as [_ Hall], Hwf' as [_ Hall'].
    cbn. unfold TextCommand.execute, Tk.tag_raise. cbn.
    rewrite !raise_new_item by (try exact Hall; try exact Hall'; reflexivity).
    rewrite !skipn_all_app. unfold Tk.visual. cbn.
    rewrite Htx, Hx, Hy, Hc, Hf, Hw. reflexivity.
Qed.

(** C6. For a command of the rectangle, arrow or text tool on a canvas:
    [execute] draws its shape on top and keeps exactly the new items as
    its handle; a second [execute] draws a shape that looks the same (kind,
    coordinates, options, tags), so that the canvas shows the same shapes
    as after the first, and replaces the handle by the ids of that second
    rendering; [undo] after either call removes exactly the items the
    latest [execute] added; and [undo] of a command that was never
    executed changes neither the command nor the canvas. *)
Theorem execute_then_undo (cmd : Command.t) (c : Tk.canvas) :
  drawable cmd -> Tk.wf c ->
  let r1 := Command.execute cmd c in
  let r2 := Command.execute (fst r1) (snd r1) in
  (Tk.items (snd r1) = Tk.items c ++ added c (snd r1)
   /\ added c (snd r1) <> []
   /\ handle_ids (fst r1) = map Tk.iid (added c (snd r1)))
  /\ (Tk.items (snd r2) = Tk.items (snd r1) ++ added (snd r1) (snd r2)
      /\ map Tk.visual (added (snd r1) (snd r2))
         = map Tk.visual (added c (snd r1))
      /\ handle_ids (fst r2) = map Tk.iid (added (snd r1) (snd r2))
      /\ forall v, In v (map Tk.visual (Tk.items (snd r2)))
                    <-> In v (map Tk.visual (Tk.items (snd r1))))
  /\ Tk.items (snd (Command.undo (fst r1) (snd r1))) = Tk.items c
  /\ Tk.items (snd (Command.undo (fst r2) (snd r2))) = Tk.items (snd r1)
  /\ (never_executed cmd -> Command.undo cmd c = (cmd, c)).
Proof.
  intros Htool Hwf r1 r2.
  destruct (execute_adds cmd c Htool Hwf)
    as (new1 & Hne1 & Hitems1 & Hids1 & Hfresh1 & Hwf1 & Hpar1).
  fold r1 in Hitems1, Hids1, Hwf1, Hpar1.
  assert (Htool1 : drawable (fst r1)).
  { destruct cmd as [d | t], (fst r1) as [d1 | t1]; cbn in *; try discriminate;
      [| exact I].
    injection Hpar1 as Ht _. rewrite Ht. exact Htool. }
  destruct (execute_adds (fst r1) (snd r1) Htool1 Hwf1)
    as (new2 & Hne2 & Hitems2 & Hids2 & Hfresh2 & Hwf2 & Hpar2).
  fold r2 in Hitems2, Hids2, Hwf2, Hpar2.
  assert (Hadd1 : added c (snd r1) = new1)
    by (unfold added; rewrite Hitems1; apply skipn_all_app).
  assert (Hadd2 : added (snd r1) (snd r2) = new2)
    by (unfold added; rewrite Hitems2; apply skipn_all_app).
  assert (Hundo : forall cmd' c0 c' new,
             Tk.wf c0 -> Tk.items c' = Tk.items c0 ++ new ->
             handle_ids cmd' = map Tk.iid new ->
             Forall (fun it => (Tk.next_id c0 <= Tk.iid it)%nat) new ->
             Tk.items (snd (Command.undo cmd' c')) = Tk.items c0).
  { intros cmd' c0 c' new [Hpos Hall] Hitems Hids Hfresh.
    rewrite undo_deletes_handle.
    - rewrite Hids. destruct c' as [its m]. cbn in Hitems. subst its.
      apply (delete_all_added (Tk.next_id c0)); assumption.
    - rewrite Hids. intros Hin. apply in_map_iff in Hin.
      destruct Hin as (it & Hzero & Hin).
      rewrite Forall_forall in Hfresh. specialize (Hfresh it Hin). lia. }
  rewrite Hadd1, Hadd2.
  split; [repeat split; assumption |].
  split.
  { assert (Hvis : map Tk.visual new2 = map Tk.visual new1)
      by (rewrite <- Hadd1, <- Hadd2; apply execute_same_visual; assumption).
    split; [exact Hitems2 |]. split; [exact Hvis |]. split; [exact Hids2 |].
    intros v. rewrite Hitems2, Hitems1, !map_app, Hvis, !in_app_iff. tauto. }
  split; [apply (Hundo _ c _ new1); assumption |].
  split; [apply (Hundo _ (snd r1) _ new2); assumption |].
  intros Hnever. destruct cmd as [d | t]; cbn in Hnever |- *.
  - unfold DrawCommand.undo. rewrite Hnever. reflexivity.
  - unfold TextCommand.undo. rewrite Hnever. reflexivity.
Qed.

(** ** Arrow geometry (C5) *)

Lemma dist_factor (dx dy : R) :
  dx <> 0 -> sqrt (dx² + dy²) = Rabs dx * sqrt (1 + (dy / dx)²).
Proof.
  intros Hdx. rewrite <- sqrt_Rsqr_abs, <- sqrt_mult.
  - f_equal. unfold Rsqr. field. exact Hdx.
  - apply Rle_0_sqr.
  - pose proof (Rle_0_sqr (dy / dx)). lra.
Qed.

Lemma sqrt_one_plus_sqr_pos (t : R) : 0 < sqrt (1 + t²).
Proof. apply sqrt_lt_R0. pose proof (Rle_0_sqr t). lra. Qed.

(** [atan2 dy dx] is the angle of the vector [(dx, dy)]: its cosine and
    sine are the components of the unit vector along [(dx, dy)]. *)
Lemma atan2_direction (dx dy : R) :
  sqrt (dx² + dy²) * cos (math.atan2 dy dx) = dx
  /\ sqrt (dx² + dy²) * sin (math.atan2 dy dx) = dy.
Proof.
  unfold math.atan2.
  destruct (Rlt_dec 0 dx) as [Hpos | Hnpos].
  - rewrite dist_factor by lra. rewrite Rabs_pos_eq by lra.
    rewrite cos_atan, sin_atan.
    pose proof (sqrt_one_plus_sqr_pos (dy / dx)) as Hs.
    split; field; lra.
  - destruct (Rlt_dec dx 0) as [Hneg | Hnneg].
    + rewrite dist_factor by lra. rewrite Rabs_left by lra.
      pose proof (sqrt_one_plus_sqr_pos (dy / dx)) as Hs.
      destruct (Rle_dec 0 dy) as [Hy | Hy].
      * rewrite neg_cos, neg_sin, cos_atan, sin_atan. split; field; lra.
      * rewrite cos_minus, sin_minus, cos_PI, sin_PI, cos_atan, sin_atan.
        split; field; lra.
    + assert (Hzero : dx = 0) by lra. subst dx.
      replace (0² + dy²) with (dy²) by (unfold Rsqr; ring).
      rewrite sqrt_Rsqr_abs.
      destruct (Rlt_dec 0 dy) as [Hy | Hy].
      * rewrite cos_PI2, sin_PI2, Rabs_pos_eq by lra. lra.
      * destruct (Rlt_dec dy 0) as [Hy' | Hy'].
        -- rewrite cos_neg, sin_neg, cos_PI2, sin_PI2, Rabs_left by lra. lra.
        -- assert (Hz : dy = 0) by lra. subst dy.
           rewrite Rabs_R0, cos_0, sin_0. lra.
Qed.

Lemma cos2_sin2 (a : R) : (cos a)² + (sin a)² = 1.
Proof. rewrite Rplus_comm. apply sin2_cos2. Qed.

Lemma atan2_on_axis (x : R) : 0 < x -> math.atan2 0 x = 0.
Proof.
  intros H. unfold math.atan2. destruct (Rlt_dec 0 x); [| contradiction].
  replace (0 / x) with 0 by (field; lra). apply atan_0.
Qed.

(** The head drawn by [DrawCommand.execute]: two corners at distance [H]
    from the tip, at 30 degrees on either side of the shaft. *)
Lemma committed_head_algebra (x1 y1 x2 y2 d c0 s0 cp sp H : R) :
  d * c0 = x2 - x1 -> d * s0 = y2 - y1 ->
  c0² + s0² = 1 -> cp² + sp² = 1 ->
  let a := (x2 - H * (c0 * cp + s0 * sp), y2 - H * (s0 * cp - c0 * sp)) in
  let b := (x2 - H * (c0 * cp - s0 * sp), y2 - H * (s0 * cp + c0 * sp)) in
  (fst a - x2)² + (snd a - y2)² = H²
  /\ (fst b - x2)² + (snd b - y2)² = H²
  /\ symmetric_about (x1, y1) (x2, y2) a b.
Proof.
  intros Hx Hy Hunit Hunit6. cbn. unfold symmetric_about, Rsqr in *. cbn.
  rewrite <- Hx, <- Hy.
  repeat split.
  - replace ((x2 - H * (c0 * cp + s0 * sp) - x2) * (x2 - H * (c0 * cp + s0 * sp) - x2)
             + (y2 - H * (s0 * cp - c0 * sp) - y2) * (y2 - H * (s0 * cp - c0 * sp) - y2))
      with (H * H * ((c0 * c0 + s0 * s0) * (cp * cp + sp * sp))) by ring.
    rewrite Hunit, Hunit6. ring.
  - replace ((x2 - H * (c0 * cp - s0 * sp) - x2) * (x2 - H * (c0 * cp - s0 * sp) - x2)
             + (y2 - H * (s0 * cp + c0 * sp) - y2) * (y2 - H * (s0 * cp + c0 * sp) - y2))
      with (H * H * ((c0 * c0 + s0 * s0) * (cp * cp + sp * sp))) by ring.
    rewrite Hunit, Hunit6. ring.
  - replace x2 with (x1 + d * c0) by lra. replace y2 with (y1 + d * s0) by lra.
    field.
  - ring.
Qed.

(** The head drawn by [draw_arrow]: two corners at distance [k] on either
    side of the point [L] behind the tip. *)
Lemma preview_head_algebra (x1 y1 x2 y2 d c0 s0 L k : R) :
  d * c0 = x2 - x1 -> d * s0 = y2 - y1 ->
  let e := (x2 - L * c0, y2 - L * s0) in
  let a := (fst e + k * s0, snd e - k * c0) in
  let b := (fst e - k * s0, snd e + k * c0) in
  ((fst a + fst b) / 2, (snd a + snd b) / 2) = e
  /\ symmetric_about (x1, y1) (x2, y2) a b.
Proof.
  intros Hx Hy. cbn. unfold symmetric_about. cbn. rewrite <- Hx, <- Hy.
  repeat split.
  - f_equal; field.
  - replace x2 with (x1 + d * c0) by lra. replace y2 with (y1 + d * s0) by lra.
    field.
  - ring.
Qed.

Lemma shortened_along (k x1 y1 x2 y2 : R) :
  let a := math.atan2 (y2 - y1) (x2 - x1) in
  shortened_by k (x1, y1) (x2, y2) (x2 - k * cos a, y2 - k * sin a).
Proof.
  intros a. destruct (atan2_direction (x2 - x1) (y2 - y1)) as [Hx Hy].
  fold a in Hx, Hy. unfold shortened_by, dist. cbn.
  set (d := sqrt _) in *. repeat split.
  - rewrite <- Hx. ring.
  - rewrite <- Hy. ring.
  - pose proof (cos2_sin2 a) as Hu. unfold Rsqr in *.
    replace ((x2 - (x2 - k * cos a)) * (x2 - (x2 - k * cos a))
             + (y2 - (y2 - k * sin a)) * (y2 - (y2 - k * sin a)))
      with (k * k * (cos a * cos a + sin a * sin a)) by ring.
    rewrite Hu. ring.
Qed.

(** The coordinates of the two items of a committed arrow. *)
Lemma committed_arrow_coords (x1 y1 x2 y2 : R) (w : Z) (color : string)
    (h : handle) (c : Tk.canvas) :
  let H := IZR (Z.max (w * 3) 8) in
  let a := math.atan2 (y2 - y1) (x2 - x1) in
  map Tk.icoords
    (added c (snd (DrawCommand.execute
                     (DrawCommand.mk "arrow" h x1 y1 x2 y2 color w) c)))
  = [[x1; y1; x2 - H * 0.8 * cos a; y2 - H * 0.8 * sin a];
     [x2; y2;
      x2 - H * cos (a - PI / 6); y2 - H * sin (a - PI / 6);
      x2 - H * cos (a + PI / 6); y2 - H * sin (a + PI / 6)]].
Proof.
  unfold added, DrawCommand.execute. cbn.
  rewrite <- app_assoc, skipn_all_app. reflexivity.
Qed.

(** The coordinates of the two items of a preview arrow. *)
Lemma preview_arrow_coords (x1 y1 x2 y2 : R) (tags : list string) (s : App) :
  let L := IZR (Z.max (line_thickness s * 3) 8) in
  let k := IZR (line_thickness s * 2) in
  let a := math.atan2 (y2 - y1) (x2 - x1) in
  map Tk.icoords
    (added (rect_canvas s) (rect_canvas (draw_arrow x1 y1 x2 y2 tags s)))
  = [[x1; y1; x2 - L * cos a; y2 - L * sin a];
     [x2; y2;
      x2 - L * cos a + k * sin a; y2 - L * sin a - k * cos a;
      x2 - L * cos a - k * sin a; y2 - L * sin a + k * cos a]].
Proof.
  unfold added, draw_arrow. cbn.
  rewrite <- app_assoc, skipn_all_app. reflexivity.
Qed.

(** The arrow of the exporter ([draw_pil_arrow]): the shaft ends one head
    length short of the tip, and the base corners of the head mirror each
    other in the shaft line. *)
Lemma export_arrow_geometry (x1 y1 x2 y2 : R) (fill : string) (w : Z) :
  exists sx sy ax ay bx by_,
    draw_pil_arrow x1 y1 x2 y2 fill w
    = [DrawLine [(x1, y1); (sx, sy)] fill w;
       DrawPolygon [(x2, y2); (ax, ay); (bx, by_)] fill]
    /\ shortened_by (IZR (Z.max (w * 3) 8)) (x1, y1) (x2, y2) (sx, sy)
    /\ ((ax + bx) / 2, (ay + by_) / 2) = (sx, sy)
    /\ symmetric_about (x1, y1) (x2, y2) (ax, ay) (bx, by_).
Proof.
  destruct (atan2_direction (x2 - x1) (y2 - y1)) as [Hx Hy].
  do 6 eexists. split; [reflexivity |].
  split; [apply shortened_along |].
  pose proof (preview_head_algebra x1 y1 x2 y2 _ _ _ (IZR (Z.max (w * 3) 8))
                (IZR (Z.max (w * 2) 6)) Hx Hy) as Halg.
  cbn in Halg. exact Halg.
Qed.

(** The committed arrow of the example: the shaft ends at (93.6, 0). *)
Lemma committed_example_coords :
  map Tk.icoords (Tk.items (snd (DrawCommand.execute example_arrow Tk.empty)))
  = [[0; 0; 93.6; 0];
     [100; 0; 100 - 4 * sqrt 3; 4; 100 - 4 * sqrt 3; -4]].
Proof.
  pose proof (committed_arrow_coords 0 0 100 0 2 "red" HNone Tk.empty) as H.
  unfold added in H. cbn [Tk.items Tk.empty List.length skipn] in H.
  unfold example_arrow. rewrite H.
  replace (0 - 0) with 0 by ring. replace (100 - 0) with 100 by ring.
  rewrite atan2_on_axis by lra.
  replace (0 - PI / 6) with (- (PI / 6)) by ring.
  replace (0 + PI / 6) with (PI / 6) by ring.
  rewrite cos_neg, sin_neg, cos_0, sin_0, cos_PI6, sin_PI6.
  change (Z.max (2 * 3) 8) with 8%Z.
  repeat (f_equal; try lra).
Qed.

(** The preview arrow of the example: the shaft ends at (92, 0). *)
Lemma preview_example_coords :
  map Tk.icoords
    (Tk.items (rect_canvas (draw_arrow 0 0 100 0 ["temp_shape"; "drawing"] init)))
  = [[0; 0; 92; 0]; [100; 0; 92; -4; 92; 4]].
Proof.
  pose proof (preview_arrow_coords 0 0 100 0 ["temp_shape"; "drawing"] init) as H.
  unfold added in H. cbn [Tk.items Tk.empty List.length skipn rect_canvas init] in H.
  cbn [rect_canvas init] in H. rewrite H.
  replace (0 - 0) with 0 by ring. replace (100 - 0) with 100 by ring.
  rewrite atan2_on_axis by lra. rewrite cos_0, sin_0.
  change (line_thickness init) with 2%Z.
  change (Z.max (2 * 3) 8) with 8%Z. change (2 * 2)%Z with 4%Z.
  repeat (f_equal; try lra).
Qed.

(** C5, as the code has it.  With head length [H = max(3w, 8)]:
    - the committed arrow ([DrawCommand.execute]) ends its shaft [0.8 * H]
      short of [p2] along the direction from [p1] to [p2]; its two base
      corners are at distance [H] from the apex [p2] and mirror each other
      in the shaft line;
    - the preview arrow ([draw_arrow]) ends its shaft [H] short of [p2];
      its base corners have that shaft end as midpoint and mirror each
      other in the shaft line;
    - for [p1 = (0,0)], [p2 = (100,0)], [w = 2]: [H = 8], apex (100,0) and
      base corners mirrored in the x-axis in both renderings; the shaft
      ends at (92,0) in the preview and at (93.6,0) in the committed
      arrow. *)
Theorem arrow_geometry (x1 y1 x2 y2 : R) (w : Z) (color : string)
    (h : handle) (c : Tk.canvas) (tags : list string) (s : App) :
  let H := IZR (Z.max (w * 3) 8) in
  let L := IZR (Z.max (line_thickness s * 3) 8) in
  (exists sx sy ax ay bx by_,
      map Tk.icoords
        (added c (snd (DrawCommand.execute
                         (DrawCommand.mk "arrow" h x1 y1 x2 y2 color w) c)))
      = [[x1; y1; sx; sy]; [x2; y2; ax; ay; bx; by_]]
      /\ shortened_by (0.8 * H) (x1, y1) (x2, y2) (sx, sy)
      /\ (ax - x2)² + (ay - y2)² = H²
      /\ (bx - x2)² + (by_ - y2)² = H²
      /\ symmetric_about (x1, y1) (x2, y2) (ax, ay) (bx, by_))
  /\ (exists sx sy ax ay bx by_,
        map Tk.icoords
          (added (rect_canvas s) (rect_canvas (draw_arrow x1 y1 x2 y2 tags s)))
        = [[x1; y1; sx; sy]; [x2; y2; ax; ay; bx; by_]]
        /\ shortened_by L (x1, y1) (x2, y2) (sx, sy)
        /\ ((ax + bx) / 2, (ay + by_) / 2) = (sx, sy)
        /\ symmetric_about (x1, y1) (x2, y2) (ax, ay) (bx, by_))
  /\ map Tk.icoords (Tk.items (snd (DrawCommand.execute example_arrow Tk.empty)))
     = [[0; 0; 93.6; 0]; [100; 0; 100 - 4 * sqrt 3; 4; 100 - 4 * sqrt 3; -4]]
  /\ map Tk.icoords
       (Tk.items (rect_canvas (draw_arrow 0 0 100 0 ["temp_shape"; "drawing"] init)))
     = [[0; 0; 92; 0]; [100; 0; 92; -4; 92; 4]].
Proof.
  intros H L.
  destruct (atan2_direction (x2 - x1) (y2 - y1)) as [Hx Hy].
  set (a := math.atan2 (y2 - y1) (x2 - x1)) in *.
  split; [| split; [| split; [exact committed_example_coords
                             | exact preview_example_coords]]].
  - do 6 eexists. split; [apply committed_arrow_coords |]. fold H. fold a.
    split.
    + replace (H * 0.8 * cos a) with (0.8 * H * cos a) by ring.
      replace (H * 0.8 * sin a) with (0.8 * H * sin a) by ring.
      apply shortened_along.
    + rewrite cos_minus, sin_minus, cos_plus, sin_plus.
      pose proof (committed_head_algebra x1 y1 x2 y2 _ (cos a) (sin a)
                    (cos (PI / 6)) (sin (PI / 6)) H Hx Hy
                    (cos2_sin2 a) (cos2_sin2 (PI / 6))) as Halg.
      cbn in Halg. exact Halg.
  - do 6 eexists. split; [apply preview_arrow_coords |]. fold L. fold a.
    split; [apply shortened_along |].
    pose proof (preview_head_algebra x1 y1 x2 y2 _ (cos a) (sin a) L
                  (IZR (line_thickness s * 2)) Hx Hy) as Halg.
    cbn in Halg. exact Halg.
Qed.

(** C5 as stated fails: the committed arrow of the example does not end
    its shaft at (92,0), one head length short of the tip, but at
    (93.6,0). *)
Lemma committed_shaft_not_at_92 :
  Tk.coords 1 (snd (DrawCommand.execute example_arrow Tk.empty)) = [0; 0; 93.6; 0]
  /\ Tk.coords 1 (snd (DrawCommand.execute example_arrow Tk.empty)) <> [0; 0; 92; 0].
Proof.
  assert (Hc : Tk.coords 1 (snd (DrawCommand.execute example_arrow Tk.empty))
               = [0; 0; 93.6; 0]).
  { change (Tk.coords 1 (snd (DrawCommand.execute example_arrow Tk.empty)))
      with (hd [] (map Tk.icoords
                     (Tk.items (snd (DrawCommand.execute example_arrow Tk.empty))))).
    rewrite committed_example_coords. reflexivity. }
  split; [exact Hc |]. rewrite Hc. intros H. injection H as H. lra.
Qed.

(** ** Running a session step by step *)

(** Evaluates the controller on concrete input; arithmetic on the reals
    is left as it stands. *)
Ltac run :=
  cbv -[IZR Q2R Rplus Rminus Rmult Rdiv Ropp Rinv Rle_dec Rlt_dec Req_dec_T
        Rmin Rmax Rabs cos sin atan PI sqrt Rleb Rltb Reqb math.atan2 math.pi
        PIL.round PIL.crop Int_part blank].

Ltac evaluate := repeat (progress (run; Rdecide)).

(** Evaluates the innermost pending step of a chain of [bind]s. *)
Ltac stage :=
  match goal with
  | |- context [bind ?m ?k] =>
      lazymatch m with
      | context [bind _ _] => fail
      | _ =>
          let H := fresh in
          eassert (H : m = Some _) by (evaluate; reflexivity);
          rewrite H; clear H; cbn [bind]
      end
  end.

Ltac stages := repeat stage; evaluate; try reflexivity.

(** Closes an equation between lists of coordinates. *)
Ltac coords_eq := repeat (f_equal; try lra).

(** ** Undo and redo (C1) *)

Lemma params_undo (cmd : Command.t) (c : Tk.canvas) :
  params (fst (Command.undo cmd c)) = params cmd.
Proof.
  destruct cmd as [d | t]; cbn.
  - unfold DrawCommand.undo. destruct (DrawCommand.shape_id d); reflexivity.
  - unfold TextCommand.undo. destruct (TextCommand.text_id t) as [[| n] |]; reflexivity.
Qed.

Lemma drawable_params (cmd cmd' : Command.t) :
  params cmd' = params cmd -> drawable cmd -> drawable cmd'.
Proof.
  destruct cmd as [d | t], cmd' as [d' | t']; cbn; try discriminate; auto.
  intros H. injection H as Ht _. rewrite Ht. auto.
Qed.

Lemma no_tag_keeps (t : string) (l : list Tk.item) :
  Forall (fun it => Tk.has_tag t it = false) l ->
  filter (fun it => negb (Tk.has_tag t it)) l = l.
Proof.
  induction 1 as [| it l Hit _ IH]; [reflexivity |].
  cbn. rewrite Hit, IH. reflexivity.
Qed.

(** What [execute] draws is never tagged as a temporary shape. *)
Lemma executed_not_temp (cmd : Command.t) (c : Tk.canvas) :
  Tk.wf c ->
  Forall (fun it => Tk.has_tag "temp_shape" it = false)
         (added c (snd (Command.execute cmd c))).
Proof.
  intros Hwf. unfold added. destruct cmd as [d | t]; cbn.
  - unfold DrawCommand.execute.
    destruct (String.eqb (DrawCommand.tool d) "rectangle").
    + cbn. rewrite skipn_all_app. repeat constructor.
    + destruct (String.eqb (DrawCommand.tool d) "arrow").
      * cbn. rewrite <- app_assoc, skipn_all_app. repeat constructor.
      * cbn. rewrite skipn_all. constructor.
  - destruct Hwf as [_ Hall]. unfold TextCommand.execute, Tk.tag_raise. cbn.
    rewrite raise_new_item by (try exact Hall; reflexivity).
    rewrite skipn_all_app. repeat constructor.
Qed.

(** Undo then redo, on a scene in which the last command is rendered on
    top of the display list where its stored geometry says: the shapes on
    the canvas look as before, and the stacks hold the same commands. *)
Lemma undo_redo_restores (s : App) (rest : list Command.t) (cmd : Command.t)
    (below new : list Tk.item) (n : nat) :
  undo_stack s = rest ++ [cmd] ->
  drawable cmd ->
  Tk.wf (rect_canvas s) ->
  Tk.items (rect_canvas s) = below ++ new ->
  handle_ids cmd = map Tk.iid new ->
  (0 < n)%nat ->
  Forall (fun it => (Tk.iid it < n)%nat) below ->
  Forall (fun it => (n <= Tk.iid it)%nat) new ->
  map Tk.visual new
  = map Tk.visual (added (rect_canvas s) (snd (Command.execute cmd (rect_canvas s)))) ->
  Forall (fun it => Tk.has_tag "temp_shape" it = false) below ->
  map Tk.visual (Tk.items (rect_canvas (redo (undo s))))
  = map Tk.visual (Tk.items (rect_canvas s))
  /\ map params (undo_stack (redo (undo s))) = map params (undo_stack s)
  /\ redo_stack (redo (undo s)) = redo_stack s.
Proof.
  intros Hstack Htool Hwf Hitems Hids Hn Hbelow Hnew Hvis Htemp.
  unfold undo. rewrite Hstack, pop_app.
  cbn [undo_stack redo_stack rect_canvas set_undo_stack set_redo_stack
       set_rect_canvas set_start_x set_start_y].
  destruct (Command.undo cmd (rect_canvas s)) as [cmd1 c1] eqn:Hundo.
  assert (Hpar1 : params cmd1 = params cmd).
  { pose proof (params_undo cmd (rect_canvas s)) as H. rewrite Hundo in H. exact H. }
  assert (Hc1 : Tk.items c1 = below).
  { pose proof (undo_deletes_handle cmd (rect_canvas s)) as H.
    rewrite Hundo in H. cbn [snd] in H. rewrite H.
    - rewrite Hids. destruct (rect_canvas s) as [its m]. cbn in Hitems. subst its.
      apply (delete_all_added n); assumption.
    - rewrite Hids. intros Hin. apply in_map_iff in Hin.
      destruct Hin as (it & Hzero & Hin).
      rewrite Forall_forall in Hnew. specialize (Hnew it Hin). lia. }
  assert (Hn1 : Tk.next_id c1 = Tk.next_id (rect_canvas s)).
  { destruct cmd as [d | t]; cbn in Hundo.
    - unfold DrawCommand.undo in Hundo.
      destruct (DrawCommand.shape_id d) as [| i | l]; inversion Hundo; subst;
        try reflexivity.
      clear. generalize (rect_canvas s). induction l as [| i l IH]; intros c;
        [reflexivity | cbn; rewrite IH; reflexivity].
    - unfold TextCommand.undo in Hundo.
      destruct (TextCommand.text_id t) as [[| m] |]; inversion Hundo; reflexivity. }
  cbn [undo_stack redo_stack rect_canvas set_undo_stack set_redo_stack
       set_rect_canvas set_start_x set_start_y].
  set (c2 := Tk.delete_withtag "temp_shape" c1).
  assert (Hc2 : c2 = Tk.mkCanvas below (Tk.next_id (rect_canvas s))).
  { unfold c2, Tk.delete_withtag. rewrite Hc1, Hn1, (no_tag_keeps _ _ Htemp).
    reflexivity. }
  assert (Hwf2 : Tk.wf c2).
  { rewrite Hc2. destruct Hwf as [Hpos Hall]. split; [exact Hpos |]. cbn.
    rewrite Hitems in Hall. apply Forall_app in Hall. tauto. }
  unfold redo.
  cbn [undo_stack redo_stack rect_canvas set_undo_stack set_redo_stack
       set_rect_canvas set_start_x set_start_y].
  rewrite pop_app.
  pose proof (execute_adds cmd1 c2 (drawable_params _ _ Hpar1 Htool) Hwf2)
    as (new2 & _ & Hitems2 & _ & _ & _ & Hpar2).
  pose proof (execute_same_visual cmd cmd1 (rect_canvas s) c2 Hpar1 Hwf Hwf2) as Hsame.
  pose proof (executed_not_temp cmd1 c2 Hwf2) as Htemp2.
  destruct (Command.execute cmd1 c2) as [cmd2 c3].
  cbn [fst snd] in *.
  assert (Hadd : added c2 c3 = new2)
    by (unfold added; rewrite Hitems2; apply skipn_all_app).
  rewrite Hadd in Hsame, Htemp2.
  cbn [undo_stack redo_stack rect_canvas set_undo_stack set_redo_stack
       set_rect_canvas set_start_x set_start_y].
  split; [| split; [| reflexivity]].
  - unfold Tk.delete_withtag. cbn [Tk.items].
    rewrite Hitems2, Hc2. cbn [Tk.items].
    rewrite filter_app, (no_tag_keeps _ _ Htemp), (no_tag_keeps _ _ Htemp2).
    rewrite Hitems, !map_app, Hsame, Hvis. reflexivity.
  - rewrite !map_app. cbn. rewrite Hpar2, Hpar1. reflexivity.
Qed.

(** The scenario of the specification: one rectangle is committed, then
    undone, then redone.  The stacks have sizes 1/0, 0/1, 1/0 and the
    rectangle is on the canvas, gone, and back where it was. *)
Lemma draw_undo_redo_scenario :
  exists s,
    drawn = Some s
    /\ rendered s = [("rectangle", [10; 10; 50; 50])]
    /\ (List.length (undo_stack s), List.length (redo_stack s)) = (1%nat, 0%nat)
    /\ rendered (undo s) = []
    /\ (List.length (undo_stack (undo s)), List.length (redo_stack (undo s)))
       = (0%nat, 1%nat)
    /\ rendered (redo (undo s)) = rendered s
    /\ map params (undo_stack (redo (undo s))) = map params (undo_stack s)
    /\ (List.length (undo_stack (redo (undo s))),
        List.length (redo_stack (redo (undo s)))) = (1%nat, 0%nat).
Proof.
  eexists. split; [unfold drawn, studio; stages |].
  evaluate. repeat split; coords_eq.
Qed.

(** C1 fails after a drag.  The rectangle of [sketch] was committed at
    (10,10)-(50,50) and then moved with the drawing area by (20,0): it is
    on screen at (30,10)-(70,50).  [undo] then [redo] puts it back at the
    stored (10,10)-(50,50): the stored geometry is what it was, the
    rendered shapes are not what they were before the undo. *)
Theorem undo_redo_after_drag_moves_shape :
  exists s,
    sketch = Some s
    /\ rendered s = [("rectangle", [30; 10; 70; 50])]
    /\ rendered (redo (undo s)) = [("rectangle", [10; 10; 50; 50])]
    /\ map params (undo_stack (redo (undo s))) = map params (undo_stack s)
    /\ rendered (redo (undo s)) <> rendered s.
Proof.
  eexists. split; [unfold sketch, drawn, studio; stages |].
  evaluate. split; [coords_eq |]. split; [coords_eq |].
  split; [reflexivity |].
  intros H. injection H as H. lra.
Qed.

(** ** Export after a drag (C3) *)

(** A drag changes neither stack: the coordinates stored in the commands
    stay as they were committed. *)
Lemma drag_leaves_commands (s s' : App) (x y : Z) :
  drag_selection x y s = Some s' ->
  undo_stack s' = undo_stack s /\ redo_stack s' = redo_stack s.
Proof.
  unfold drag_selection. destruct (dragging s); cbn.
  - destruct (drag_start_x s) as [dsx |]; [| discriminate].
    destruct (drag_start_y s) as [dsy |]; [| discriminate].
    destruct (drawing_area s) as [[[[x1 y1] x2] y2] |]; [| discriminate].
    cbn. intros H.
    match type of H with
    | context [update_overlay ?a ?b ?c ?d ?t] =>
        destruct (update_overlay a b c d t) as [t' |] eqn:E; [| discriminate];
        apply update_overlay_agree in E; destruct E as [_ E]
    end.
    cbn in H. inversion H; subst s'; clear H. rewrite E. split; reflexivity.
  - intros H. inversion H. split; reflexivity.
Qed.

(** C3 fails after a drag.  In [sketch] the drawing area is at
    (20,0)-(120,100) and the rectangle is on screen at (30,10)-(70,50),
    that is at (10,10)-(50,50) within the drawing area.  The exporter
    pastes the crop at (1,1) and draws the rectangle at (-9,11)-(31,51),
    that is at (-10,10)-(30,50) within the crop: the stored geometry did
    not follow the drag. *)
Theorem export_after_drag_misplaces_shape :
  exists s,
    sketch = Some s
    /\ drawing_area s = Some (20, 0, 120, 100)
    /\ map (fun shape => (fst shape, relative_to 20 0 (snd shape))) (rendered s)
       = [("rectangle", [10; 10; 50; 50])]
    /\ flat_map (command_calls (20, 0, 120, 100) 1) (undo_stack s)
       = [DrawRectangle [-9; 11; 31; 51] "red" 2]
    /\ relative_to 1 1 [-9; 11; 31; 51] = [-10; 10; 30; 50].
Proof.
  eexists. split; [unfold sketch, drawn, studio; stages |].
  evaluate. repeat split; coords_eq.
Qed.

(** ** Releasing the selection drag (C8) *)

(** A click without movement is nudged to one pixel. *)
Lemma click_selection_is_nudged :
  exists s,
    (s <- on_button_press (click 10 10) 1
            (initiate_screenshot 200 200 (blank 200 200) init) ;;
     on_button_release (click 10 10) 2 s) = Some s
    /\ drawing_area s = Some (10, 10, 11, 11).
Proof.
  eexists. split; [stages |]. evaluate. coords_eq.
Qed.

(** C8 fails for a drag along a line.  Pressing at (10,10) and releasing at
    (10,50) selects a rectangle of width zero; it is not corrected, the
    session enters drawing mode, and the crop is empty. *)
Theorem line_selection_is_not_corrected :
  exists s,
    (s <- on_button_press (click 10 10) 1
            (initiate_screenshot 200 200 (blank 200 200) init) ;;
     on_button_release (click 10 50) 2 s) = Some s
    /\ state s = "drawing"
    /\ is_drawing_mode s = true
    /\ drawing_area s = Some (10, 10, 10, 50)
    /\ exists img, screenshot s = Some img /\ PIL.width img = 0%Z.
Proof.
  eexists. split; [stages |].
  evaluate. repeat split.
  eexists. split; [reflexivity |]. unfold PIL.crop. cbn. lia.
Qed.

(** ** The exporter (C4) *)

Lemma round_IZR (z : Z) : PIL.round (IZR z) = z.
Proof.
  unfold PIL.round.
  assert (H : Int_part (IZR z) = z) by (symmetry; apply Int_part_spec; lra).
  rewrite H. replace (IZR z - IZR z) with 0 by ring.
  destruct (Rlt_dec 0 (1 / 2)); [reflexivity | lra].
Qed.

(** The exporter reads the parameters of a command, not its handle. *)
Lemma command_calls_params (bbox : R * R * R * R) (stroke_width : Z)
    (cmd : Command.t) :
  command_calls bbox stroke_width (params cmd) = command_calls bbox stroke_width cmd.
Proof. destruct bbox as [[[b0 b1] b2] b3], cmd as [d | t]; reflexivity. Qed.

Lemma flat_map_params (bbox : R * R * R * R) (stroke_width : Z)
    (l : list Command.t) :
  flat_map (command_calls bbox stroke_width) (map params l)
  = flat_map (command_calls bbox stroke_width) l.
Proof.
  induction l as [| cmd l IH]; [reflexivity |].
  cbn [map flat_map]. rewrite command_calls_params, IH. reflexivity.
Qed.

(** C4, as the code has it.  The exported image is a function of the
    captured image, the drawing area, the parameters of the committed
    commands and the current colour, in which the border is drawn: two
    sessions that agree on these four export the same image, whatever else
    differs between them. *)
Theorem flatten_deterministic (E : PIL.externals) (s1 s2 : App) :
  full_screenshot s1 = full_screenshot s2 ->
  drawing_area s1 = drawing_area s2 ->
  map params (undo_stack s1) = map params (undo_stack s2) ->
  current_color s1 = current_color s2 ->
  flatten E s1 = flatten E s2.
Proof.
  intros Himg Harea Hcmds Hcolor. unfold flatten.
  rewrite Himg, Harea, Hcolor.
  destruct (drawing_area s2) as [[[[x1 y1] x2] y2] |]; [| reflexivity].
  cbn [bind]. destruct (full_screenshot s2) as [full |]; [| reflexivity].
  cbn [bind]. f_equal.
  rewrite <- (flat_map_params _ _ (undo_stack s1)), Hcmds, flat_map_params.
  reflexivity.
Qed.

(** Two sessions with the same image, drawing area and commands, and with
    other session state different, export the same image. *)
Lemma flatten_deterministic_witness :
  exists s,
    studio = Some s
    /\ flatten palette (set_line_thickness 7 (set_current_tool "arrow" s))
       = flatten palette s.
Proof.
  eexists. split; [unfold studio; stages |].
  apply flatten_deterministic; reflexivity.
Defined.

(** C4 as stated fails: the image, the drawing area and the commands do
    not determine the export.  The same session with the current colour
    red and then blue exports images that differ at pixel (0,0), which is
    on the border. *)
Lemma flatten_depends_on_current_color :
  exists s,
    studio = Some s
    /\ full_screenshot (set_current_color "blue" s) = full_screenshot s
    /\ drawing_area (set_current_color "blue" s) = drawing_area s
    /\ undo_stack (set_current_color "blue" s) = undo_stack s
    /\ flatten palette (set_current_color "blue" s) <> flatten palette s.
Proof.
  eexists. split; [unfold studio; stages |].
  split; [reflexivity |]. split; [reflexivity |]. split; [reflexivity |].
  intros H.
  apply (f_equal (fun o => match o with
                           | Some img => PIL.px img 0 0
                           | None => (0, 0, 0, 0)%Z
                           end)) in H.
  revert H. unfold flatten, PIL.rectangle, PIL.paste, PIL.new, PIL.crop.
  evaluate. rewrite !round_IZR. evaluate. discriminate.
Qed.

(** ** The theorems at work on the example session *)

(** C2 on the example: the rectangle is undone (the redo stack holds it),
    a second rectangle is drawn and committed; the redo stack is empty and
    [redo] does nothing. *)
Lemma commit_clears_redo_stack_witness :
  exists s0 s1 s2,
    drawn = Some s0
    /\ on_press (click 20 20) (undo s0) = Some s1
    /\ end_draw (click 40 40) s1 = Some s2
    /\ List.length (redo_stack s1) = 1%nat
    /\ commits s1 s2
    /\ redo_stack s2 = [] /\ redo s2 = s2.
Proof.
  eexists. eexists. eexists.
  split; [unfold drawn, studio; stages |].
  split; [evaluate; reflexivity |].
  split; [evaluate; reflexivity |].
  split; [reflexivity |].
  match goal with
  | |- commits ?a ?b /\ _ =>
      assert (Hc : commits a b);
      [ split;
        [ left; exists (click 40 40); evaluate; reflexivity
        | cbn; discriminate ]
      | split; [exact Hc | exact (commit_clears_redo_stack a b Hc)] ]
  end.
Defined.

(** C6 on the example arrow, drawn on an empty canvas. *)
Lemma execute_then_undo_witness :
  drawable (Command.Draw example_arrow)
  /\ Tk.wf Tk.empty
  /\ Tk.items
       (snd (Command.undo
               (fst (Command.execute (Command.Draw example_arrow) Tk.empty))
               (snd (Command.execute (Command.Draw example_arrow) Tk.empty))))
     = Tk.items Tk.empty.
Proof.
  assert (Htool : drawable (Command.Draw example_arrow)) by (right; reflexivity).
  assert (Hwf : Tk.wf Tk.empty) by (split; [cbn; lia | constructor]).
  split; [exact Htool |]. split; [exact Hwf |].
  exact (proj1 (proj2 (proj2 (execute_then_undo _ _ Htool Hwf)))).
Defined.

(** C7 on the example of the specification: the drawing area
    (0,0)-(100,100) on the 200x200 screen, grabbed at (60,60) and dragged
    to (10,60), that is by (-50,0), stays at x1 = 0. *)
Lemma drag_keeps_area_on_screen_witness :
  exists s,
    (s <- studio ;; on_press (click 60 60) s) = Some s
    /\ dragging s = true
    /\ within_screen s (0, 0, 100, 100)
    /\ exists s' area,
         drag_selection 10 60 s = Some s'
         /\ drawing_area s' = Some area
         /\ within_screen s' area
         /\ area = (0, 0, 100, 100).
Proof.
  eexists. split; [unfold studio; stages |].
  split; [reflexivity |].
  assert (Hin : forall w h : Z, IZR w = 200 -> IZR h = 200 ->
                  0 <= 0 /\ 0 <= 0 /\ 100 <= IZR w /\ 100 <= IZR h)
    by (intros w h Hw Hh; lra).
  split; [apply Hin; reflexivity |].
  match goal with
  | |- exists s' area, drag_selection ?x ?y ?s = _ /\ _ =>
      destruct (drag_keeps_area_on_screen s x y 60 60 0 0 100 100
                  eq_refl eq_refl eq_refl (Hin _ _ eq_refl eq_refl) eq_refl)
        as (s' & area & Hrun & Harea & Hwithin & Hclamp)
  end.
  exists s', area. split; [exact Hrun |]. split; [exact Harea |].
  split; [exact Hwithin |].
  rewrite (Hclamp eq_refl). unfold clamp_delta. evaluate. coords_eq.
Defined.

(** C9 on the example: a text box is dragged from (20,20) to (80,60),
    nothing is typed, the field loses focus. *)
Lemma empty_text_is_discarded_witness :
  exists s entry,
    (s <- studio ;;
     s <- on_press (click 20 20) (set_tool "text" s) ;;
     s <- resize_text_box (click 80 60) s ;;
     finalize_text_box (click 80 60) s) = Some s
    /\ text_entry s = Some entry
    /\ te_content entry = ""
    /\ undo_stack (end_text_entry s) = undo_stack s
    /\ redo_stack (end_text_entry s) = redo_stack s.
Proof.
  eexists. eexists. split; [unfold studio; stages |].
  split; [reflexivity |]. split; [reflexivity |].
  match goal with
  | |- undo_stack (end_text_entry ?s) = _ /\ _ =>
      destruct (empty_text_is_discarded s _ eq_refl) as [Hempty _];
      destruct (Hempty eq_refl) as (Hundo & Hredo & _)
  end.
  split; [exact Hundo | exact Hredo].
Defined.

(** C10 on the example: with the rectangle committed, the bottom-right
    handle is grabbed at (100,100) and pulled to (150,150). *)
Lemma resize_leaves_shapes_alone_witness :
  exists s,
    (s <- drawn ;; on_press (click 100 100) s) = Some s
    /\ resizing s = Some 2%nat
    /\ ui_separate s
    /\ exists s',
         resize_selection 150 150 s = Some s'
         /\ drawing_area s' = Some (0, 0, 150, 150)
         /\ undo_stack s' = undo_stack s
         /\ rendered s' = [("rectangle", [10; 10; 50; 50])]
         /\ drawing_items s' = drawing_items s.
Proof.
  eexists. split; [unfold drawn, studio; stages |].
  split; [reflexivity |].
  match goal with
  | |- ui_separate ?s /\ _ =>
      assert (Hsep : ui_separate s)
  end.
  { intros it Hin Htag Hui. cbn in Hin.
    repeat (destruct Hin as [<- | Hin]; [cbn in Htag, Hui |]);
      try discriminate; try contradiction.
    repeat (destruct Hui as [Hui | Hui]; [discriminate |]). contradiction. }
  split; [exact Hsep |].
  match goal with
  | |- exists s', resize_selection ?x ?y ?s = _ /\ _ =>
      destruct (resize_leaves_shapes_alone s x y Hsep eq_refl eq_refl)
        as (s' & Hrun & Hundo & _ & Hitems & _ & _);
      eassert (Hval : resize_selection x y s = Some _) by (evaluate; reflexivity)
  end.
  exists s'. split; [exact Hrun |].
  rewrite Hval in Hrun. injection Hrun as Hs'.
  split; [rewrite <- Hs'; evaluate; coords_eq |].
  split; [exact Hundo |].
  split; [| exact Hitems].
  change (rendered s')
    with (map (fun it => (Tk.ikind it, Tk.icoords it)) (drawing_items s')).
  rewrite Hitems. evaluate. coords_eq.
Defined.


(** * Further properties of the controller *)

(** ** The history of edits *)

Lemma pop_none {A : Type} (l : list A) : pop l = None -> l = [].
Proof.
  destruct l as [| a l]; [reflexivity |]. cbn.
  destruct (pop l) as [[rest z] |]; discriminate.
Qed.

Lemma pop_inv {A : Type} (l rest : list A) (a : A) :
  pop l = Some (rest, a) -> l = rest ++ [a].
Proof.
  revert rest a. induction l as [| b l IH]; intros rest a H; cbn in H;
    [discriminate |].
  destruct (pop l) as [[rest' z] |] eqn:E.
  - inversion H; subst. rewrite (IH _ _ eq_refl). reflexivity.
  - inversion H; subst. rewrite (pop_none _ E). reflexivity.
Qed.

Lemma params_execute (cmd : Command.t) (c : Tk.canvas) :
  params (fst (Command.execute cmd c)) = params cmd.
Proof.
  destruct cmd as [d | t]; cbn.
  - unfold DrawCommand.execute.
    destruct (String.eqb (DrawCommand.tool d) "rectangle"); [reflexivity |].
    destruct (String.eqb (DrawCommand.tool d) "arrow"); reflexivity.
  - reflexivity.
Qed.

Lemma undo_timeline (s : App) : timeline (undo s) = timeline s.
Proof.
  unfold timeline, undo.
  destruct (pop (undo_stack s)) as [[rest cmd] |] eqn:Hpop; [| reflexivity].
  apply pop_inv in Hpop.
  pose proof (params_undo cmd (rect_canvas (set_undo_stack rest s))) as Hpar.
  destruct (Command.undo cmd (rect_canvas (set_undo_stack rest s))) as [cmd' c].
  cbn [fst] in Hpar. cbn. rewrite Hpop, !map_app, rev_app_distr. cbn.
  rewrite Hpar, <- app_assoc. reflexivity.
Qed.

Lemma redo_timeline (s : App) : timeline (redo s) = timeline s.
Proof.
  unfold timeline, redo.
  destruct (pop (redo_stack s)) as [[rest cmd] |] eqn:Hpop; [| reflexivity].
  apply pop_inv in Hpop.
  pose proof (params_execute cmd (rect_canvas (set_redo_stack rest s))) as Hpar.
  destruct (Command.execute cmd (rect_canvas (set_redo_stack rest s))) as [cmd' c].
  cbn [fst] in Hpar. cbn. rewrite Hpop, !map_app, rev_app_distr. cbn.
  rewrite Hpar, <- app_assoc. reflexivity.
Qed.

(** X1. Undo and redo only move the boundary between what is committed
    and what is undone: after any sequence of undos and redos the history
    of edits holds the same commands with the same parameters in the same
    order, so no command is ever lost, duplicated or reordered. *)
Theorem undo_redo_keep_history (steps : list bool) (s : App) :
  timeline (fold_left (fun s (u : bool) => if u then undo s else redo s) steps s)
  = timeline s.
Proof.
  revert s. induction steps as [| u steps IH]; intros s; [reflexivity |].
  cbn [fold_left]. rewrite IH. destruct u; [apply undo_timeline | apply redo_timeline].
Qed.

Lemma undo_stacks (s : App) (rest : list Command.t) (cmd : Command.t) :
  undo_stack s = rest ++ [cmd] ->
  exists cmd', params cmd' = params cmd
               /\ undo_stack (undo s) = rest
               /\ redo_stack (undo s) = redo_stack s ++ [cmd'].
Proof.
  intros Hstack. unfold undo. rewrite Hstack, pop_app.
  pose proof (params_undo cmd (rect_canvas (set_undo_stack rest s))) as Hpar.
  destruct (Command.undo cmd (rect_canvas (set_undo_stack rest s))) as [cmd' c].
  exists cmd'. split; [exact Hpar |]. split; reflexivity.
Qed.

Lemma redo_stacks (s : App) (rest : list Command.t) (cmd : Command.t) :
  redo_stack s = rest ++ [cmd] ->
  exists cmd', params cmd' = params cmd
               /\ redo_stack (redo s) = rest
               /\ undo_stack (redo s) = undo_stack s ++ [cmd'].
Proof.
  intros Hstack. unfold redo. rewrite Hstack, pop_app.
  pose proof (params_execute cmd (rect_canvas (set_redo_stack rest s))) as Hpar.
  destruct (Command.execute cmd (rect_canvas (set_redo_stack rest s))) as [cmd' c].
  exists cmd'. split; [exact Hpar |]. split; reflexivity.
Qed.

(** X2. With at least one committed command, undo then redo gives both
    stacks back; with at least one undone command, so does redo then
    undo (commands compared by their parameters). *)
Theorem undo_redo_round_trip_on_stacks (s : App) :
  (undo_stack s <> [] ->
     map params (undo_stack (redo (undo s))) = map params (undo_stack s)
     /\ map params (redo_stack (redo (undo s))) = map params (redo_stack s))
  /\ (redo_stack s <> [] ->
        map params (undo_stack (undo (redo s))) = map params (undo_stack s)
        /\ map params (redo_stack (undo (redo s))) = map params (redo_stack s)).
Proof.
  split; intros Hne.
  - destruct (exists_last Hne) as (rest & cmd & Hstack).
    destruct (undo_stacks s rest cmd Hstack) as (cmd1 & Hpar1 & Hu1 & Hr1).
    destruct (redo_stacks (undo s) _ _ Hr1) as (cmd2 & Hpar2 & Hr2 & Hu2).
    rewrite Hu2, Hr2, Hu1, Hstack, !map_app. cbn. rewrite Hpar2, Hpar1.
    split; reflexivity.
  - destruct (exists_last Hne) as (rest & cmd & Hstack).
    destruct (redo_stacks s rest cmd Hstack) as (cmd1 & Hpar1 & Hr1 & Hu1).
    destruct (undo_stacks (redo s) _ _ Hu1) as (cmd2 & Hpar2 & Hu2 & Hr2).
    rewrite Hu2, Hr2, Hr1, Hstack, !map_app. cbn. rewrite Hpar2, Hpar1.
    split; reflexivity.
Qed.

Lemma undo_redo_round_trip_on_stacks_witness :
  exists s,
    drawn = Some s
    /\ undo_stack s <> []
    /\ map params (undo_stack (redo (undo s))) = map params (undo_stack s)
    /\ map params (redo_stack (redo (undo s))) = map params (redo_stack s).
Proof.
  eexists. split; [unfold drawn, studio; stages |].
  match goal with
  | |- undo_stack ?s <> [] /\ _ =>
      assert (Hne : undo_stack s <> []) by (cbn; discriminate);
      split; [exact Hne | exact (proj1 (undo_redo_round_trip_on_stacks s) Hne)]
  end.
Defined.

(** ** The line width *)

Lemma adjust_line_thickness_range (delta : Z) (s : App) :
  (1 <= max_line_thickness s)%Z ->
  (1 <= line_thickness (adjust_line_thickness delta s) <= max_line_thickness s)%Z
  /\ max_line_thickness (adjust_line_thickness delta s) = max_line_thickness s.
Proof. intros H. unfold adjust_line_thickness. cbn. lia. Qed.

(** X3. Whatever line width the settings file gave, after one or more
    presses of the thinner/thicker buttons the width lies between 1 and the
    maximum width, and the maximum is never changed. *)
Theorem line_thickness_stays_in_range (deltas : list Z) (s : App) :
  (1 <= max_line_thickness s)%Z ->
  deltas <> [] ->
  (1 <= line_thickness (adjust_line_thickness_all deltas s)
   <= max_line_thickness s)%Z
  /\ max_line_thickness (adjust_line_thickness_all deltas s)
     = max_line_thickness s.
Proof.
  intros Hmax Hne. unfold adjust_line_thickness_all.
  destruct deltas as [| d deltas]; [contradiction |]. clear Hne. cbn [fold_left].
  destruct (adjust_line_thickness_range d s Hmax) as [Hr Hm].
  revert Hr Hm. generalize (adjust_line_thickness d s) as t. clear d.
  induction deltas as [| d deltas IH]; intros t Hr Hm; cbn [fold_left].
  - split; assumption.
  - assert (Hmax' : (1 <= max_line_thickness t)%Z) by lia.
    destruct (adjust_line_thickness_range d t Hmax') as [Hr' Hm'].
    apply IH; [rewrite <- Hm | rewrite Hm', Hm]; [exact Hr' | reflexivity].
Qed.

Lemma line_thickness_stays_in_range_witness :
  (1 <= line_thickness
          (adjust_line_thickness_all [1; 1; -20; 3]%Z
             (set_line_thickness 50 init)) <= 10)%Z.
Proof.
  assert (Hmax : (1 <= max_line_thickness (set_line_thickness 50 init))%Z)
    by (cbn; lia).
  assert (Hne : [1; 1; -20; 3]%Z <> []) by discriminate.
  exact (proj1 (line_thickness_stays_in_range _ _ Hmax Hne)).
Defined.

(** ** The exporter, continued *)

(** The exporter reads four fields of the controller. *)
Lemma flatten_reads (E : PIL.externals) (s1 s2 : App) :
  full_screenshot s1 = full_screenshot s2 ->
  drawing_area s1 = drawing_area s2 ->
  map params (undo_stack s1) = map params (undo_stack s2) ->
  current_color s1 = current_color s2 ->
  flatten E s1 = flatten E s2.
Proof.
  intros Himg Harea Hcmds Hcolor. unfold flatten.
  rewrite Himg, Harea, Hcolor.
  destruct (drawing_area s2) as [[[[x1 y1] x2] y2] |]; [| reflexivity].
  cbn [bind]. destruct (full_screenshot s2) as [full |]; [| reflexivity].
  cbn [bind]. f_equal.
  rewrite <- (flat_map_params _ _ (undo_stack s1)), Hcmds, flat_map_params.
  reflexivity.
Qed.

Lemma undo_frame (s : App) :
  full_screenshot (undo s) = full_screenshot s
  /\ drawing_area (undo s) = drawing_area s
  /\ current_color (undo s) = current_color s.
Proof.
  unfold undo. destruct (pop (undo_stack s)) as [[rest cmd] |];
    [| repeat split].
  destruct (Command.undo cmd _) as [cmd' c]. repeat split.
Qed.

Lemma redo_frame (s : App) :
  full_screenshot (redo s) = full_screenshot s
  /\ drawing_area (redo s) = drawing_area s
  /\ current_color (redo s) = current_color s.
Proof.
  unfold redo. destruct (pop (redo_stack s)) as [[rest cmd] |];
    [| repeat split].
  destruct (Command.execute cmd _) as [cmd' c]. repeat split.
Qed.

(** X4. An undone command is not exported, and a redone one is exported
    again: after an undo the export is the one of the session without its
    last command, and after undo then redo it is the export from before
    the undo, wherever the canvas items were moved in between. *)
Theorem export_follows_undo_stack (E : PIL.externals) (s : App)
    (rest : list Command.t) (cmd : Command.t) :
  undo_stack s = rest ++ [cmd] ->
  flatten E (undo s) = flatten E (set_undo_stack rest s)
  /\ flatten E (redo (undo s)) = flatten E s.
Proof.
  intros Hstack.
  destruct (undo_stacks s rest cmd Hstack) as (cmd1 & Hpar1 & Hu1 & Hr1).
  destruct (undo_frame s) as (Hi & Ha & Hc).
  split.
  - apply flatten_reads; try assumption. rewrite Hu1. reflexivity.
  - destruct (redo_stacks (undo s) _ _ Hr1) as (cmd2 & Hpar2 & Hr2 & Hu2).
    destruct (redo_frame (undo s)) as (Hi' & Ha' & Hc').
    apply flatten_reads; try congruence.
    rewrite Hu2, Hu1, Hstack, !map_app. cbn. rewrite Hpar2, Hpar1. reflexivity.
Qed.

Lemma export_follows_undo_stack_witness :
  exists s,
    sketch = Some s
    /\ flatten palette (redo (undo s)) = flatten palette s.
Proof.
  eexists. split; [unfold sketch, drawn, studio; stages |].
  match goal with
  | |- flatten _ (redo (undo ?s)) = _ =>
      exact (proj2 (export_follows_undo_stack palette s [] _ eq_refl))
  end.
Defined.

(** X5. Copying outside drawing mode exports nothing and changes
    nothing.  A copy in drawing mode exports the composited image and
    ends the session: the controller is idle, both stacks are empty, the
    captured image and the drawing area are released, and a second copy
    exports nothing. *)
Theorem copy_ends_the_session (E : PIL.externals) (s s' : App)
    (out : option PIL.image) :
  copy_to_clipboard E s = Some (s', out) ->
  (is_drawing_mode s = false -> s' = s /\ out = None)
  /\ (is_drawing_mode s = true ->
        out = flatten E s /\ out <> None
        /\ state s' = "idle" /\ is_drawing_mode s' = false
        /\ undo_stack s' = [] /\ redo_stack s' = []
        /\ full_screenshot s' = None /\ screenshot s' = None
        /\ drawing_area s' = None /\ text_entry s' = None
        /\ Tk.items (rect_canvas s') = []
        /\ copy_to_clipboard E s' = Some (s', None)).
Proof.
  unfold copy_to_clipboard. destruct (is_drawing_mode s) eqn:Hmode; cbn.
  - destruct (flatten E s) as [img |] eqn:Hflat; cbn; [| discriminate].
    intros H. inversion H; subst. split; [discriminate |]. intros _.
    repeat split; discriminate.
  - intros H. inversion H; subst. split; [| discriminate]. auto.
Qed.

Lemma copy_ends_the_session_witness :
  exists s s' out,
    sketch = Some s
    /\ copy_to_clipboard palette s = Some (s', out)
    /\ is_drawing_mode s = true
    /\ undo_stack s <> []
    /\ undo_stack s' = []
    /\ copy_to_clipboard palette s' = Some (s', None).
Proof.
  eexists. eexists. eexists.
  split; [unfold sketch, drawn, studio; stages |].
  match goal with
  | |- copy_to_clipboard ?E ?s = Some (?s', ?out) /\ _ =>
      assert (Hrun : copy_to_clipboard E s
                     = Some (reset_for_new_screenshot s, flatten E s))
  end.
  { unfold copy_to_clipboard. cbn [is_drawing_mode negb].
    match goal with
    | |- context [flatten ?E ?s] =>
        destruct (flatten E s) as [img |] eqn:Hflat; [reflexivity |]
    end.
    exfalso. revert Hflat. unfold flatten. cbn. discriminate. }
  split; [exact Hrun |]. split; [reflexivity |]. split; [cbn; discriminate |].
  destruct (copy_ends_the_session _ _ _ _ Hrun) as [_ H].
  destruct (H eq_refl) as (_ & _ & _ & _ & Hu & _ & _ & _ & _ & _ & _ & Hagain).
  split; [exact Hu | exact Hagain].
Defined.

(** ** Looking items up on the canvas *)

Lemma find_update_other (i j : nat) (f : Tk.item -> Tk.item) (l : list Tk.item) :
  i <> j -> (forall it, Tk.iid (f it) = Tk.iid it) ->
  find (Tk.is_id j) (map (fun it => if Tk.is_id i it then f it else it) l)
  = find (Tk.is_id j) l.
Proof.
  intros Hne Hid. induction l as [| it l IH]; [reflexivity |]. cbn.
  destruct (Tk.is_id i it) eqn:Hi.
  - assert (Hj : Tk.is_id j (f it) = false).
    { unfold Tk.is_id in *. rewrite Hid. apply Nat.eqb_eq in Hi.
      apply Nat.eqb_neq. lia. }
    assert (Hj' : Tk.is_id j it = false).
    { unfold Tk.is_id in *. apply Nat.eqb_eq in Hi. apply Nat.eqb_neq. lia. }
    rewrite Hj, Hj'. exact IH.
  - destruct (Tk.is_id j it); [reflexivity | exact IH].
Qed.

Lemma find_update_same (i : nat) (f : Tk.item -> Tk.item) (l : list Tk.item) :
  (forall it, Tk.iid (f it) = Tk.iid it) ->
  find (Tk.is_id i) (map (fun it => if Tk.is_id i it then f it else it) l)
  = option_map f (find (Tk.is_id i) l).
Proof.
  intros Hid. induction l as [| it l IH]; [reflexivity |]. cbn.
  destruct (Tk.is_id i it) eqn:Hi.
  - unfold Tk.is_id in *. rewrite Hid, Hi. reflexivity.
  - rewrite Hi. exact IH.
Qed.

Lemma coords_set_coords_other (i j : nat) (cs : list R) (c : Tk.canvas) :
  i <> j -> Tk.coords j (Tk.set_coords i cs c) = Tk.coords j c.
Proof.
  intros Hne. unfold Tk.coords, Tk.set_coords, Tk.update. cbn.
  rewrite find_update_other; [reflexivity | exact Hne | reflexivity].
Qed.

Lemma coords_itemconfig (i j : nat) (kvs : list (string * Tk.optval))
    (c : Tk.canvas) :
  Tk.coords j (Tk.itemconfig i kvs c) = Tk.coords j c.
Proof.
  unfold Tk.coords, Tk.itemconfig, Tk.update. cbn.
  destruct (Nat.eq_dec i j) as [<- | Hne].
  - rewrite find_update_same by reflexivity.
    destruct (find (Tk.is_id i) (Tk.items c)); reflexivity.
  - rewrite find_update_other; [reflexivity | exact Hne | reflexivity].
Qed.

Lemma coords_set_coords_same (i : nat) (cs : list R) (c : Tk.canvas)
    (it : Tk.item) :
  find (Tk.is_id i) (Tk.items c) = Some it ->
  Tk.coords i (Tk.set_coords i cs c) = Tk.normalize (Tk.ikind it) cs.
Proof.
  intros Hfind. unfold Tk.coords, Tk.set_coords, Tk.update. cbn.
  rewrite find_update_same by reflexivity. rewrite Hfind. reflexivity.
Qed.

Lemma find_set_coords_other (i j : nat) (cs : list R) (c : Tk.canvas) :
  i <> j ->
  find (Tk.is_id j) (Tk.items (Tk.set_coords i cs c))
  = find (Tk.is_id j) (Tk.items c).
Proof.
  intros Hne. unfold Tk.set_coords, Tk.update. cbn.
  apply find_update_other; [exact Hne | reflexivity].
Qed.

Lemma coords_create_old (j : nat) (kind : string) (coords : list R)
    (opts : list (string * Tk.optval)) (tags : list string) (c : Tk.canvas)
    (it : Tk.item) :
  find (Tk.is_id j) (Tk.items c) = Some it ->
  find (Tk.is_id j) (Tk.items (snd (Tk.create kind coords opts tags c))) = Some it.
Proof.
  intros Hfind. cbn. revert Hfind.
  induction (Tk.items c) as [| a l IH]; cbn; [discriminate |].
  destruct (Tk.is_id j a); [auto | exact IH].
Qed.

Lemma coords_fold_other {A : Type} (j : nat)
    (step : Tk.canvas -> A -> Tk.canvas) (l : list A) (c : Tk.canvas) :
  (forall c a, In a l -> Tk.coords j (step c a) = Tk.coords j c) ->
  Tk.coords j (fold_left step l c) = Tk.coords j c.
Proof.
  revert c. induction l as [| a l IH]; intros c Hstep; [reflexivity |].
  cbn. rewrite IH; [apply Hstep; left; reflexivity |].
  intros c' a' Ha'. apply Hstep. right. exact Ha'.
Qed.

(** [update_overlay] leaves the coordinates of every item that is neither
    an overlay panel nor the dimension readout. *)
Lemma update_overlay_coords (x1 y1 x2 y2 : R) (s s' : App) (j : nat) :
  update_overlay x1 y1 x2 y2 s = Some s' ->
  ~ In j (dimension_text s :: overlay_rectangles s) ->
  Tk.coords j (rect_canvas s') = Tk.coords j (rect_canvas s).
Proof.
  unfold update_overlay. intros H Hj.
  destruct (nth_error (overlay_rectangles s) 0) as [o0 |] eqn:E0; [| discriminate].
  destruct (nth_error (overlay_rectangles s) 1) as [o1 |] eqn:E1; [| discriminate].
  destruct (nth_error (overlay_rectangles s) 2) as [o2 |] eqn:E2; [| discriminate].
  destruct (nth_error (overlay_rectangles s) 3) as [o3 |] eqn:E3; [| discriminate].
  cbn in H. inversion H; subst s'; clear H.
  apply nth_error_In in E0, E1, E2, E3.
  assert (Hne : forall o, In o (overlay_rectangles s) -> o <> j).
  { intros o Ho Heq. subst o. apply Hj. right. exact Ho. }
  assert (Hd : dimension_text s <> j).
  { intros Heq. apply Hj. left. exact Heq. }
  cbn [rect_canvas set_rect_canvas].
  rewrite coords_itemconfig, coords_set_coords_other by exact Hd.
  rewrite coords_fold_other by (intros; apply coords_itemconfig).
  rewrite !coords_set_coords_other by auto. reflexivity.
Qed.

Lemma update_overlay_find (x1 y1 x2 y2 : R) (s s' : App) :
  update_overlay x1 y1 x2 y2 s = Some s' ->
  s' = set_rect_canvas (rect_canvas s') s.
Proof. intros H. apply update_overlay_agree in H. tauto. Qed.

(** ** The end of the selection drag *)

Lemma update_selection_some (now : R) (s : App) :
  List.length (overlay_rectangles s) = 4%nat ->
  exists c t, update_selection now s
              = Some (set_rect_canvas c (set_last_update_time t s)).
Proof.
  intros Hov. unfold update_selection.
  assert (Hsame : Some s = Some (set_rect_canvas (rect_canvas s)
                                   (set_last_update_time (last_update_time s) s)))
    by (destruct s; reflexivity).
  destruct (start_x s) as [sx |]; [| eexists; eexists; exact Hsame].
  destruct (start_y s) as [sy |]; [| eexists; eexists; exact Hsame].
  destruct (end_x s) as [ex |]; [| eexists; eexists; exact Hsame].
  destruct (end_y s) as [ey |]; [| eexists; eexists; exact Hsame].
  destruct (Rltb _ _); [eexists; eexists; exact Hsame |].
  match goal with
  | |- context [update_overlay ?a ?b ?c ?d ?t] =>
      destruct (update_overlay_some a b c d t) as [c' Hc']; [exact Hov |];
      rewrite Hc'
  end.
  eexists. eexists. reflexivity.
Qed.

(** X6. Releasing the selection drag on a captured screen enters drawing
    mode with a normalized drawing area ([x1 <= x2], [y1 <= y2]) that is
    never a single point and has the press point as one of its corners;
    the crop is taken on that rectangle and four resize handles exist. *)
Theorem selection_is_normalized (event : Event) (now : R) (s : App)
    (sx sy : R) (full : PIL.image) :
  start_x s = Some sx ->
  start_y s = Some sy ->
  full_screenshot s = Some full ->
  List.length (overlay_rectangles s) = 4%nat ->
  exists s' x1 y1 x2 y2,
    on_button_release event now s = Some s'
    /\ drawing_area s' = Some (x1, y1, x2, y2)
    /\ x1 <= x2 /\ y1 <= y2 /\ ~ (x1 = x2 /\ y1 = y2)
    /\ (x1 = sx \/ x2 = sx) /\ (y1 = sy \/ y2 = sy)
    /\ state s' = "drawing" /\ is_drawing_mode s' = true
    /\ screenshot s' = Some (PIL.crop full (x1, y1, x2, y2))
    /\ List.length (resize_handles s') = 4%nat.
Proof.
  intros Hsx Hsy Hfull Hov. unfold on_button_release. rewrite Hsx, Hsy.
  set (nudge := Reqb (IZR (ev_x event)) sx && Reqb (IZR (ev_y event)) sy).
  assert (Hnudge : nudge = true
                   \/ (nudge = false
                       /\ ~ (IZR (ev_x event) = sx /\ IZR (ev_y event) = sy))).
  { unfold nudge, Reqb.
    destruct (Req_dec_T (IZR (ev_x event)) sx);
      destruct (Req_dec_T (IZR (ev_y event)) sy); cbn; auto;
      right; (split; [reflexivity | tauto]). }
  set (ends := if nudge then _ else _).
  assert (Hends : exists ex ey, ends = (ex, ey) /\ ~ (ex = sx /\ ey = sy)).
  { unfold ends. destruct Hnudge as [Ht | [Hf Hne]].
    - rewrite Ht. do 2 eexists. split; [reflexivity |].
      unfold nudge in Ht. apply andb_prop in Ht. destruct Ht as [Hx _].
      unfold Reqb in Hx. destruct (Req_dec_T _ _); [lra | discriminate].
    - rewrite Hf. do 2 eexists. split; [reflexivity | exact Hne]. }
  destruct Hends as (ex & ey & -> & Hne).
  match goal with
  | |- context [update_selection now ?t] =>
      destruct (update_selection_some now t) as (c & t0 & Hsel); [exact Hov |];
      rewrite Hsel
  end.
  cbn [bind full_screenshot set_rect_canvas set_last_update_time set_end_x
       set_end_y].
  rewrite Hfull. do 5 eexists. split; [reflexivity |].
  split; [reflexivity |].
  assert (Hgeom : forall a b, Rmin a b <= Rmax a b
                  /\ (Rmin a b = Rmax a b -> a = b)
                  /\ (Rmin a b = a \/ Rmax a b = a)).
  { intros a b. unfold Rmin, Rmax. destruct (Rle_dec a b); lra. }
  destruct (Hgeom sx ex) as (Hx1 & Hx2 & Hx3).
  destruct (Hgeom sy ey) as (Hy1 & Hy2 & Hy3).
  split; [exact Hx1 |]. split; [exact Hy1 |].
  split; [intros [Ha Hb]; apply Hne; split;
          [symmetry; apply Hx2; exact Ha | symmetry; apply Hy2; exact Hb] |].
  split; [exact Hx3 |]. split; [exact Hy3 |].
  repeat split.
Qed.

Lemma selection_is_normalized_witness :
  exists s s' x1 y1 x2 y2,
    on_button_press (click 80 90) 1
      (initiate_screenshot 200 200 (blank 200 200) init) = Some s
    /\ on_button_release (click 30 40) 2 s = Some s'
    /\ drawing_area s' = Some (x1, y1, x2, y2)
    /\ x1 <= x2 /\ y1 <= y2.
Proof.
  eexists.
  match goal with
  | |- exists s' x1 y1 x2 y2, ?press = Some ?s /\ _ =>
      eassert (Hpress : press = Some _) by (evaluate; reflexivity)
  end.
  match type of Hpress with
  | _ = Some ?s =>
      destruct (selection_is_normalized (click 30 40) 2 s 80 90 (blank 200 200)
                  eq_refl eq_refl eq_refl eq_refl)
        as (s' & x1 & y1 & x2 & y2 & Hrun & Harea & Hx & Hy & _)
  end.
  exists s', x1, y1, x2, y2.
  split; [exact Hpress |]. split; [exact Hrun |]. split; [exact Harea |].
  split; [exact Hx | exact Hy].
Defined.

Lemma find_app_some {A : Type} (p : A -> bool) (l l' : list A) (a : A) :
  find p l = Some a -> find p (l ++ l') = Some a.
Proof.
  induction l as [| b l IH]; cbn; [discriminate |].
  destruct (p b); [auto | exact IH].
Qed.

Lemma coords_found (j : nat) (c : Tk.canvas) :
  Tk.coords j c <> [] ->
  exists it, find (Tk.is_id j) (Tk.items c) = Some it /\ Tk.icoords it = Tk.coords j c.
Proof.
  unfold Tk.coords. destruct (find (Tk.is_id j) (Tk.items c)) as [it |].
  - intros _. exists it. split; reflexivity.
  - intros H. contradiction.
Qed.

(** Entering drawing mode leaves every item that was on the canvas where
    it was. *)
Lemma setup_drawing_mode_coords (x1 y1 x2 y2 : R) (s : App) (j : nat) :
  Tk.coords j (rect_canvas s) <> [] ->
  Tk.coords j (rect_canvas (setup_drawing_mode x1 y1 x2 y2 s))
  = Tk.coords j (rect_canvas s).
Proof.
  intros Hj.
  pose proof (coords_itemconfig (dimension_text s) j
                [("state", Tk.VStr "hidden")] (rect_canvas s)) as H1.
  rewrite <- H1 in Hj. destruct (coords_found _ _ Hj) as (it & Hfind & Hcoords).
  transitivity (Tk.icoords it); [| rewrite Hcoords; exact H1].
  unfold setup_drawing_mode, create_resize_handles, Tk.coords. cbn.
  cbn in Hfind.
  rewrite (find_app_some _ _ _ _
             (find_app_some _ _ _ _
                (find_app_some _ _ _ _ (find_app_some _ _ _ _ Hfind)))).
  reflexivity.
Qed.

Lemma update_selection_throttled (now : R) (s : App) :
  now - last_update_time s < update_interval s ->
  update_selection now s = Some s.
Proof.
  intros Hsoon. unfold update_selection. rewrite (Rltb_true _ _ Hsoon).
  destruct (start_x s), (start_y s), (end_x s), (end_y s); reflexivity.
Qed.

(** What a throttled release computes once the end point is fixed. *)
Lemma throttled_release_run (now : R) (s : App) (sx sy ex ey : R)
    (full : PIL.image) :
  full_screenshot s = Some full ->
  now - last_update_time s < update_interval s ->
  (self <- update_selection now (set_end_x (Some ex) (set_end_y (Some ey) s)) ;;
   match full_screenshot self with
   | Some full =>
       Some (set_is_screenshot_in_progress false
               (set_state "drawing"
                  (setup_drawing_mode
                     (Rmin sx ex) (Rmin sy ey) (Rmax sx ex) (Rmax sy ey)
                     (set_screenshot
                        (Some (PIL.crop full (Rmin sx ex, Rmin sy ey,
                                              Rmax sx ex, Rmax sy ey)))
                        self))))
   | None => Some self
   end)
  = Some (set_is_screenshot_in_progress false
            (set_state "drawing"
               (setup_drawing_mode
                  (Rmin sx ex) (Rmin sy ey) (Rmax sx ex) (Rmax sy ey)
                  (set_screenshot
                     (Some (PIL.crop full (Rmin sx ex, Rmin sy ey,
                                           Rmax sx ex, Rmax sy ey)))
                     (set_end_x (Some ex) (set_end_y (Some ey) s)))))).
Proof.
  intros Hfull Hsoon.
  rewrite update_selection_throttled by exact Hsoon.
  cbn [bind].
  change (full_screenshot (set_end_x ?a (set_end_y ?b s)))
    with (full_screenshot s).
  rewrite Hfull. reflexivity.
Qed.

Lemma entered_drawing_area (a b c d : R) (t : App) :
  drawing_area (set_is_screenshot_in_progress false
                  (set_state "drawing" (setup_drawing_mode a b c d t)))
  = Some (a, b, c, d).
Proof. reflexivity. Qed.

Lemma flags_keep_selection_rect (b : bool) (st : string) (t : App) :
  selection_rect (set_is_screenshot_in_progress b (set_state st t))
  = selection_rect t.
Proof. reflexivity. Qed.

Lemma flags_keep_rect_canvas (b : bool) (st : string) (t : App) :
  rect_canvas (set_is_screenshot_in_progress b (set_state st t))
  = rect_canvas t.
Proof. reflexivity. Qed.

Lemma setup_drawing_mode_selection_rect (a b c d : R) (t : App) :
  selection_rect (setup_drawing_mode a b c d t) = selection_rect t.
Proof. reflexivity. Qed.

Lemma entered_selection_coords (a b c d : R) (s : App) (x y : option R)
    (im : option PIL.image) :
  Tk.coords (selection_rect s) (rect_canvas s) <> [] ->
  Tk.coords
    (selection_rect
       (set_is_screenshot_in_progress false
          (set_state "drawing"
             (setup_drawing_mode a b c d
                (set_screenshot im (set_end_x x (set_end_y y s)))))))
    (rect_canvas
       (set_is_screenshot_in_progress false
          (set_state "drawing"
             (setup_drawing_mode a b c d
                (set_screenshot im (set_end_x x (set_end_y y s)))))))
  = Tk.coords (selection_rect s) (rect_canvas s).
Proof.
  intros Hsel.
  rewrite (flags_keep_selection_rect false "drawing"
             (setup_drawing_mode a b c d
                (set_screenshot im (set_end_x x (set_end_y y s))))).
  rewrite (flags_keep_rect_canvas false "drawing"
             (setup_drawing_mode a b c d
                (set_screenshot im (set_end_x x (set_end_y y s))))).
  rewrite (setup_drawing_mode_selection_rect a b c d
             (set_screenshot im (set_end_x x (set_end_y y s)))).
  exact (setup_drawing_mode_coords a b c d
           (set_screenshot im (set_end_x x (set_end_y y s)))
           (selection_rect s) Hsel).
Qed.

(** X7. A release that comes sooner after the last redraw of the
    selection than the refresh interval enters drawing mode with the
    drawing area set from the release point, while the selection rectangle
    on the canvas keeps the coordinates of that last redraw. *)
Theorem throttled_release_keeps_old_rectangle (event : Event) (now : R)
    (s : App) (sx sy : R) (full : PIL.image) :
  start_x s = Some sx ->
  start_y s = Some sy ->
  full_screenshot s = Some full ->
  now - last_update_time s < update_interval s ->
  Tk.coords (selection_rect s) (rect_canvas s) <> [] ->
  exists s' ex ey,
    on_button_release event now s = Some s'
    /\ drawing_area s' = Some (Rmin sx ex, Rmin sy ey, Rmax sx ex, Rmax sy ey)
    /\ (ex, ey) = (if Reqb (IZR (ev_x event)) sx && Reqb (IZR (ev_y event)) sy
                   then (IZR (ev_x event) + 1, IZR (ev_y event) + 1)
                   else (IZR (ev_x event), IZR (ev_y event)))
    /\ Tk.coords (selection_rect s') (rect_canvas s')
       = Tk.coords (selection_rect s) (rect_canvas s).
Proof.
  intros Hsx Hsy Hfull Hsoon Hsel. unfold on_button_release. rewrite Hsx, Hsy.
  destruct (Reqb (IZR (ev_x event)) sx && Reqb (IZR (ev_y event)) sy);
    (eexists; do 2 eexists;
     split; [exact (throttled_release_run now s sx sy _ _ full Hfull Hsoon) |];
     split; [apply entered_drawing_area |];
     split; [reflexivity |];
     exact (entered_selection_coords _ _ _ _ s _ _ _ Hsel)).
Qed.

Lemma throttled_release_keeps_old_rectangle_witness :
  exists s s' ex ey,
    (s0 <- on_button_press (click 80 90) 1
             (initiate_screenshot 200 200 (blank 200 200) init) ;;
     on_move_press (click 50 50) 2 s0) = Some s
    /\ on_button_release (click 30 40) (2 + 1 / 1000) s = Some s'
    /\ drawing_area s'
       = Some (Rmin 80 ex, Rmin 90 ey, Rmax 80 ex, Rmax 90 ey)
    /\ Tk.coords (selection_rect s') (rect_canvas s')
       = Tk.coords (selection_rect s) (rect_canvas s).
Proof.
  eexists.
  match goal with
  | |- exists s' ex ey, ?drag = Some ?s /\ _ =>
      eassert (Hdrag : drag = Some _) by (evaluate; reflexivity)
  end.
  match type of Hdrag with
  | _ = Some ?s =>
      assert (Hsoon : 2 + 1 / 1000 - last_update_time s < update_interval s)
        by (cbn; lra);
      assert (Hsel : Tk.coords (selection_rect s) (rect_canvas s) <> [])
        by (cbv; discriminate);
      destruct (throttled_release_keeps_old_rectangle (click 30 40)
                  (2 + 1 / 1000) s 80 90 (blank 200 200)
                  eq_refl eq_refl eq_refl Hsoon Hsel)
        as (s' & ex & ey & Hrun & Harea & _ & Hcoords)
  end.
  exists s', ex, ey.
  split; [exact Hdrag |]. split; [exact Hrun |]. split; [exact Harea |].
  exact Hcoords.
Defined.

(** ** The hot key *)

Lemma poll_hotkey_state_key (keys : Keyboard) (a : App) (sh : Shell) :
  screenshot_key (snd (poll_hotkey_state keys (set_app a sh)))
  = screenshot_key sh.
Proof. reflexivity. Qed.

Lemma hotkey_pressed_key (keys : Keyboard) (sh sh' : Shell) :
  screenshot_key sh' = screenshot_key sh ->
  hotkey_pressed keys sh' = hotkey_pressed keys sh.
Proof. intros H. unfold hotkey_pressed. rewrite H. reflexivity. Qed.

Lemma polls_fire_held (rest : list (Keyboard * App)) (sh : Shell) :
  _last_hotkey_state sh = true ->
  Forall (fun p => hotkey_pressed (fst p) sh = true) rest ->
  polls_fire rest sh = repeat false (List.length rest).
Proof.
  revert sh. induction rest as [| [keys a] rest IH]; intros sh Hlast Hheld;
    [reflexivity |].
  inversion Hheld as [| p l Hp Hrest]; subst. cbn [fst] in Hp.
  cbn [polls_fire poll_hotkey_state List.length repeat].
  rewrite (hotkey_pressed_key keys sh (set_app a sh) eq_refl), Hp.
  change (_last_hotkey_state (set_app a sh)) with (_last_hotkey_state sh).
  rewrite Hlast. cbn [negb andb]. f_equal.
  apply IH; [reflexivity |].
  eapply Forall_impl; [| exact Hrest]. intros p Hq.
  rewrite <- Hq. apply hotkey_pressed_key. reflexivity.
Qed.

(** X8. The hot key is edge-triggered.  While it is held down, over any
    number of polls and whatever the capture does in between, only the
    first poll can start a capture, and it does so exactly when the key
    was up at the poll before and the controller is idle at that poll.  A
    key first seen down while a capture is running therefore starts
    nothing for as long as it is held, even after the controller is idle
    again. *)
Theorem held_hot_key_fires_at_most_once (keys : Keyboard) (a : App)
    (rest : list (Keyboard * App)) (sh : Shell) :
  Forall (fun p => hotkey_pressed (fst p) sh = true) ((keys, a) :: rest) ->
  polls_fire ((keys, a) :: rest) sh
  = (negb (_last_hotkey_state sh) && String.eqb (state a) "idle")
      :: repeat false (List.length rest).
Proof.
  intros Hheld. inversion Hheld as [| p l Hp Hrest]; subst. cbn [fst] in Hp.
  cbn [polls_fire poll_hotkey_state].
  rewrite (hotkey_pressed_key keys sh (set_app a sh) eq_refl), Hp.
  cbn [andb]. f_equal.
  apply polls_fire_held; [reflexivity |].
  eapply Forall_impl; [| exact Hrest]. intros p Hq.
  rewrite <- Hq. apply hotkey_pressed_key. reflexivity.
Qed.

Lemma held_hot_key_fires_at_most_once_witness :
  polls_fire
    [(mkKeyboard false false false true false, init);
     (mkKeyboard false false false true false,
      initiate_screenshot 200 200 (blank 200 200) init);
     (mkKeyboard false false false true false, init)]
    (start "print screen")
  = [true; false; false].
Proof.
  apply (held_hot_key_fires_at_most_once
           (mkKeyboard false false false true false) init
           [(mkKeyboard false false false true false,
             initiate_screenshot 200 200 (blank 200 200) init);
            (mkKeyboard false false false true false, init)]
           (start "print screen")).
  repeat constructor.
Defined.





(** ** The Escape key *)

Lemma poll_escape_key_held (keys : Keyboard) (sh : Shell) :
  VK_ESCAPE keys = true -> _last_escape_state sh = true ->
  poll_escape_key keys sh = sh.
Proof.
  intros Hdown Hlast. unfold poll_escape_key. rewrite Hdown, Hlast.
  cbn [negb andb]. destruct sh; cbn in *. subst. reflexivity.
Qed.

Lemma handle_escape_last (sh : Shell) :
  _last_escape_state (handle_escape sh) = _last_escape_state sh.
Proof.
  unfold handle_escape.
  destruct (color_picker sh) as [picker |];
    [destruct (ColorPicker.is_open picker); [reflexivity |] |];
    destruct (String.eqb (state (app sh)) "selecting"
              || String.eqb (state (app sh)) "drawing"); reflexivity.
Qed.

Lemma poll_escape_key_last (keys : Keyboard) (sh : Shell) :
  _last_escape_state (poll_escape_key keys sh) = VK_ESCAPE keys.
Proof.
  unfold poll_escape_key.
  destruct (VK_ESCAPE keys && negb (_last_escape_state sh));
    [rewrite handle_escape_last |]; reflexivity.
Qed.

(** X10. The Escape key is edge-triggered: while it is held down, the
    polls after the first change nothing.  With the colour picker open
    over a capture, holding Escape therefore closes the picker and leaves
    the capture as it is. *)
Theorem held_escape_acts_once (keys : Keyboard) (held : list Keyboard)
    (sh : Shell) :
  VK_ESCAPE keys = true ->
  Forall (fun k => VK_ESCAPE k = true) held ->
  fold_left (fun sh k => poll_escape_key k sh) held (poll_escape_key keys sh)
  = poll_escape_key keys sh
  /\ (forall picker,
        _last_escape_state sh = false ->
        color_picker sh = Some picker -> ColorPicker.is_open picker = true ->
        poll_escape_key keys sh
        = set_color_picker (Some (ColorPicker.close picker))
            (set__last_escape_state true sh)).
Proof.
  intros Hdown Hheld. split.
  - pose proof (poll_escape_key_last keys sh) as Hlast. rewrite Hdown in Hlast.
    generalize dependent (poll_escape_key keys sh). intros sh' Hlast.
    induction Hheld as [| k held Hk _ IH]; [reflexivity |].
    cbn [fold_left]. rewrite (poll_escape_key_held k sh' Hk Hlast). exact IH.
  - intros picker Hlast Hpicker Hopen. unfold poll_escape_key.
    rewrite Hdown, Hlast. cbn [negb andb]. unfold handle_escape.
    change (color_picker (set__last_escape_state true sh))
      with (color_picker sh).
    rewrite Hpicker, Hopen. reflexivity.
Qed.

Lemma held_escape_acts_once_witness :
  exists sh,
    fold_left (fun sh k => poll_escape_key k sh)
      [mkKeyboard false false false false true;
       mkKeyboard false false false false true]
      (mkShell (initiate_screenshot 200 200 (blank 200 200) init)
               "print screen" false false
               (Some (ColorPicker.mk "#FF0000" true true)))
    = sh
    /\ state (app sh) = "selecting"
    /\ color_picker sh = Some (ColorPicker.mk "#FF0000" false false).
Proof.
  pose (sh0 := mkShell (initiate_screenshot 200 200 (blank 200 200) init)
                 "print screen" false false
                 (Some (ColorPicker.mk "#FF0000" true true))).
  destruct (held_escape_acts_once (mkKeyboard false false false false true)
              [mkKeyboard false false false false true] sh0 eq_refl)
    as [Hheld Hfirst]; [repeat constructor |].
  specialize (Hfirst _ eq_refl eq_refl eq_refl).
  exists (poll_escape_key (mkKeyboard false false false false true) sh0).
  split; [exact Hheld |]. rewrite Hfirst. split; reflexivity.
Defined.

Lemma safe_cancel_screenshot_mode (a : App) :
  is_drawing_mode (safe_cancel_screenshot a) = false.
Proof. reflexivity. Qed.

Lemma copy_after_cancel (E : PIL.externals) (a : App) :
  copy_to_clipboard E (safe_cancel_screenshot a)
  = Some (safe_cancel_screenshot a, None).
Proof.
  unfold copy_to_clipboard. rewrite safe_cancel_screenshot_mode. reflexivity.
Qed.

(** X11. Escape goes to the colour picker first.  With the picker open,
    [handle_escape] closes it and leaves the capture untouched; otherwise,
    during selection or drawing, it abandons the capture: the controller
    is idle and out of drawing mode, the images are released, a copy
    exports nothing, and both stacks still hold their commands.  Two
    presses of Escape always end a capture. *)
Theorem escape_closes_picker_then_capture (E : PIL.externals) (sh : Shell) :
  (forall picker,
     color_picker sh = Some picker -> ColorPicker.is_open picker = true ->
     app (handle_escape sh) = app sh
     /\ color_picker (handle_escape sh) = Some (ColorPicker.close picker))
  /\ ((forall picker,
         color_picker sh = Some picker -> ColorPicker.is_open picker = false) ->
      state (app sh) = "selecting" \/ state (app sh) = "drawing" ->
      let a := app (handle_escape sh) in
      state a = "idle" /\ is_drawing_mode a = false
      /\ full_screenshot a = None /\ screenshot a = None
      /\ copy_to_clipboard E a = Some (a, None)
      /\ undo_stack a = undo_stack (app sh)
      /\ redo_stack a = redo_stack (app sh))
  /\ state (app (handle_escape (handle_escape sh))) <> "selecting"
  /\ state (app (handle_escape (handle_escape sh))) <> "drawing".
Proof.
  split; [| split].
  - intros picker Hpicker Hopen. unfold handle_escape.
    rewrite Hpicker, Hopen. split; reflexivity.
  - intros Hclosed Hstate. unfold handle_escape.
    assert (Hin : String.eqb (state (app sh)) "selecting"
                  || String.eqb (state (app sh)) "drawing" = true)
      by (destruct Hstate as [-> | ->]; reflexivity).
    destruct (color_picker sh) as [picker |] eqn:Hpicker;
      [rewrite (Hclosed picker eq_refl) |]; rewrite Hin; cbv zeta;
      change (app (set_app ?a sh)) with a;
      (split; [reflexivity |]); (split; [reflexivity |]);
      (split; [reflexivity |]); (split; [reflexivity |]);
      (split; [apply copy_after_cancel |]); split; reflexivity.
  - assert (Hidle : forall sh',
              (forall picker, color_picker sh' = Some picker ->
                              ColorPicker.is_open picker = false) ->
              state (app (handle_escape sh')) <> "selecting"
              /\ state (app (handle_escape sh')) <> "drawing").
    { intros sh' Hclosed. unfold handle_escape.
      destruct (color_picker sh') as [picker |] eqn:Hpicker;
        [rewrite (Hclosed picker eq_refl) |];
        destruct (String.eqb_spec (state (app sh')) "selecting") as [Hs | Hs];
        destruct (String.eqb_spec (state (app sh')) "drawing") as [Hd | Hd];
        cbn [orb]; split; try assumption; cbn; discriminate. }
    unfold handle_escape at 2 4.
    destruct (color_picker sh) as [picker |] eqn:Hpicker.
    + destruct (ColorPicker.is_open picker) eqn:Hopen.
      * apply Hidle. cbn. intros p Hp. injection Hp as <-. reflexivity.
      * destruct (String.eqb (state (app sh)) "selecting"
                  || String.eqb (state (app sh)) "drawing") eqn:Hin.
        -- apply Hidle. cbn. rewrite Hpicker. intros p Hp.
           injection Hp as <-. exact Hopen.
        -- apply Hidle. rewrite Hpicker. intros p Hp.
           injection Hp as <-. exact Hopen.
    + destruct (String.eqb (state (app sh)) "selecting"
                || String.eqb (state (app sh)) "drawing") eqn:Hin.
      * apply Hidle. cbn. rewrite Hpicker. discriminate.
      * apply Hidle. rewrite Hpicker. discriminate.
Qed.

Lemma escape_closes_picker_then_capture_witness :
  state (app (handle_escape
                (mkShell (initiate_screenshot 200 200 (blank 200 200) init)
                         "print screen" false false None)))
  = "idle".
Proof.
  destruct (escape_closes_picker_then_capture palette
              (mkShell (initiate_screenshot 200 200 (blank 200 200) init)
                       "print screen" false false None))
    as (_ & Hcancel & _).
  apply Hcancel; [intros picker Hpicker; discriminate | left; reflexivity].
Defined.

(** ** The toolbar *)



(** ** The text editor on the canvas *)

Lemma update_above (n i : nat) (f : Tk.item -> Tk.item) (l : list Tk.item) :
  Forall (fun it => (Tk.iid it < n)%nat) l -> (n <= i)%nat ->
  map (fun it => if Tk.is_id i it then f it else it) l = l.
Proof.
  intros Hall Hle. induction Hall as [| it l Hit _ IH]; [reflexivity |].
  cbn. unfold Tk.is_id at 1.
  destruct (Nat.eqb_spec (Tk.iid it) i) as [Heq | _]; [lia |].
  rewrite IH. reflexivity.
Qed.

Lemma delete_above (n i : nat) (l : list Tk.item) :
  Forall (fun it => (Tk.iid it < n)%nat) l -> (n <= i)%nat ->
  filter (fun it => negb (Tk.is_id i it)) l = l.
Proof.
  intros Hall Hle. induction Hall as [| it l Hit _ IH]; [reflexivity |].
  cbn. unfold Tk.is_id at 1.
  destruct (Nat.eqb_spec (Tk.iid it) i) as [Heq | _]; [lia |].
  cbn. rewrite IH. reflexivity.
Qed.

Lemma editing_update (c0 c : Tk.canvas) (ed : CanvasTextEditor.t) (i : nat)
    (f : Tk.item -> Tk.item) :
  Tk.wf c0 -> editing c0 ed c ->
  i = CanvasTextEditor.text_id ed \/ i = CanvasTextEditor.rect_id ed ->
  (forall it, Tk.iid (f it) = Tk.iid it) ->
  editing c0 ed (Tk.update i f c).
Proof.
  intros [_ Hall] (Ht & Hr & new & Hitems & Hnew) Hi Hf.
  split; [exact Ht |]. split; [exact Hr |].
  exists (map (fun it => if Tk.is_id i it then f it else it) new). split.
  - unfold Tk.update. cbn. rewrite Hitems, map_app.
    rewrite (update_above (Tk.next_id c0)); [reflexivity | exact Hall | lia].
  - apply Forall_map. eapply Forall_impl; [| exact Hnew].
    intros it Hit. cbn. destruct (Tk.is_id i it); [rewrite Hf |]; exact Hit.
Qed.

Lemma editing_delete (c0 c : Tk.canvas) (ed : CanvasTextEditor.t) (i : nat) :
  Tk.wf c0 -> editing c0 ed c ->
  i = CanvasTextEditor.text_id ed \/ i = CanvasTextEditor.rect_id ed ->
  editing c0 ed (Tk.delete i c).
Proof.
  intros [_ Hall] (Ht & Hr & new & Hitems & Hnew) Hi.
  split; [exact Ht |]. split; [exact Hr |].
  exists (filter (fun it => negb (Tk.is_id i it)) new). split.
  - unfold Tk.delete. cbn. rewrite Hitems, filter_app.
    rewrite (delete_above (Tk.next_id c0)); [reflexivity | exact Hall | lia].
  - apply Forall_forall. intros it Hit. apply filter_In in Hit.
    destruct Hit as [Hit _]. revert it Hit. apply Forall_forall. exact Hnew.
Qed.

Lemma editing_set_text (c0 c : Tk.canvas) (ed : CanvasTextEditor.t)
    (v : string) :
  editing c0 ed c -> editing c0 (CanvasTextEditor.set_text v ed) c.
Proof. intros H. exact H. Qed.

Lemma editing_init (bbox : nat -> Tk.canvas -> option (R * R * R * R))
    (c0 c : Tk.canvas) (x y : R) (initial_text font_name : string)
    (font_size : Z) (color : string) (ed : CanvasTextEditor.t) :
  CanvasTextEditor.init bbox c0 x y initial_text font_name font_size color
  = Some (ed, c) ->
  editing c0 ed c /\ CanvasTextEditor.text ed = initial_text.
Proof.
  unfold CanvasTextEditor.init. cbn -[Tk.normalize].
  destruct (bbox _ _) as [[[[x1 y1] x2] y2] |]; [| discriminate].
  cbn -[Tk.normalize]. intros H. injection H as <- <-. split; [| reflexivity].
  split; [reflexivity |]. split; [reflexivity |].
  eexists. split; [cbn -[Tk.normalize]; rewrite <- app_assoc; reflexivity |].
  constructor; [left; reflexivity |].
  constructor; [right; reflexivity | constructor].
Qed.

Lemma editing_on_key_press
    (bbox : nat -> Tk.canvas -> option (R * R * R * R))
    (c0 c c' : Tk.canvas) (keysym char : string)
    (ed ed' : CanvasTextEditor.t) (returned : option nat) :
  Tk.wf c0 -> editing c0 ed c ->
  CanvasTextEditor.on_key_press bbox keysym char ed c
  = Some (ed', c', returned) ->
  editing c0 ed' c'.
Proof.
  intros Hwf Hed. unfold CanvasTextEditor.on_key_press.
  assert (Hstep : forall v c1,
            (c1' <- CanvasTextEditor.update_rectangle bbox
                      (CanvasTextEditor.set_text v ed)
                      (Tk.itemconfig
                         (CanvasTextEditor.text_id
                            (CanvasTextEditor.set_text v ed))
                         [("text", Tk.VStr (CanvasTextEditor.text
                                              (CanvasTextEditor.set_text v ed)))]
                         c) ;;
             Some (CanvasTextEditor.set_text v ed, c1', @None nat))
            = Some (ed', c1, returned) ->
            editing c0 ed' c1).
  { intros v c1. unfold CanvasTextEditor.update_rectangle.
    destruct (bbox _ _) as [[[[x1 y1] x2] y2] |]; [| discriminate].
    cbn [bind]. intros H. injection H as <- <- _.
    apply editing_set_text.
    apply editing_update; [exact Hwf | | right; reflexivity | reflexivity].
    apply editing_update; [exact Hwf | exact Hed | left; reflexivity
                          | reflexivity]. }
  destruct (String.eqb keysym "BackSpace"); [apply Hstep |].
  destruct (String.eqb keysym "Return"); [| apply Hstep].
  cbn. intros H. injection H as <- <- _.
  apply editing_delete; [exact Hwf | exact Hed | right; reflexivity].
Qed.

Lemma editing_type_keys (bbox : nat -> Tk.canvas -> option (R * R * R * R))
    (c0 : Tk.canvas) (keys : list (string * string)) :
  Tk.wf c0 ->
  forall ed c ed' c',
    editing c0 ed c -> type_keys bbox keys ed c = Some (ed', c') ->
    editing c0 ed' c'.
Proof.
  intros Hwf. induction keys as [| [keysym char] keys IH];
    intros ed c ed' c' Hed; cbn [type_keys].
  - intros H. injection H as <- <-. exact Hed.
  - destruct (CanvasTextEditor.on_key_press bbox keysym char ed c)
      as [[[ed1 c1] returned] |] eqn:Hkey; [| discriminate].
    cbn [bind]. pose proof (editing_on_key_press _ _ _ _ _ _ _ _ _ Hwf Hed Hkey)
      as Hed1.
    destruct returned as [i |].
    + intros H. injection H as <- <-. exact Hed1.
    + apply IH. exact Hed1.
Qed.

(** X13. Cancelling the text editor leaves no trace: on a canvas whose
    ids are in order, whatever keys were typed since the editor was
    opened, Return included, [cancel] gives back the display list the
    editor was opened on. *)
Theorem cancel_leaves_no_trace
    (bbox : nat -> Tk.canvas -> option (R * R * R * R))
    (c0 c1 c2 : Tk.canvas) (x y : R) (initial_text font_name : string)
    (font_size : Z) (color : string) (keys : list (string * string))
    (ed ed' : CanvasTextEditor.t) :
  Tk.wf c0 ->
  CanvasTextEditor.init bbox c0 x y initial_text font_name font_size color
  = Some (ed, c1) ->
  type_keys bbox keys ed c1 = Some (ed', c2) ->
  Tk.items (CanvasTextEditor.cancel ed' c2) = Tk.items c0.
Proof.
  intros Hwf Hinit Hkeys.
  destruct (editing_init _ _ _ _ _ _ _ _ _ _ Hinit) as [Hed _].
  destruct (editing_type_keys bbox c0 keys Hwf _ _ _ _ Hed Hkeys)
    as (Ht & Hr & new & Hitems & Hnew).
  destruct Hwf as [_ Hall].
  unfold CanvasTextEditor.cancel, Tk.delete. cbn. rewrite Hitems, !filter_app.
  rewrite (delete_above (Tk.next_id c0) (CanvasTextEditor.rect_id ed')
             (Tk.items c0)) by (try exact Hall; lia).
  rewrite (delete_above (Tk.next_id c0) (CanvasTextEditor.text_id ed')
             (Tk.items c0)) by (try exact Hall; lia).
  rewrite <- (app_nil_r (Tk.items c0)) at 2. f_equal. clear Hitems.
  induction Hnew as [| it new Hit _ IH]; [reflexivity |].
  cbn [filter]. unfold Tk.is_id at 2.
  destruct (Nat.eqb_spec (Tk.iid it) (CanvasTextEditor.rect_id ed'))
    as [_ | Hnr]; cbn [negb]; [exact IH |].
  cbn [filter]. unfold Tk.is_id at 1.
  destruct (Nat.eqb_spec (Tk.iid it) (CanvasTextEditor.text_id ed'))
    as [_ | Hnt]; cbn [negb]; [exact IH |].
  destruct Hit; contradiction.
Qed.

Lemma drop_last_app (s : string) (a : Ascii.ascii) :
  drop_last (s ++ String a "")%string = s.
Proof.
  induction s as [| b s IH]; [reflexivity |].
  cbn [append drop_last]. rewrite IH.
  destruct s; reflexivity.
Qed.

Lemma set_opt_find (k : string) (v : Tk.optval)
    (os : list (string * Tk.optval)) :
  find (fun kv => String.eqb (fst kv) k) (Tk.set_opt k v os) = Some (k, v).
Proof.
  induction os as [| [k' v'] os IH]; cbn.
  - rewrite String.eqb_refl. reflexivity.
  - destruct (String.eqb k k') eqn:Hk; cbn.
    + rewrite String.eqb_refl. reflexivity.
    + rewrite String.eqb_sym, Hk. exact IH.
Qed.

Lemma shown_text_itemconfig (i : nat) (s : string) (c : Tk.canvas) :
  find (Tk.is_id i) (Tk.items c) <> None ->
  shown_text i (Tk.itemconfig i [("text", Tk.VStr s)] c) = Some (Tk.VStr s).
Proof.
  intros Hfind. unfold shown_text, Tk.itemconfig, Tk.update. cbn [Tk.items].
  rewrite find_update_same by reflexivity.
  destruct (find (Tk.is_id i) (Tk.items c)) as [it |]; [| contradiction].
  cbn. rewrite set_opt_find. reflexivity.
Qed.

Lemma shown_text_set_coords (i j : nat) (cs : list R) (c : Tk.canvas) :
  shown_text i (Tk.set_coords j cs c) = shown_text i c.
Proof.
  unfold shown_text, Tk.set_coords, Tk.update. cbn [Tk.items].
  destruct (Nat.eq_dec j i) as [-> | Hne].
  - rewrite find_update_same by reflexivity.
    destruct (find (Tk.is_id i) (Tk.items c)); reflexivity.
  - rewrite find_update_other; [reflexivity | exact Hne | reflexivity].
Qed.

Lemma find_itemconfig_some (i j : nat) (kvs : list (string * Tk.optval))
    (c : Tk.canvas) :
  find (Tk.is_id i) (Tk.items c) <> None ->
  find (Tk.is_id i) (Tk.items (Tk.itemconfig j kvs c)) <> None.
Proof.
  unfold Tk.itemconfig, Tk.update. cbn [Tk.items].
  destruct (Nat.eq_dec j i) as [-> | Hne].
  - rewrite find_update_same by reflexivity.
    destruct (find (Tk.is_id i) (Tk.items c)); [discriminate | auto].
  - rewrite find_update_other; [auto | exact Hne | reflexivity].
Qed.

Lemma find_set_coords_some (i j : nat) (cs : list R) (c : Tk.canvas) :
  find (Tk.is_id i) (Tk.items c) <> None ->
  find (Tk.is_id i) (Tk.items (Tk.set_coords j cs c)) <> None.
Proof.
  unfold Tk.set_coords, Tk.update. cbn [Tk.items].
  destruct (Nat.eq_dec j i) as [-> | Hne].
  - rewrite find_update_same by reflexivity.
    destruct (find (Tk.is_id i) (Tk.items c)); [discriminate | auto].
  - rewrite find_update_other; [auto | exact Hne | reflexivity].
Qed.

(** What a key that edits the text does. *)
Lemma on_key_press_edit (bbox : nat -> Tk.canvas -> option (R * R * R * R))
    (keysym char : string) (ed ed1 : CanvasTextEditor.t) (c c1 : Tk.canvas)
    (returned : option nat) (v : string) :
  keysym <> "Return" ->
  v = (if String.eqb keysym "BackSpace"
       then drop_last (CanvasTextEditor.text ed)
       else (CanvasTextEditor.text ed ++ char)%string) ->
  find (Tk.is_id (CanvasTextEditor.text_id ed)) (Tk.items c) <> None ->
  CanvasTextEditor.on_key_press bbox keysym char ed c
  = Some (ed1, c1, returned) ->
  ed1 = CanvasTextEditor.set_text v ed /\ returned = None
  /\ shown_text (CanvasTextEditor.text_id ed) c1 = Some (Tk.VStr v)
  /\ find (Tk.is_id (CanvasTextEditor.text_id ed)) (Tk.items c1) <> None.
Proof.
  intros Hret -> Hfind. unfold CanvasTextEditor.on_key_press.
  apply String.eqb_neq in Hret. rewrite Hret.
  destruct (String.eqb keysym "BackSpace");
    unfold CanvasTextEditor.update_rectangle;
    (destruct (bbox _ _) as [[[[x1 y1] x2] y2] |]; [| discriminate]);
    cbn [bind]; intros H; injection H as <- <- <-;
    (split; [reflexivity |]); (split; [reflexivity |]);
    cbn [CanvasTextEditor.text_id CanvasTextEditor.set_text
         CanvasTextEditor.rect_id CanvasTextEditor.text];
    (split; [rewrite shown_text_set_coords;
             apply shown_text_itemconfig; exact Hfind
            | apply find_set_coords_some, find_itemconfig_some; exact Hfind]).
Qed.

(** X14. In the text editor a key other than Return and BackSpace
    appends its character to the text, and the canvas shows the new
    text; BackSpace then takes the last character away again, so a
    one-character key followed by BackSpace gives the editor and the
    shown text back.  Neither key returns a value. *)
Theorem backspace_undoes_the_last_key
    (bbox : nat -> Tk.canvas -> option (R * R * R * R))
    (keysym char char' : string) (a : Ascii.ascii)
    (ed ed1 ed2 : CanvasTextEditor.t) (c c1 c2 : Tk.canvas)
    (r1 r2 : option nat) :
  keysym <> "BackSpace" -> keysym <> "Return" ->
  char = String a "" ->
  find (Tk.is_id (CanvasTextEditor.text_id ed)) (Tk.items c) <> None ->
  CanvasTextEditor.on_key_press bbox keysym char ed c = Some (ed1, c1, r1) ->
  CanvasTextEditor.on_key_press bbox "BackSpace" char' ed1 c1
  = Some (ed2, c2, r2) ->
  CanvasTextEditor.text ed1 = (CanvasTextEditor.text ed ++ char)%string
  /\ shown_text (CanvasTextEditor.text_id ed) c1
     = Some (Tk.VStr (CanvasTextEditor.text ed ++ char)%string)
  /\ ed2 = ed
  /\ shown_text (CanvasTextEditor.text_id ed) c2
     = Some (Tk.VStr (CanvasTextEditor.text ed))
  /\ r1 = None /\ r2 = None.
Proof.
  intros Hback Hret -> Hfind Hkey1 Hkey2.
  apply String.eqb_neq in Hback.
  destruct (on_key_press_edit bbox keysym (String a "") ed ed1 c c1 r1 _
              Hret eq_refl Hfind Hkey1) as (-> & -> & Hshown1 & Hfind1).
  rewrite Hback in Hshown1, Hkey2.
  assert (Hret' : "BackSpace" <> "Return") by discriminate.
  destruct (on_key_press_edit bbox "BackSpace" char'
              (CanvasTextEditor.set_text
                 (CanvasTextEditor.text ed ++ String a "")%string ed)
              ed2 c1 c2 r2 _ Hret' eq_refl Hfind1 Hkey2)
    as (-> & -> & Hshown2 & _).
  rewrite Hback.
  cbn [String.eqb Ascii.eqb Bool.eqb CanvasTextEditor.text
       CanvasTextEditor.set_text CanvasTextEditor.text_id] in *.
  rewrite drop_last_app in *.
  split; [reflexivity |]. split; [exact Hshown1 |].
  split; [destruct ed; reflexivity |].
  split; [exact Hshown2 |]. split; reflexivity.
Qed.

Lemma cancel_leaves_no_trace_witness :
  exists ed c1 ed' c2,
    CanvasTextEditor.init square_metrics Tk.empty 5 5 "" "Arial" 20 "black"
    = Some (ed, c1)
    /\ type_keys square_metrics [("a", "a"); ("BackSpace", ""); ("Return", "")]
         ed c1 = Some (ed', c2)
    /\ Tk.items (CanvasTextEditor.cancel ed' c2) = Tk.items Tk.empty.
Proof.
  assert (Hwf : Tk.wf Tk.empty) by (split; cbn; [lia | constructor]).
  do 4 eexists.
  split; [reflexivity |]. split; [reflexivity |].
  eapply (cancel_leaves_no_trace square_metrics Tk.empty _ _ 5 5 "" "Arial" 20
            "black" [("a", "a"); ("BackSpace", ""); ("Return", "")]);
    [exact Hwf | reflexivity | reflexivity].
Defined.

Lemma backspace_undoes_the_last_key_witness :
  exists ed c ed1 c1 ed2 c2,
    CanvasTextEditor.init square_metrics Tk.empty 5 5 "hi" "Arial" 20 "black"
    = Some (ed, c)
    /\ CanvasTextEditor.on_key_press square_metrics "exclam" "!" ed c
       = Some (ed1, c1, None)
    /\ CanvasTextEditor.on_key_press square_metrics "BackSpace" "" ed1 c1
       = Some (ed2, c2, None)
    /\ CanvasTextEditor.text ed1 = "hi!"
    /\ ed2 = ed.
Proof.
  eassert (Hinit : CanvasTextEditor.init square_metrics Tk.empty 5 5 "hi"
                     "Arial" 20 "black" = Some (_, _)) by reflexivity.
  match type of Hinit with
  | _ = Some (?ed, ?c) =>
      eassert (Hkey1 : CanvasTextEditor.on_key_press square_metrics "exclam"
                         "!" ed c = Some (_, _, None)) by reflexivity;
      match type of Hkey1 with
      | _ = Some (?ed1, ?c1, _) =>
          eassert (Hkey2 : CanvasTextEditor.on_key_press square_metrics
                             "BackSpace" "" ed1 c1 = Some (_, _, None))
            by reflexivity;
          match type of Hkey2 with
          | _ = Some (?ed2, ?c2, _) =>
              destruct (backspace_undoes_the_last_key square_metrics "exclam"
                          "!" "" (Ascii.ascii_of_nat 33) ed ed1 ed2 c c1 c2
                          None None)
                as (Htext & _ & Hsame & _);
                [discriminate | discriminate | reflexivity
                | cbn; discriminate | exact Hkey1 | exact Hkey2 |];
              exists ed, c, ed1, c1, ed2, c2
          end
      end
  end.
  split; [exact Hinit |]. split; [exact Hkey1 |]. split; [exact Hkey2 |].
  split; [exact Htext | exact Hsame].
Defined.

(** ** Tags on the canvas *)

Lemma find_withtag_delete (t : string) (c : Tk.canvas) :
  Tk.find_withtag t (Tk.delete_withtag t c) = [].
Proof.
  unfold Tk.find_withtag, Tk.delete_withtag. cbn [Tk.items].
  induction (Tk.items c) as [| it l IH]; [reflexivity |].
  cbn [filter]. destruct (Tk.has_tag t it) eqn:Ht; cbn [negb]; [exact IH |].
  cbn [filter]. rewrite Ht. exact IH.
Qed.

Lemma filter_delete_withtag (t : string) (c : Tk.canvas) :
  filter (fun it => negb (Tk.has_tag t it)) (Tk.items (Tk.delete_withtag t c))
  = filter (fun it => negb (Tk.has_tag t it)) (Tk.items c).
Proof.
  unfold Tk.delete_withtag. cbn [Tk.items].
  induction (Tk.items c) as [| it l IH]; [reflexivity |].
  cbn [filter]. destruct (Tk.has_tag t it) eqn:Ht; cbn [negb]; [exact IH |].
  cbn [filter]. rewrite Ht. cbn [negb]. rewrite IH. reflexivity.
Qed.

Lemma find_withtag_create (t kind : string) (coords : list R)
    (opts : list (string * Tk.optval)) (tags : list string) (c : Tk.canvas) :
  Tk.find_withtag t (snd (Tk.create kind coords opts tags c))
  = Tk.find_withtag t c
    ++ (if existsb (String.eqb t) tags then [Tk.next_id c] else []).
Proof.
  unfold Tk.find_withtag, Tk.create. cbn [snd Tk.items].
  rewrite filter_app, map_app. f_equal. cbn [filter]. unfold Tk.has_tag at 1.
  cbn [Tk.itags]. destruct (existsb (String.eqb t) tags); reflexivity.
Qed.

Lemma filter_create_tagged (t kind : string) (coords : list R)
    (opts : list (string * Tk.optval)) (tags : list string) (c : Tk.canvas) :
  existsb (String.eqb t) tags = true ->
  filter (fun it => negb (Tk.has_tag t it))
         (Tk.items (snd (Tk.create kind coords opts tags c)))
  = filter (fun it => negb (Tk.has_tag t it)) (Tk.items c).
Proof.
  intros Htag. unfold Tk.create. cbn [snd Tk.items].
  rewrite filter_app. cbn [filter]. unfold Tk.has_tag at 2. cbn [Tk.itags].
  rewrite Htag. cbn [negb]. apply app_nil_r.
Qed.

Lemma find_withtag_update (t : string) (i : nat) (f : Tk.item -> Tk.item)
    (c : Tk.canvas) :
  (forall it, Tk.iid (f it) = Tk.iid it
              /\ Tk.has_tag t (f it) = Tk.has_tag t it) ->
  Tk.find_withtag t (Tk.update i f c) = Tk.find_withtag t c.
Proof.
  intros Hf. unfold Tk.find_withtag, Tk.update. cbn [Tk.items].
  induction (Tk.items c) as [| it l IH]; [reflexivity |].
  cbn [map filter]. destruct (Hf it) as [Hid Htag].
  destruct (Tk.is_id i it); [rewrite Htag |];
    (destruct (Tk.has_tag t it); cbn [map]; rewrite IH, ?Hid; reflexivity).
Qed.

Lemma has_tag_app (t new : string) (tags : list string) :
  String.eqb t new = false ->
  existsb (String.eqb t) (tags ++ [new]) = existsb (String.eqb t) tags.
Proof.
  intros Hne. rewrite existsb_app. cbn. rewrite Hne.
  rewrite !orb_false_r. reflexivity.
Qed.

Lemma find_withtag_addtag (t new : string) (i : nat) (c : Tk.canvas) :
  String.eqb t new = false ->
  Tk.find_withtag t (Tk.addtag_withtag new i c) = Tk.find_withtag t c.
Proof.
  intros Hne. apply find_withtag_update. intros it.
  destruct (Tk.has_tag new it); [split; reflexivity |].
  split; [reflexivity |]. unfold Tk.has_tag. cbn [Tk.itags].
  apply has_tag_app. exact Hne.
Qed.

(** ** The live preview *)

Lemma same_but_canvas (s : App) : s = set_rect_canvas (rect_canvas s) s.
Proof. destruct s. reflexivity. Qed.

Lemma draw_arrow_canvas (x1 y1 x2 y2 : R) (tags : list string) (s : App) :
  exists k1 cs1 o1 k2 cs2 o2,
    draw_arrow x1 y1 x2 y2 tags s
    = set_rect_canvas
        (snd (Tk.create k2 cs2 o2 tags
                (snd (Tk.create k1 cs1 o1 tags (rect_canvas s))))) s.
Proof. do 6 eexists. reflexivity. Qed.

(** One motion event with a drawing tool: only the canvas changes, and on
    the canvas only the temporary shape, which is replaced. *)
Lemma draw_shape_preview (event : Event) (s s' : App) :
  draw_shape event s = Some s' ->
  s' = set_rect_canvas (rect_canvas s') s
  /\ filter (fun it => negb (Tk.has_tag "temp_shape" it))
            (Tk.items (rect_canvas s'))
     = filter (fun it => negb (Tk.has_tag "temp_shape" it))
              (Tk.items (rect_canvas s))
  /\ (rect_canvas s' = rect_canvas s
      \/ (List.length (Tk.find_withtag "temp_shape" (rect_canvas s')) <= 2)%nat).
Proof.
  unfold draw_shape. intros H.
  assert (Hsame : forall t, Some s = Some t ->
            t = set_rect_canvas (rect_canvas t) s
            /\ filter (fun it => negb (Tk.has_tag "temp_shape" it))
                      (Tk.items (rect_canvas t))
               = filter (fun it => negb (Tk.has_tag "temp_shape" it))
                        (Tk.items (rect_canvas s))
            /\ (rect_canvas t = rect_canvas s
                \/ (List.length (Tk.find_withtag "temp_shape" (rect_canvas t))
                    <= 2)%nat)).
  { intros t Ht. injection Ht as <-.
    split; [apply same_but_canvas |]. split; [reflexivity | left; reflexivity]. }
  destruct (start_x s) as [sx |]; [| apply Hsame; exact H].
  destruct (point_in_drawing_area (ev_x event) (ev_y event) s) as [[|] |];
    cbn [bind negb] in H; [| apply Hsame; exact H | discriminate].
  cbn [drawing_area set_rect_canvas] in H.
  destruct (drawing_area s) as [[[[x1 y1] x2] y2] |]; cbn [bind] in H;
    [| discriminate].
  cbn [current_tool set_rect_canvas start_y] in H.
  destruct (String.eqb (current_tool s) "rectangle").
  - destruct (start_y s) as [sy |]; cbn [bind] in H; [| discriminate].
    destruct (Tk.create "rectangle" _ _ _ _) as [i c] eqn:Hc in H.
    apply (f_equal snd) in Hc. cbn [snd rect_canvas set_rect_canvas] in Hc.
    injection H as <-. cbn [rect_canvas set_rect_canvas]. rewrite <- Hc.
    split; [reflexivity |]. split.
    + rewrite (filter_create_tagged "temp_shape") by reflexivity.
      apply filter_delete_withtag.
    + right. rewrite find_withtag_create, find_withtag_delete. cbn. lia.
  - destruct (String.eqb (current_tool s) "arrow").
    + destruct (start_y s) as [sy |]; cbn [bind] in H; [| discriminate].
      injection H as <-.
      match goal with
      | |- context [draw_arrow ?a ?b ?c ?d ?tags ?t] =>
          destruct (draw_arrow_canvas a b c d tags t)
            as (k1 & cs1 & o1 & k2 & cs2 & o2 & ->)
      end.
      cbn [rect_canvas set_rect_canvas].
      split; [reflexivity |]. split.
      * rewrite (filter_create_tagged "temp_shape") by reflexivity.
        rewrite (filter_create_tagged "temp_shape") by reflexivity.
        apply filter_delete_withtag.
      * right. rewrite !find_withtag_create, find_withtag_delete. cbn. lia.
    + injection H as <-. cbn [rect_canvas set_rect_canvas].
      split; [reflexivity |]. split; [apply filter_delete_withtag |].
      right. rewrite find_withtag_delete. cbn. lia.
Qed.

Lemma on_drag_drawing (event : Event) (s : App) :
  resizing s = None -> is_text_or_move (current_tool s) = false ->
  on_drag event s = draw_shape event s \/ on_drag event s = Some s.
Proof.
  intros Hres Htool. unfold on_drag. rewrite Hres, Htool.
  unfold is_text_or_move in Htool. apply orb_false_elim in Htool.
  destruct Htool as [_ Hmove]. rewrite Hmove, andb_false_r.
  destruct (negb _); cbn [negb]; auto.
Qed.

Lemma drag_all_preview (moves : list Event) (s s' : App) :
  resizing s = None -> is_text_or_move (current_tool s) = false ->
  drag_all moves s = Some s' ->
  s' = set_rect_canvas (rect_canvas s') s
  /\ filter (fun it => negb (Tk.has_tag "temp_shape" it))
            (Tk.items (rect_canvas s'))
     = filter (fun it => negb (Tk.has_tag "temp_shape" it))
              (Tk.items (rect_canvas s))
  /\ (rect_canvas s' = rect_canvas s
      \/ (List.length (Tk.find_withtag "temp_shape" (rect_canvas s')) <= 2)%nat).
Proof.
  revert s. induction moves as [| event moves IH]; intros s Hres Htool;
    cbn [drag_all].
  - intros H. injection H as <-. split; [apply same_but_canvas |].
    split; [reflexivity | left; reflexivity].
  - destruct (on_drag event s) as [s1 |] eqn:Hdrag; [| discriminate].
    cbn [bind]. intros Hrest.
    assert (Hstep : s1 = set_rect_canvas (rect_canvas s1) s
              /\ filter (fun it => negb (Tk.has_tag "temp_shape" it))
                        (Tk.items (rect_canvas s1))
                 = filter (fun it => negb (Tk.has_tag "temp_shape" it))
                          (Tk.items (rect_canvas s))
              /\ (rect_canvas s1 = rect_canvas s
                  \/ (List.length (Tk.find_withtag "temp_shape" (rect_canvas s1))
                      <= 2)%nat)).
    { destruct (on_drag_drawing event s Hres Htool) as [Heq | Heq];
        rewrite Heq in Hdrag.
      - apply (draw_shape_preview event). exact Hdrag.
      - injection Hdrag as <-. split; [apply same_but_canvas |].
        split; [reflexivity | left; reflexivity]. }
    destruct Hstep as (Hs1 & Hkeep1 & Hcount1).
    assert (Hres1 : resizing s1 = None) by (rewrite Hs1; exact Hres).
    assert (Htool1 : is_text_or_move (current_tool s1) = false)
      by (rewrite Hs1; exact Htool).
    destruct (IH s1 Hres1 Htool1 Hrest) as (Hs' & Hkeep & Hcount).
    split; [rewrite Hs', Hs1; reflexivity |].
    split; [rewrite Hkeep; exact Hkeep1 |].
    destruct Hcount as [Hsame | Hle]; [| right; exact Hle].
    rewrite Hsame. exact Hcount1.
Qed.

(** X15. The live preview does not pile up.  While the pointer moves
    with a drawing tool, whatever the number of motion events, the
    controller changes nothing but the canvas, the items that are not
    temporary shapes stay as they are and in their order, and at most two
    temporary items (the shaft and the head of an arrow) are on the
    canvas afterwards, unless no event redrew the preview. *)
Theorem preview_does_not_pile_up (moves : list Event) (s s' : App) :
  resizing s = None ->
  is_text_or_move (current_tool s) = false ->
  drag_all moves s = Some s' ->
  s' = set_rect_canvas (rect_canvas s') s
  /\ filter (fun it => negb (Tk.has_tag "temp_shape" it))
            (Tk.items (rect_canvas s'))
     = filter (fun it => negb (Tk.has_tag "temp_shape" it))
              (Tk.items (rect_canvas s))
  /\ (rect_canvas s' = rect_canvas s
      \/ (List.length (Tk.find_withtag "temp_shape" (rect_canvas s')) <= 2)%nat).
Proof. apply drag_all_preview. Qed.

(** ** A stroke, from the press to the release *)

Lemma draw_shape_total (event : Event) (s : App) :
  drawing_area s <> None -> start_y s <> None ->
  exists s', draw_shape event s = Some s'.
Proof.
  intros Harea Hsy. unfold draw_shape, point_in_drawing_area.
  destruct (start_x s) as [sx |]; [| eexists; reflexivity].
  cbn [drawing_area set_rect_canvas current_tool start_y].
  destruct (drawing_area s) as [[[[x1 y1] x2] y2] |]; [| contradiction].
  cbn [bind]. destruct (negb _); [eexists; reflexivity |].
  destruct (start_y s) as [sy |]; [| contradiction]. cbn [bind].
  destruct (String.eqb (current_tool s) "rectangle");
    [destruct (Tk.create _ _ _ _ _); eexists; reflexivity |].
  destruct (String.eqb (current_tool s) "arrow"); eexists; reflexivity.
Qed.

Lemma drag_all_total (moves : list Event) (s : App) :
  resizing s = None -> is_text_or_move (current_tool s) = false ->
  drawing_area s <> None -> start_y s <> None ->
  exists s', drag_all moves s = Some s'.
Proof.
  revert s. induction moves as [| event moves IH];
    intros s Hres Htool Harea Hsy; cbn [drag_all]; [eexists; reflexivity |].
  assert (Hstep : exists s1, on_drag event s = Some s1).
  { destruct (on_drag_drawing event s Hres Htool) as [-> | ->];
      [apply draw_shape_total; assumption | eexists; reflexivity]. }
  destruct Hstep as [s1 Hs1]. rewrite Hs1. cbn [bind].
  destruct (drag_all_preview [event] s s1 Hres Htool) as (Heq & _).
  { cbn [drag_all]. rewrite Hs1. reflexivity. }
  apply IH; rewrite Heq; assumption.
Qed.

Lemma on_release_drawing (event : Event) (s : App) :
  resizing s = None -> is_text_or_move (current_tool s) = false ->
  on_release event s = end_draw event s.
Proof.
  intros Hres Htool. unfold on_release. rewrite Hres, Htool.
  unfold is_text_or_move in Htool. apply orb_false_elim in Htool.
  destruct Htool as [_ Hmove]. rewrite Hmove, andb_false_r. reflexivity.
Qed.

Lemma drawing_tool (tool : string) :
  tool = "rectangle" \/ tool = "arrow" -> is_text_or_move tool = false.
Proof. intros [-> | ->]; reflexivity. Qed.

(** What [end_draw] commits when a stroke is pending and the release is
    inside the drawing area. *)
Lemma end_draw_commit (event : Event) (s : App) (sx sy x1 y1 x2 y2 : R) :
  start_x s = Some sx -> start_y s = Some sy ->
  drawing_area s = Some (x1, y1, x2, y2) ->
  current_tool s = "rectangle" \/ current_tool s = "arrow" ->
  x1 <= IZR (ev_x event) <= x2 -> y1 <= IZR (ev_y event) <= y2 ->
  exists s' h,
    end_draw event s = Some s'
    /\ undo_stack s'
       = undo_stack s
         ++ [Command.Draw
               (DrawCommand.mk (current_tool s) h (sx + x1) (sy + y1)
                  (IZR (ev_x event) - x1 + x1) (IZR (ev_y event) - y1 + y1)
                  (current_color s) (line_thickness s))]
    /\ h <> HNone
    /\ redo_stack s' = [] /\ start_x s' = None /\ start_y s' = None
    /\ Tk.find_withtag "temp_shape" (rect_canvas s') = [].
Proof.
  intros Hsx Hsy Harea Htool [Hx1 Hx2] [Hy1 Hy2].
  unfold end_draw, point_in_drawing_area. rewrite Hsx, Harea. cbn [bind].
  rewrite !Rleb_true by assumption. cbn [andb negb]. rewrite Hsy. cbn [bind].
  unfold DrawCommand.execute. cbn [DrawCommand.tool].
  destruct Htool as [Htool | Htool]; rewrite Htool;
    cbn [String.eqb Ascii.eqb Bool.eqb andb].
  - destruct (Tk.create "rectangle" _ _ _ _) as [i c] eqn:Hc.
    apply (f_equal snd) in Hc. cbn [snd] in Hc.
    cbn [DrawCommand.with_shape_id DrawCommand.shape_id bind].
    do 2 eexists. split; [reflexivity |].
    cbn [undo_stack redo_stack start_x start_y rect_canvas set_start_x
         set_start_y set_redo_stack set_undo_stack set_rect_canvas
         DrawCommand.tool DrawCommand.x1 DrawCommand.y1 DrawCommand.x2
         DrawCommand.y2 DrawCommand.color DrawCommand.thickness].
    split; [reflexivity |]. split; [discriminate |].
    split; [reflexivity |]. split; [reflexivity |]. split; [reflexivity |].
    rewrite find_withtag_addtag by reflexivity. rewrite <- Hc.
    rewrite find_withtag_create, find_withtag_delete. reflexivity.
  - destruct (Tk.create "line" _ _ _ _) as [shaft c] eqn:Hc.
    apply (f_equal snd) in Hc. cbn [snd] in Hc.
    destruct (Tk.create "polygon" _ _ _ _) as [head c'] eqn:Hc'.
    apply (f_equal snd) in Hc'. cbn [snd] in Hc'.
    cbn [DrawCommand.with_shape_id DrawCommand.shape_id bind fold_left].
    do 2 eexists. split; [reflexivity |].
    cbn [undo_stack redo_stack start_x start_y rect_canvas set_start_x
         set_start_y set_redo_stack set_undo_stack set_rect_canvas
         DrawCommand.tool DrawCommand.x1 DrawCommand.y1 DrawCommand.x2
         DrawCommand.y2 DrawCommand.color DrawCommand.thickness].
    split; [reflexivity |]. split; [discriminate |].
    split; [reflexivity |]. split; [reflexivity |]. split; [reflexivity |].
    rewrite !find_withtag_addtag by reflexivity. rewrite <- Hc', <- Hc.
    rewrite !find_withtag_create, find_withtag_delete. reflexivity.
Qed.

(** X16. A stroke runs from the press to the release.  With the rectangle
    or the arrow tool, a press that hits no handle, any motion, and a
    release inside the drawing area commit one command: it goes on top of
    the undo stack, the redo stack is emptied, the command carries the
    tool, the colour and the width in force, its first point is the
    press point (which need not be inside the drawing area) and its
    second point the release point, and no temporary shape is left on
    the canvas. *)
Theorem stroke_runs_from_press_to_release (press release : Event)
    (moves : list Event) (s : App) (x1 y1 x2 y2 : R) :
  drawing_area s = Some (x1, y1, x2, y2) ->
  current_tool s = "rectangle" \/ current_tool s = "arrow" ->
  resizing s = None ->
  hit_handle (rect_canvas s) (IZR (ev_x press)) (IZR (ev_y press))
    (resize_handles s) 0 = Some None ->
  x1 <= IZR (ev_x release) <= x2 ->
  y1 <= IZR (ev_y release) <= y2 ->
  exists s1 s2 s3 cmd,
    on_press press s = Some s1
    /\ drag_all moves s1 = Some s2
    /\ on_release release s2 = Some s3
    /\ undo_stack s3 = undo_stack s ++ [Command.Draw cmd]
    /\ redo_stack s3 = []
    /\ DrawCommand.tool cmd = current_tool s
    /\ DrawCommand.color cmd = current_color s
    /\ DrawCommand.thickness cmd = line_thickness s
    /\ DrawCommand.x1 cmd = IZR (ev_x press)
    /\ DrawCommand.y1 cmd = IZR (ev_y press)
    /\ DrawCommand.x2 cmd = IZR (ev_x release)
    /\ DrawCommand.y2 cmd = IZR (ev_y release)
    /\ DrawCommand.shape_id cmd <> HNone
    /\ Tk.find_withtag "temp_shape" (rect_canvas s3) = []
    /\ start_x s3 = None.
Proof.
  intros Harea Htool Hres Hhit Hx Hy.
  pose proof (drawing_tool _ Htool) as Hdraw.
  set (s1 := set_start_y (Some (IZR (ev_y press) - y1))
               (set_start_x (Some (IZR (ev_x press) - x1)) s)).
  assert (Hpress : on_press press s = Some s1).
  { unfold on_press. rewrite Hhit. cbn [bind].
    unfold is_text_or_move in Hdraw. apply orb_false_elim in Hdraw.
    destruct Hdraw as [Htext Hmove]. rewrite Hmove, Htext.
    unfold start_draw. rewrite Harea. reflexivity. }
  destruct (drag_all_total moves s1) as [s2 Hmoves];
    [exact Hres | exact Hdraw | unfold s1; cbn; rewrite Harea; discriminate
    | discriminate |].
  destruct (drag_all_preview moves s1 s2 Hres Hdraw Hmoves) as (Hs2 & _).
  destruct (end_draw_commit release s2 (IZR (ev_x press) - x1)
              (IZR (ev_y press) - y1) x1 y1 x2 y2)
    as (s3 & h & Hend & Hundo & Hh & Hredo & Hsx & _ & Htemp);
    try (rewrite Hs2; assumption); try (rewrite Hs2; reflexivity);
    try assumption.
  assert (Hkeep : current_tool s2 = current_tool s
                  /\ current_color s2 = current_color s
                  /\ line_thickness s2 = line_thickness s
                  /\ undo_stack s2 = undo_stack s)
    by (rewrite Hs2; repeat split; reflexivity).
  destruct Hkeep as (Ht2 & Hc2 & Hl2 & Hu2).
  rewrite Ht2, Hc2, Hl2, Hu2 in Hundo.
  exists s1, s2, s3.
  exists (DrawCommand.mk (current_tool s) h
            (IZR (ev_x press) - x1 + x1) (IZR (ev_y press) - y1 + y1)
            (IZR (ev_x release) - x1 + x1) (IZR (ev_y release) - y1 + y1)
            (current_color s) (line_thickness s)).
  split; [exact Hpress |]. split; [exact Hmoves |].
  split; [rewrite on_release_drawing; [exact Hend | |]; rewrite Hs2; assumption |].
  split; [exact Hundo |]. split; [exact Hredo |].
  cbn [DrawCommand.tool DrawCommand.color DrawCommand.thickness DrawCommand.x1
       DrawCommand.y1 DrawCommand.x2 DrawCommand.y2 DrawCommand.shape_id].
  split; [reflexivity |]. split; [reflexivity |]. split; [reflexivity |].
  split; [lra |]. split; [lra |]. split; [lra |]. split; [lra |].
  split; [exact Hh |]. split; [exact Htemp | exact Hsx].
Qed.

Lemma preview_does_not_pile_up_witness :
  exists s s',
    (s <- studio ;; on_press (click 10 10) (set_tool "rectangle" s)) = Some s
    /\ drag_all [click 20 20; click 30 30; click 40 40] s = Some s'
    /\ (List.length (Tk.find_withtag "temp_shape" (rect_canvas s')) <= 2)%nat
    /\ undo_stack s' = undo_stack s.
Proof.
  eexists. eexists.
  split; [unfold studio; stages |].
  match goal with
  | |- drag_all ?moves ?s = Some ?s' /\ _ =>
      eassert (Hrun : drag_all moves s = Some _)
        by (cbn [drag_all]; stages);
      destruct (preview_does_not_pile_up moves s _ eq_refl eq_refl Hrun)
        as (Hsame & _ & Hcount)
  end.
  split; [exact Hrun |].
  split; [| rewrite Hsame; reflexivity].
  destruct Hcount as [Heq | Hle]; [| exact Hle].
  exfalso. revert Heq. evaluate. intros Heq.
  apply (f_equal Tk.next_id) in Heq. discriminate.
Defined.

Lemma stroke_runs_from_press_to_release_witness :
  exists s s1 s2 s3 cmd,
    studio = Some s
    /\ on_press (click 150 150) (set_tool "arrow" s) = Some s1
    /\ drag_all [click 120 120; click 60 60] s1 = Some s2
    /\ on_release (click 50 50) s2 = Some s3
    /\ undo_stack s3 = [Command.Draw cmd]
    /\ (DrawCommand.x1 cmd, DrawCommand.y1 cmd) = (150, 150)
    /\ (DrawCommand.x2 cmd, DrawCommand.y2 cmd) = (50, 50).
Proof.
  eexists.
  eassert (Hstudio : studio = Some _) by (unfold studio; stages).
  match type of Hstudio with
  | _ = Some ?s =>
      destruct (stroke_runs_from_press_to_release (click 150 150) (click 50 50)
                  [click 120 120; click 60 60] (set_tool "arrow" s)
                  0 0 100 100)
        as (s1 & s2 & s3 & cmd & Hpress & Hmoves & Hrelease & Hundo & _ & _
            & _ & _ & Hx1 & Hy1 & Hx2 & Hy2 & _)
  end.
  - reflexivity.
  - right. reflexivity.
  - reflexivity.
  - evaluate. reflexivity.
  - cbn. lra.
  - cbn. lra.
  - exists s1, s2, s3, cmd.
    split; [exact Hstudio |]. split; [exact Hpress |].
    split; [exact Hmoves |]. split; [exact Hrelease |].
    split; [exact Hundo |].
    rewrite Hx1, Hy1, Hx2, Hy2. split; reflexivity.
Defined.

(** ** A text annotation, from the press to the commit *)


Lemma find_app_none {A : Type} (p : A -> bool) (l l' : list A) :
  find p l = None -> find p (l ++ l') = find p l'.
Proof.
  induction l as [| a l IH]; cbn; [reflexivity |].
  destruct (p a); [discriminate | exact IH].
Qed.







(** ** The resize handles *)

Lemma find_none_above (n i : nat) (l : list Tk.item) :
  Forall (fun it => (Tk.iid it < n)%nat) l -> (n <= i)%nat ->
  find (Tk.is_id i) l = None.
Proof.
  intros Hall Hle. induction Hall as [| it l Hit _ IH]; [reflexivity |].
  cbn. unfold Tk.is_id at 1.
  destruct (Nat.eqb_spec (Tk.iid it) i) as [Heq | _]; [lia | exact IH].
Qed.

Lemma handle_square (cx cy : R) :
  Tk.normalize "rectangle" [cx - 10 / 2; cy - 10 / 2; cx + 10 / 2; cy + 10 / 2]
  = [cx - 5; cy - 5; cx + 5; cy + 5].
Proof.
  cbn. unfold Rmin, Rmax.
  destruct (Rle_dec (cx - 10 / 2) (cx + 10 / 2)); [| lra].
  destruct (Rle_dec (cy - 10 / 2) (cy + 10 / 2)); [| lra].
  repeat (f_equal; try lra).
Qed.

(** The handles [setup_drawing_mode] creates: four new items, squares of
    side 10 centred on the corners of the drawing area. *)
Lemma setup_drawing_mode_handles (x1 y1 x2 y2 : R) (t : App) :
  Tk.wf (rect_canvas t) ->
  let s := setup_drawing_mode x1 y1 x2 y2 t in
  exists h0 h1 h2 h3,
    resize_handles s = [h0; h1; h2; h3]
    /\ Tk.coords h0 (rect_canvas s) = [x1 - 5; y1 - 5; x1 + 5; y1 + 5]
    /\ Tk.coords h1 (rect_canvas s) = [x2 - 5; y1 - 5; x2 + 5; y1 + 5]
    /\ Tk.coords h2 (rect_canvas s) = [x2 - 5; y2 - 5; x2 + 5; y2 + 5]
    /\ Tk.coords h3 (rect_canvas s) = [x1 - 5; y2 - 5; x1 + 5; y2 + 5].
Proof.
  intros [_ Hall]. cbv zeta.
  set (n := Tk.next_id (rect_canvas t)).
  exists n, (S n), (S (S n)), (S (S (S n))).
  unfold setup_drawing_mode, create_resize_handles.
  cbn -[Tk.normalize Rdiv]. fold n.
  assert (Hold : forall i, (n <= i)%nat ->
            find (Tk.is_id i)
              (map (fun it =>
                      if Tk.is_id (dimension_text t) it
                      then Tk.mkItem (Tk.iid it) (Tk.ikind it) (Tk.icoords it)
                             (Tk.set_opt "state" (Tk.VStr "hidden") (Tk.iopts it))
                             (Tk.itags it)
                      else it) (Tk.items (rect_canvas t))) = None).
  { intros i Hi. apply (find_none_above n); [| exact Hi].
    apply Forall_map. eapply Forall_impl; [| exact Hall].
    intros it Hit. destruct (Tk.is_id _ it); exact Hit. }
  split; [reflexivity |].
  unfold Tk.coords. cbn -[Tk.normalize Rdiv].
  rewrite <- !app_assoc. cbn [app].
  rewrite (find_app_none (Tk.is_id n)) by (apply Hold; lia).
  rewrite (find_app_none (Tk.is_id (S n))) by (apply Hold; lia).
  rewrite (find_app_none (Tk.is_id (S (S n)))) by (apply Hold; lia).
  rewrite (find_app_none (Tk.is_id (S (S (S n))))) by (apply Hold; lia).
  cbn -[Tk.normalize Rdiv]. unfold Tk.is_id. cbn -[Tk.normalize Rdiv].
  rewrite !Nat.eqb_refl.
  replace (Nat.eqb n (S n)) with false by (symmetry; apply Nat.eqb_neq; lia).
  replace (Nat.eqb n (S (S n))) with false
    by (symmetry; apply Nat.eqb_neq; lia).
  replace (Nat.eqb n (S (S (S n)))) with false
    by (symmetry; apply Nat.eqb_neq; lia).
  rewrite !handle_square. repeat split; reflexivity.
Qed.

Lemma on_handle_test (cx cy x y : R) :
  Rleb (cx - 5) x && Rleb x (cx + 5) && Rleb (cy - 5) y && Rleb y (cy + 5)
  = true <-> on_handle cx cy x y.
Proof.
  unfold on_handle, Rleb.
  destruct (Rle_dec (cx - 5) x), (Rle_dec x (cx + 5)), (Rle_dec (cy - 5) y),
    (Rle_dec y (cy + 5)); cbn; split; try discriminate; try tauto;
    intros [[? ?] [? ?]]; contradiction.
Qed.

Lemma hit_handle_four (c : Tk.canvas) (x y : R) (h0 h1 h2 h3 : nat)
    (a0 b0 a1 b1 a2 b2 a3 b3 : R) :
  Tk.coords h0 c = [a0 - 5; b0 - 5; a0 + 5; b0 + 5] ->
  Tk.coords h1 c = [a1 - 5; b1 - 5; a1 + 5; b1 + 5] ->
  Tk.coords h2 c = [a2 - 5; b2 - 5; a2 + 5; b2 + 5] ->
  Tk.coords h3 c = [a3 - 5; b3 - 5; a3 + 5; b3 + 5] ->
  on_handle a0 b0 x y \/ on_handle a1 b1 x y \/ on_handle a2 b2 x y
  \/ on_handle a3 b3 x y ->
  exists i, hit_handle c x y [h0; h1; h2; h3] 0 = Some (Some i) /\ (i < 4)%nat.
Proof.
  intros H0 H1 H2 H3 Hon. cbn [hit_handle]. rewrite H0, H1, H2, H3.
  destruct (Rleb (a0 - 5) x && Rleb x (a0 + 5) && Rleb (b0 - 5) y
            && Rleb y (b0 + 5)) eqn:T0; [exists 0%nat; split; [reflexivity | lia] |].
  destruct (Rleb (a1 - 5) x && Rleb x (a1 + 5) && Rleb (b1 - 5) y
            && Rleb y (b1 + 5)) eqn:T1; [exists 1%nat; split; [reflexivity | lia] |].
  destruct (Rleb (a2 - 5) x && Rleb x (a2 + 5) && Rleb (b2 - 5) y
            && Rleb y (b2 + 5)) eqn:T2; [exists 2%nat; split; [reflexivity | lia] |].
  destruct (Rleb (a3 - 5) x && Rleb x (a3 + 5) && Rleb (b3 - 5) y
            && Rleb y (b3 + 5)) eqn:T3; [exists 3%nat; split; [reflexivity | lia] |].
  exfalso. destruct Hon as [Hon | [Hon | [Hon | Hon]]];
    apply on_handle_test in Hon; congruence.
Qed.

Lemma small_area_is_all_handles (x1 y1 x2 y2 x y : R) :
  x2 - x1 <= 10 -> y2 - y1 <= 10 -> x1 <= x <= x2 -> y1 <= y <= y2 ->
  on_handle x1 y1 x y \/ on_handle x2 y1 x y \/ on_handle x2 y2 x y
  \/ on_handle x1 y2 x y.
Proof.
  intros Hw Hh Hx Hy. unfold on_handle.
  destruct (Rle_dec x (x1 + 5)), (Rle_dec y (y1 + 5)).
  - left. lra.
  - right. right. right. lra.
  - right. left. lra.
  - right. right. left. lra.
Qed.

(** X18. The handles come first.  In the drawing mode entered on a
    canvas whose ids are in order, a press within 5 pixels, on both axes,
    of a corner of the drawing area starts a resize, whichever tool is
    selected: no stroke, no drag and no text box is started and the
    stacks are untouched.  A drawing area of at most 10 by 10 pixels is
    covered by its handles, so every press inside it starts a resize and
    it cannot be annotated. *)
Theorem press_on_a_handle_resizes (event : Event) (tool : string) (t : App)
    (x1 y1 x2 y2 : R) :
  Tk.wf (rect_canvas t) ->
  (on_handle x1 y1 (IZR (ev_x event)) (IZR (ev_y event))
   \/ on_handle x2 y1 (IZR (ev_x event)) (IZR (ev_y event))
   \/ on_handle x2 y2 (IZR (ev_x event)) (IZR (ev_y event))
   \/ on_handle x1 y2 (IZR (ev_x event)) (IZR (ev_y event)))
  \/ (x2 - x1 <= 10 /\ y2 - y1 <= 10
      /\ x1 <= IZR (ev_x event) <= x2 /\ y1 <= IZR (ev_y event) <= y2) ->
  exists s' i,
    on_press event (set_tool tool (setup_drawing_mode x1 y1 x2 y2 t)) = Some s'
    /\ resizing s' = Some i /\ (i < 4)%nat
    /\ start_x s' = start_x t /\ start_y s' = start_y t
    /\ dragging s' = dragging t
    /\ text_box s' = text_box t /\ text_entry s' = text_entry t
    /\ undo_stack s' = undo_stack t /\ redo_stack s' = redo_stack t.
Proof.
  intros Hwf Hnear.
  assert (Hon : on_handle x1 y1 (IZR (ev_x event)) (IZR (ev_y event))
                \/ on_handle x2 y1 (IZR (ev_x event)) (IZR (ev_y event))
                \/ on_handle x2 y2 (IZR (ev_x event)) (IZR (ev_y event))
                \/ on_handle x1 y2 (IZR (ev_x event)) (IZR (ev_y event))).
  { destruct Hnear as [Hon | (Hw & Hh & Hx & Hy)]; [exact Hon |].
    apply small_area_is_all_handles; assumption. }
  destruct (setup_drawing_mode_handles x1 y1 x2 y2 t Hwf)
    as (h0 & h1 & h2 & h3 & Hhandles & H0 & H1 & H2 & H3).
  destruct (hit_handle_four _ _ _ h0 h1 h2 h3 _ _ _ _ _ _ _ _ H0 H1 H2 H3 Hon)
    as (i & Hhit & Hi).
  assert (Hframe : start_x (setup_drawing_mode x1 y1 x2 y2 t) = start_x t
                   /\ start_y (setup_drawing_mode x1 y1 x2 y2 t) = start_y t
                   /\ dragging (setup_drawing_mode x1 y1 x2 y2 t) = dragging t
                   /\ text_box (setup_drawing_mode x1 y1 x2 y2 t) = text_box t
                   /\ text_entry (setup_drawing_mode x1 y1 x2 y2 t)
                      = text_entry t
                   /\ undo_stack (setup_drawing_mode x1 y1 x2 y2 t)
                      = undo_stack t
                   /\ redo_stack (setup_drawing_mode x1 y1 x2 y2 t)
                      = redo_stack t)
    by (repeat split; reflexivity).
  revert Hhandles Hhit Hframe.
  generalize (setup_drawing_mode x1 y1 x2 y2 t). intros s0 Hhandles Hhit Hframe.
  destruct Hframe as (<- & <- & <- & <- & <- & <- & <-).
  unfold on_press, set_tool.
  change (rect_canvas (set_current_tool tool s0)) with (rect_canvas s0).
  change (resize_handles (set_current_tool tool s0)) with (resize_handles s0).
  rewrite Hhandles, Hhit. cbn [bind].
  do 2 eexists. split; [reflexivity |].
  split; [reflexivity |]. split; [exact Hi |].
  repeat split; reflexivity.
Qed.

Lemma press_on_a_handle_resizes_witness :
  exists s' i,
    on_press (click 54 54)
      (set_tool "rectangle"
         (setup_drawing_mode 50 50 58 58
            (initiate_screenshot 200 200 (blank 200 200) init))) = Some s'
    /\ resizing s' = Some i
    /\ undo_stack s' = [].
Proof.
  destruct (press_on_a_handle_resizes (click 54 54) "rectangle"
              (initiate_screenshot 200 200 (blank 200 200) init) 50 50 58 58)
    as (s' & i & Hpress & Hres & _ & _ & _ & _ & _ & _ & Hundo & _).
  - split; cbn; [lia | repeat constructor; cbn; lia].
  - right. cbn. lra.
  - exists s', i. split; [exact Hpress |]. split; [exact Hres | exact Hundo].
Defined.

(** ** The exported image *)

Lemma Rleb_IZR (a b : Z) : Rleb (IZR a) (IZR b) = (a <=? b)%Z.
Proof.
  unfold Rleb. destruct (Rle_dec (IZR a) (IZR b)) as [H | H];
    destruct (Z.leb_spec a b) as [H' | H']; try reflexivity.
  - apply le_IZR in H. lia.
  - exfalso. apply H. apply IZR_le. exact H'.
Qed.

Lemma Rltb_IZR (a b : Z) : Rltb (IZR a) (IZR b) = (a <? b)%Z.
Proof.
  unfold Rltb. destruct (Rlt_dec (IZR a) (IZR b)) as [H | H];
    destruct (Z.ltb_spec a b) as [H' | H']; try reflexivity.
  - apply lt_IZR in H. lia.
  - exfalso. apply H. apply IZR_lt. exact H'.
Qed.

Ltac Zdecide :=
  repeat match goal with
  | |- context [(?a <=? ?b)%Z] =>
      first [rewrite (proj2 (Z.leb_le a b)) by lia
            | rewrite (proj2 (Z.leb_gt a b)) by lia]
  | |- context [(?a <? ?b)%Z] =>
      first [rewrite (proj2 (Z.ltb_lt a b)) by lia
            | rewrite (proj2 (Z.ltb_ge a b)) by lia]
  end.

(** X19. Without annotations the exported image is the selection in a
    frame.  For a drawing area with whole-pixel corners and an empty undo
    stack, the image put on the clipboard is two pixels wider and higher
    than the selection, its pixel at [(i + 1, j + 1)] is the pixel of the
    captured screen at [(i, j)] of the selection, and the pixels of its
    outermost rows and columns have the current colour. *)
Theorem export_without_annotations (E : PIL.externals) (s : App)
    (a b c d : Z) (full : PIL.image) :
  drawing_area s = Some (IZR a, IZR b, IZR c, IZR d) ->
  (a <= c)%Z -> (b <= d)%Z ->
  full_screenshot s = Some full ->
  undo_stack s = [] ->
  exists img,
    flatten E s = Some img
    /\ PIL.width img = (c - a + 2)%Z /\ PIL.height img = (d - b + 2)%Z
    /\ (forall i j,
          (0 <= i < c - a)%Z -> (0 <= j < d - b)%Z ->
          PIL.getpixel img (i + 1) (j + 1) = PIL.getpixel full (a + i) (b + j))
    /\ (forall i j,
          (0 <= i < c - a + 2)%Z -> (0 <= j < d - b + 2)%Z ->
          (i = 0 \/ i = c - a + 1 \/ j = 0 \/ j = d - b + 1)%Z ->
          PIL.getpixel img i j = PIL.getrgb E (current_color s)).
Proof.
  intros Harea Hac Hbd Hfull Hundo. unfold flatten.
  rewrite Harea, Hfull, Hundo. cbn [bind flat_map fold_left].
  rewrite (Rmin_left (IZR a) (IZR c)) by (apply IZR_le; exact Hac).
  rewrite (Rmin_left (IZR b) (IZR d)) by (apply IZR_le; exact Hbd).
  rewrite (Rmax_right (IZR a) (IZR c)) by (apply IZR_le; exact Hac).
  rewrite (Rmax_right (IZR b) (IZR d)) by (apply IZR_le; exact Hbd).
  eexists. split; [reflexivity |].
  unfold PIL.crop, PIL.rectangle, PIL.paste, PIL.new, PIL.getpixel, PIL.inside.
  cbn [PIL.width PIL.height PIL.px fst snd].
  rewrite !round_IZR.
  split; [lia |]. split; [lia |]. split.
  - intros i j Hi Hj.
    replace (i + 1 - 1)%Z with i by lia. replace (j + 1 - 1)%Z with j by lia.
    replace (i + a)%Z with (a + i)%Z by lia.
    replace (j + b)%Z with (b + j)%Z by lia.
    assert (Hri : 0 <= IZR i /\ IZR i + 1 <= IZR c - IZR a)
      by (rewrite <- minus_IZR, <- (plus_IZR i 1);
          split; apply IZR_le; lia).
    assert (Hrj : 0 <= IZR j /\ IZR j + 1 <= IZR d - IZR b)
      by (rewrite <- minus_IZR, <- (plus_IZR j 1);
          split; apply IZR_le; lia).
    rewrite !minus_IZR, !plus_IZR, !mult_IZR, !minus_IZR. Rdecide.
    cbn [andb orb]. Zdecide. cbn [andb]. reflexivity.
  - intros i j Hi Hj Hborder.
    assert (Hri : 0 <= IZR i <= IZR c - IZR a + 1)
      by (rewrite <- minus_IZR, <- (plus_IZR (c - a) 1);
          split; apply IZR_le; lia).
    assert (Hrj : 0 <= IZR j <= IZR d - IZR b + 1)
      by (rewrite <- minus_IZR, <- (plus_IZR (d - b) 1);
          split; apply IZR_le; lia).
    Zdecide. cbn [andb].
    rewrite !minus_IZR, !plus_IZR, !mult_IZR, !minus_IZR.
    destruct Hborder as [-> | [-> | [-> | ->]]];
      rewrite ?plus_IZR, ?minus_IZR; Rdecide; cbn [andb orb];
      rewrite ?orb_true_r; reflexivity.
Qed.

Lemma export_without_annotations_witness :
  exists s img,
    studio = Some s
    /\ flatten palette s = Some img
    /\ PIL.width img = 102%Z
    /\ PIL.getpixel img 1 1 = PIL.getpixel (blank 200 200) 0 0
    /\ PIL.getpixel img 0 57 = (255, 0, 0, 255)%Z.
Proof.
  eexists.
  eassert (Hstudio : studio = Some _) by (unfold studio; stages).
  match type of Hstudio with
  | _ = Some ?s =>
      destruct (export_without_annotations palette s 0 0 100 100
                  (blank 200 200) eq_refl)
        as (img & Hflat & Hw & _ & Hin & Hborder);
        [lia | lia | reflexivity | reflexivity |]
  end.
  exists img. split; [exact Hstudio |]. split; [exact Hflat |].
  split; [exact Hw |]. split.
  - apply (Hin 0%Z 0%Z); lia.
  - rewrite (Hborder 0%Z 57%Z); [reflexivity | lia | lia | left; reflexivity].
Defined.

(** ** Resizing the drawing area *)

Lemma normalize_ordered (kind : string) (a b c d : R) :
  Tk.normalize kind [Rmin a c; Rmin b d; Rmax a c; Rmax b d]
  = [Rmin a c; Rmin b d; Rmax a c; Rmax b d].
Proof.
  unfold Tk.normalize. destruct (String.eqb kind "rectangle"); [| reflexivity].
  assert (H : forall u v, Rmin (Rmin u v) (Rmax u v) = Rmin u v
                          /\ Rmax (Rmin u v) (Rmax u v) = Rmax u v).
  { intros u v. unfold Rmin, Rmax. destruct (Rle_dec u v) as [Huv | Huv].
    - destruct (Rle_dec u v); [split; reflexivity | contradiction].
    - destruct (Rle_dec v u); [split; reflexivity | lra]. }
  destruct (H a c) as [-> ->]. destruct (H b d) as [-> ->]. reflexivity.
Qed.

Lemma update_resize_handles_coords (x1 y1 x2 y2 : R) (s : App) (j : nat) :
  ~ In j (resize_handles s) ->
  Tk.coords j (rect_canvas (update_resize_handles x1 y1 x2 y2 s))
  = Tk.coords j (rect_canvas s).
Proof.
  intros Hj. unfold update_resize_handles. cbn [rect_canvas set_rect_canvas].
  apply coords_fold_other. intros c [handle [x y]] Hin.
  apply coords_set_coords_other. intros Heq. subst handle.
  apply Hj. eapply in_combine_l. exact Hin.
Qed.

(** One event of a resize: the new drawing area is spanned by the
    corner opposite to the handle and the pointer, and the selection
    rectangle is redrawn on it. *)
Lemma resize_selection_spec (x y : Z) (s : App) (k : nat) (x1 y1 x2 y2 : R) :
  resizing s = Some k -> (k < 4)%nat ->
  Tk.coords (selection_rect s) (rect_canvas s) = [x1; y1; x2; y2] ->
  ~ In (selection_rect s)
       (dimension_text s :: resize_handles s ++ overlay_rectangles s) ->
  List.length (overlay_rectangles s) = 4%nat ->
  exists s',
    resize_selection x y s = Some s'
    /\ drawing_area s' = Some (span (anchor k (x1, y1, x2, y2)) (IZR x, IZR y))
    /\ (let '(a, b, c, d) := span (anchor k (x1, y1, x2, y2)) (IZR x, IZR y) in
        Tk.coords (selection_rect s') (rect_canvas s') = [a; b; c; d])
    /\ s' = set_rect_canvas (rect_canvas s')
              (set_drawing_area (drawing_area s') s).
Proof.
  intros Hres Hk Hcoords Hsep Hov. unfold resize_selection.
  rewrite Hcoords, Hres.
  assert (Hfound : exists it,
            find (Tk.is_id (selection_rect s)) (Tk.items (rect_canvas s))
            = Some it).
  { destruct (coords_found (selection_rect s) (rect_canvas s)) as (it & H & _);
      [rewrite Hcoords; discriminate | exists it; exact H]. }
  destruct Hfound as [it Hfind].
  assert (Hparts : selection_rect s <> dimension_text s
                   /\ ~ In (selection_rect s) (resize_handles s)
                   /\ ~ In (selection_rect s)
                          (dimension_text s :: overlay_rectangles s)).
  { split; [intros Heq; apply Hsep; left; symmetry; exact Heq |].
    split; [intros Hin; apply Hsep; right; apply in_or_app; left; exact Hin |].
    intros [Heq | Hin]; apply Hsep; [left; exact Heq |].
    right. apply in_or_app. right. exact Hin. }
  destruct Hparts as (Hdim & Hhandles & Hoverlay).
  set (corner := match k with
                 | 0%nat => _ | 1%nat => _ | 2%nat => _ | 3%nat => _ | _ => _
                 end).
  assert (Hcorner : exists ax ay,
            anchor k (x1, y1, x2, y2) = (ax, ay)
            /\ (let '(r1, r2, r3, r4) := corner in
                Rmin r1 r3 = Rmin ax (IZR x) /\ Rmin r2 r4 = Rmin ay (IZR y)
                /\ Rmax r1 r3 = Rmax ax (IZR x)
                /\ Rmax r2 r4 = Rmax ay (IZR y))).
  { unfold corner.
    destruct k as [| [| [| [| k]]]]; [| | | | lia]; cbn [anchor];
      do 2 eexists; (split; [reflexivity |]);
      repeat split; try reflexivity; try apply Rmin_comm; apply Rmax_comm. }
  destruct Hcorner as (ax & ay & Hanchor & Hbox).
  destruct corner as [[[r1 r2] r3] r4]. destruct Hbox as (Ha & Hb & Hc & Hd).
  rewrite Hanchor. unfold span. cbn [fst snd bind].
  rewrite Ha, Hb, Hc, Hd.
  set (s1 := set_rect_canvas _ s).
  set (s2 := update_resize_handles _ _ _ _ s1).
  destruct (update_overlay_some (Rmin ax (IZR x)) (Rmin ay (IZR y))
              (Rmax ax (IZR x)) (Rmax ay (IZR y)) s2) as [c3 Hc3];
    [exact Hov |].
  rewrite Hc3. cbn [bind]. eexists. split; [reflexivity |].
  split; [reflexivity |]. split; [| reflexivity].
  cbn [rect_canvas set_rect_canvas selection_rect set_drawing_area
       dimension_text].
  change (selection_rect s2) with (selection_rect s).
  change (dimension_text s2) with (dimension_text s).
  rewrite coords_set_coords_other by (intros Heq; apply Hdim; symmetry; exact Heq).
  rewrite coords_itemconfig.
  pose proof (update_overlay_coords _ _ _ _ _ _ (selection_rect s) Hc3 Hoverlay)
    as Hkeep.
  cbn [rect_canvas set_rect_canvas] in Hkeep. rewrite Hkeep.
  unfold s2. rewrite update_resize_handles_coords by exact Hhandles.
  unfold s1. cbn [rect_canvas set_rect_canvas].
  rewrite (coords_set_coords_same _ _ _ it Hfind).
  apply normalize_ordered.
Qed.

Lemma on_drag_resizing (event : Event) (s : App) (k : nat) :
  Z.land (ev_state event) 256 <> 0%Z -> resizing s = Some k ->
  on_drag event s = resize_selection (ev_x event) (ev_y event) s.
Proof.
  intros Hheld Hres. unfold on_drag. rewrite Hres.
  apply Z.eqb_neq in Hheld. rewrite Hheld. reflexivity.
Qed.

(** X20. One motion event of a resize.  With the button held and a
    handle grabbed, the new drawing area is the rectangle spanned by the
    corner opposite to the handle and the pointer, its corners ordered;
    the selection rectangle on the canvas is redrawn on exactly that
    area, and nothing but the canvas and the drawing area changes. *)
Theorem resize_spans_anchor_and_pointer (event : Event) (s : App) (k : nat)
    (x1 y1 x2 y2 : R) :
  Z.land (ev_state event) 256 <> 0%Z ->
  resizing s = Some k -> (k < 4)%nat ->
  Tk.coords (selection_rect s) (rect_canvas s) = [x1; y1; x2; y2] ->
  ~ In (selection_rect s)
       (dimension_text s :: resize_handles s ++ overlay_rectangles s) ->
  List.length (overlay_rectangles s) = 4%nat ->
  exists s' a b c d,
    on_drag event s = Some s'
    /\ (a, b, c, d) = span (anchor k (x1, y1, x2, y2)) (pointer event)
    /\ drawing_area s' = Some (a, b, c, d)
    /\ Tk.coords (selection_rect s') (rect_canvas s') = [a; b; c; d]
    /\ a <= c /\ b <= d
    /\ s' = set_rect_canvas (rect_canvas s')
              (set_drawing_area (drawing_area s') s).
Proof.
  intros Hheld Hres Hk Hcoords Hsep Hov.
  destruct (resize_selection_spec (ev_x event) (ev_y event) s k x1 y1 x2 y2
              Hres Hk Hcoords Hsep Hov) as (s' & Hrun & Harea & Hsel & Hs').
  rewrite (on_drag_resizing event s k Hheld Hres).
  change (IZR (ev_x event), IZR (ev_y event)) with (pointer event) in *.
  destruct (span (anchor k (x1, y1, x2, y2)) (pointer event))
    as [[[a b] c] d] eqn:Hspan.
  exists s', a, b, c, d.
  split; [exact Hrun |]. split; [reflexivity |]. split; [exact Harea |].
  split; [exact Hsel |].
  unfold span in Hspan. injection Hspan as <- <- <- <-.
  split; [| split; [| exact Hs']].
  - unfold Rmin, Rmax. destruct (Rle_dec _ _); lra.
  - unfold Rmin, Rmax. destruct (Rle_dec _ _); lra.
Qed.

Lemma anchor_of_span (k : nat) (p q : R * R) :
  (k < 4)%nat ->
  (on_its_side k p q -> anchor k (span p q) = p)
  /\ (crossed k p q -> anchor k (span p q) = q).
Proof.
  intros Hk. destruct p as [px py], q as [qx qy].
  unfold on_its_side, crossed, span. cbn [fst snd].
  destruct k as [| [| [| [| k]]]]; [| | | | lia]; cbn [toward anchor fst snd];
    (split; intros [Hx Hy]; unfold Rmin, Rmax;
     destruct (Rle_dec px qx), (Rle_dec py qy); f_equal; lra).
Qed.

(** X21. A resize that crosses the opposite corner loses it.  Of two
    successive motion events of a resize, the second spans the drawing
    area from the corner opposite to the handle as long as the first
    kept the pointer on the handle's side of that corner; but once the
    first has taken the pointer past that corner on both axes, the corner
    is forgotten and the second spans the area from where the pointer was
    at the first. *)
Theorem resize_across_the_corner_loses_it (e1 e2 : Event) (s : App)
    (k : nat) (x1 y1 x2 y2 : R) :
  Z.land (ev_state e1) 256 <> 0%Z ->
  Z.land (ev_state e2) 256 <> 0%Z ->
  resizing s = Some k -> (k < 4)%nat ->
  Tk.coords (selection_rect s) (rect_canvas s) = [x1; y1; x2; y2] ->
  ~ In (selection_rect s)
       (dimension_text s :: resize_handles s ++ overlay_rectangles s) ->
  List.length (overlay_rectangles s) = 4%nat ->
  exists s1 s2,
    on_drag e1 s = Some s1
    /\ on_drag e2 s1 = Some s2
    /\ (on_its_side k (anchor k (x1, y1, x2, y2)) (pointer e1) ->
        drawing_area s2
        = Some (span (anchor k (x1, y1, x2, y2)) (pointer e2)))
    /\ (crossed k (anchor k (x1, y1, x2, y2)) (pointer e1) ->
        drawing_area s2 = Some (span (pointer e1) (pointer e2))).
Proof.
  intros Hheld1 Hheld2 Hres Hk Hcoords Hsep Hov.
  destruct (resize_selection_spec (ev_x e1) (ev_y e1) s k x1 y1 x2 y2
              Hres Hk Hcoords Hsep Hov) as (s1 & Hrun1 & Harea1 & Hsel1 & Hs1).
  change (IZR (ev_x e1), IZR (ev_y e1)) with (pointer e1) in *.
  set (A := anchor k (x1, y1, x2, y2)) in *.
  destruct (span A (pointer e1)) as [[[a b] c] d] eqn:Hspan.
  assert (Hsame : resizing s1 = Some k
                  /\ selection_rect s1 = selection_rect s
                  /\ dimension_text s1 = dimension_text s
                  /\ resize_handles s1 = resize_handles s
                  /\ overlay_rectangles s1 = overlay_rectangles s)
    by (rewrite Hs1; repeat split; try reflexivity; exact Hres).
  destruct Hsame as (Hres1 & Hsr & Hdt & Hrh & Hor).
  destruct (resize_selection_spec (ev_x e2) (ev_y e2) s1 k a b c d)
    as (s2 & Hrun2 & Harea2 & _);
    [exact Hres1 | exact Hk | exact Hsel1
    | rewrite Hsr, Hdt, Hrh, Hor; exact Hsep | rewrite Hor; exact Hov |].
  change (IZR (ev_x e2), IZR (ev_y e2)) with (pointer e2) in *.
  exists s1, s2.
  split; [rewrite (on_drag_resizing e1 s k Hheld1 Hres); exact Hrun1 |].
  split; [rewrite (on_drag_resizing e2 s1 k Hheld2 Hres1); exact Hrun2 |].
  rewrite Harea2, <- Hspan.
  destruct (anchor_of_span k A (pointer e1) Hk) as [Hkept Hlost].
  split; intros H; [rewrite (Hkept H) | rewrite (Hlost H)]; reflexivity.
Qed.

Lemma resize_spans_anchor_and_pointer_witness :
  exists s s',
    (s <- drawn ;; on_press (click 100 100) s) = Some s
    /\ on_drag (click 150 130) s = Some s'
    /\ drawing_area s' = Some (span (0, 0) (150, 130))
    /\ undo_stack s' = undo_stack s.
Proof.
  eexists.
  eassert (Hs : (s <- drawn ;; on_press (click 100 100) s) = Some _)
    by (unfold drawn, studio; stages).
  match type of Hs with
  | _ = Some ?s =>
      destruct (resize_spans_anchor_and_pointer (click 150 130) s 2 0 0 100 100)
        as (s' & a & b & c & d & Hrun & Hspan & Harea & _ & _ & _ & Hs')
  end.
  - cbn. discriminate.
  - reflexivity.
  - lia.
  - evaluate. reflexivity.
  - cbn. lia.
  - reflexivity.
  - exists s'. split; [exact Hs |]. split; [exact Hrun |].
    split; [rewrite Harea, Hspan; reflexivity |].
    rewrite Hs'. reflexivity.
Defined.

Lemma resize_across_the_corner_loses_it_witness :
  exists s s1 s2,
    (s <- drawn ;; on_press (click 100 100) s) = Some s
    /\ on_drag (click (-10) (-20)) s = Some s1
    /\ on_drag (click 30 40) s1 = Some s2
    /\ drawing_area s2 = Some (span (-10, -20) (30, 40)).
Proof.
  eexists.
  eassert (Hs : (s <- drawn ;; on_press (click 100 100) s) = Some _)
    by (unfold drawn, studio; stages).
  match type of Hs with
  | _ = Some ?s =>
      destruct (resize_across_the_corner_loses_it (click (-10) (-20))
                  (click 30 40) s 2 0 0 100 100)
        as (s1 & s2 & Hrun1 & Hrun2 & _ & Hlost)
  end.
  - cbn. discriminate.
  - cbn. discriminate.
  - reflexivity.
  - lia.
  - evaluate. reflexivity.
  - cbn. lia.
  - reflexivity.
  - exists s1, s2. split; [exact Hs |]. split; [exact Hrun1 |].
    split; [exact Hrun2 |]. apply Hlost.
    unfold crossed. cbn. lra.
Defined.

(** ** Dragging the drawing area *)

Lemma fold_move_items (dx dy : R) (ids : list nat) (c : Tk.canvas) :
  NoDup ids ->
  Tk.items (fold_left (fun c item => Tk.move item dx dy c) ids c)
  = map (fun it => if existsb (Nat.eqb (Tk.iid it)) ids
                   then moved dx dy it else it) (Tk.items c).
Proof.
  intros Hnodup. revert c.
  induction Hnodup as [| i ids Hnotin _ IH]; intros c; cbn [fold_left].
  - cbn. symmetry. apply map_id.
  - rewrite IH. unfold Tk.move, Tk.update. cbn [Tk.items].
    rewrite map_map. apply map_ext. intros it. cbn [existsb].
    unfold Tk.is_id. destruct (Nat.eqb_spec (Tk.iid it) i) as [Heq | Hne].
    + cbn [orb Tk.iid].
      assert (Hno : existsb (Nat.eqb (Tk.iid it)) ids = false).
      { apply not_true_is_false. intros Hex. apply existsb_exists in Hex.
        destruct Hex as (j & Hj & Hij). apply Nat.eqb_eq in Hij.
        apply Hnotin. rewrite <- Heq, Hij. exact Hj. }
      rewrite Hno. reflexivity.
    + cbn [orb]. reflexivity.
Qed.

Lemma moved_has_tag (t : string) (dx dy : R) (it : Tk.item) :
  Tk.has_tag t (moved dx dy it) = Tk.has_tag t it.
Proof. reflexivity. Qed.

(** Moving every item that carries a tag moves exactly the items that
    carry it. *)
Lemma move_tagged (t : string) (dx dy : R) (c : Tk.canvas) :
  NoDup (Tk.find_withtag t c) ->
  let c' := fold_left (fun c item => Tk.move item dx dy c)
              (Tk.find_withtag t c) c in
  filter (Tk.has_tag t) (Tk.items c')
  = map (moved dx dy) (filter (Tk.has_tag t) (Tk.items c))
  /\ map Tk.iid (Tk.items c') = map Tk.iid (Tk.items c)
  /\ map Tk.itags (Tk.items c') = map Tk.itags (Tk.items c).
Proof.
  intros Hnodup. cbv zeta. rewrite (fold_move_items dx dy _ c Hnodup).
  split; [| split].
  - unfold Tk.find_withtag.
    assert (Hin : forall it, In it (Tk.items c) -> Tk.has_tag t it = true ->
              existsb (Nat.eqb (Tk.iid it))
                (map Tk.iid (filter (Tk.has_tag t) (Tk.items c))) = true).
    { intros it Hit Htag. apply existsb_exists. exists (Tk.iid it).
      split; [| apply Nat.eqb_refl]. apply in_map. apply filter_In. auto. }
    revert Hin. generalize (map Tk.iid (filter (Tk.has_tag t) (Tk.items c))).
    intros ids. induction (Tk.items c) as [| it l IH]; intros Hin;
      [reflexivity |].
    cbn [map filter].
    assert (Htag : Tk.has_tag t (if existsb (Nat.eqb (Tk.iid it)) ids
                                 then moved dx dy it else it)
                   = Tk.has_tag t it)
      by (destruct (existsb _ ids); reflexivity).
    rewrite Htag. destruct (Tk.has_tag t it) eqn:Ht.
    + rewrite (Hin it (or_introl eq_refl) Ht). cbn [map]. f_equal.
      apply IH. intros j Hj. apply Hin. right. exact Hj.
    + apply IH. intros j Hj. apply Hin. right. exact Hj.
  - rewrite map_map. apply map_ext. intros it.
    destruct (existsb _ _); reflexivity.
  - rewrite map_map. apply map_ext. intros it.
    destruct (existsb _ _); reflexivity.
Qed.

Lemma NoDup_ids_filter (keep : Tk.item -> bool) (items : list Tk.item) :
  NoDup (map Tk.iid items) -> NoDup (map Tk.iid (filter keep items)).
Proof.
  intros Hnodup. induction items as [| it items IH]; cbn; [constructor |].
  inversion Hnodup as [| i m Hnotin Hrest]; subst.
  destruct (keep it); [| apply IH; exact Hrest].
  cbn. constructor; [| apply IH; exact Hrest].
  intros Hin. apply Hnotin. apply in_map_iff in Hin.
  destruct Hin as (it' & Heq & Hin). apply filter_In in Hin.
  apply in_map_iff. exists it'. tauto.
Qed.

(** Separation of the annotations from the fixed items only depends on
    the ids and the tags on the canvas. *)
Lemma separate_by_ids_and_tags (ids : list nat) (c c' : Tk.canvas) :
  map Tk.iid (Tk.items c') = map Tk.iid (Tk.items c) ->
  map Tk.itags (Tk.items c') = map Tk.itags (Tk.items c) ->
  (forall it, In it (Tk.items c) -> Tk.has_tag "drawing" it = true ->
              ~ In (Tk.iid it) ids) ->
  forall it, In it (Tk.items c') -> Tk.has_tag "drawing" it = true ->
             ~ In (Tk.iid it) ids.
Proof.
  generalize (Tk.items c) (Tk.items c'). intros l l'. revert l.
  induction l' as [| b l' IH]; intros [| a l] Hid Htag Hsep it Hin Hdraw;
    try discriminate; [contradiction |].
  cbn in Hid, Htag. injection Hid as Hida Hidl. injection Htag as Htaga Htagl.
  destruct Hin as [<- | Hin].
  - rewrite Hida. apply (Hsep a); [left; reflexivity |].
    unfold Tk.has_tag in *. rewrite <- Htaga. exact Hdraw.
  - apply (IH l Hidl Htagl); [| exact Hin | exact Hdraw].
    intros j Hj. apply Hsep. right. exact Hj.
Qed.

Lemma agree_outside_ids_tags (ids : list nat) (c c' : Tk.canvas) :
  agree_outside ids c c' ->
  map Tk.iid (Tk.items c') = map Tk.iid (Tk.items c)
  /\ map Tk.itags (Tk.items c') = map Tk.itags (Tk.items c).
Proof.
  unfold agree_outside. generalize (Tk.items c) (Tk.items c').
  induction 1 as [| a b l l' (Hid & Htag & _) _ [IH1 IH2]];
    [split; reflexivity |].
  cbn. rewrite Hid, Htag, IH1, IH2. split; reflexivity.
Qed.

(** X22. The annotations travel with the drawing area.  One event of a
    drag with the move tool, on a canvas on which no two items share an
    id and the annotations are apart from the fixed items, moves the
    drawing area by some [(dx, dy)] and every annotation on the canvas by
    the same [(dx, dy)]; their ids, options, tags and order stay. *)
Theorem drag_carries_the_annotations (x y dsx dsy : Z) (s : App)
    (x1 y1 x2 y2 : R) :
  dragging s = true ->
  drag_start_x s = Some dsx ->
  drag_start_y s = Some dsy ->
  drawing_area s = Some (x1, y1, x2, y2) ->
  List.length (overlay_rectangles s) = 4%nat ->
  NoDup (map Tk.iid (Tk.items (rect_canvas s))) ->
  ui_separate s ->
  exists s' dx dy,
    drag_selection x y s = Some s'
    /\ drawing_area s' = Some (x1 + dx, y1 + dy, x2 + dx, y2 + dy)
    /\ drawing_items s' = map (moved dx dy) (drawing_items s).
Proof.
  intros Hdrag Hsx Hsy Harea Hov Hnodup Hsep.
  unfold drag_selection. rewrite Hdrag, Hsx, Hsy, Harea. cbn [negb bind].
  fold (clamp_delta x1 x2 (IZR (screen_width s)) (IZR (x - dsx))).
  fold (clamp_delta y1 y2 (IZR (screen_height s)) (IZR (y - dsy))).
  set (dx := clamp_delta x1 x2 _ _). set (dy := clamp_delta y1 y2 _ _).
  set (c1 := Tk.set_coords (selection_rect s) _ (rect_canvas s)).
  set (c2 := fold_left (fun c item => Tk.move item dx dy c)
               (Tk.find_withtag "drawing" c1) c1).
  set (sa := set_rect_canvas c2 s).
  set (sb := update_resize_handles _ _ _ _ sa).
  set (sc := set_drawing_area _ sb).
  destruct (update_overlay_some (x1 + dx) (y1 + dy) (x2 + dx) (y2 + dy) sc)
    as [c3 Hc3]; [exact Hov |].
  rewrite Hc3. cbn [bind]. exists (set_drag_start_x (Some x)
    (set_drag_start_y (Some y)
       (set_rect_canvas
          (Tk.itemconfig (dimension_text (set_rect_canvas c3 sc))
             [("state", Tk.VStr "hidden")]
             (rect_canvas (set_rect_canvas c3 sc)))
          (set_rect_canvas c3 sc)))), dx, dy.
  split; [reflexivity |]. split; [reflexivity |].
  unfold drawing_items.
  cbn [rect_canvas set_rect_canvas set_drag_start_x set_drag_start_y
       dimension_text].
  change (dimension_text sc) with (dimension_text s).
  (* the canvas before the moves *)
  assert (H1 : agree_outside (ui_ids s) (rect_canvas s) c1)
    by (apply set_coords_agree; left; reflexivity).
  assert (Hd1 : filter (Tk.has_tag "drawing") (Tk.items c1)
                = filter (Tk.has_tag "drawing") (Tk.items (rect_canvas s)))
    by (apply (agree_outside_drawing (ui_ids s)); [exact H1 | exact Hsep]).
  destruct (agree_outside_ids_tags _ _ _ H1) as [Hid1 Htag1].
  (* the moves *)
  assert (Hnodup1 : NoDup (Tk.find_withtag "drawing" c1)).
  { unfold Tk.find_withtag. apply NoDup_ids_filter. rewrite Hid1. exact Hnodup. }
  destruct (move_tagged "drawing" dx dy c1 Hnodup1) as (Hd2 & Hid2 & Htag2).
  fold c2 in Hd2, Hid2, Htag2.
  (* the fixed items after the moves *)
  assert (Hsep2 : forall it, In it (Tk.items c2) ->
            Tk.has_tag "drawing" it = true -> ~ In (Tk.iid it) (ui_ids s)).
  { apply (separate_by_ids_and_tags (ui_ids s) (rect_canvas s) c2);
      [rewrite Hid2; exact Hid1 | rewrite Htag2; exact Htag1 | exact Hsep]. }
  assert (H3 : agree_outside (ui_ids s) c2
                 (Tk.itemconfig (dimension_text s) [("state", Tk.VStr "hidden")]
                    c3)).
  { eapply agree_outside_trans;
      [| apply itemconfig_agree; right; left; reflexivity].
    destruct (update_overlay_agree _ _ _ _ _ _ Hc3) as [Hov3 _].
    cbn [rect_canvas set_rect_canvas] in Hov3.
    eapply agree_outside_trans; [| exact Hov3].
    exact (update_resize_handles_agree _ _ _ _ sa). }
  rewrite (agree_outside_drawing (ui_ids s) c2 _ H3 Hsep2).
  rewrite Hd2, Hd1. reflexivity.
Qed.

Lemma drag_carries_the_annotations_witness :
  exists s s' dx dy,
    (s <- drawn ;; on_press (click 60 60) (set_tool "move" s)) = Some s
    /\ drag_selection 80 60 s = Some s'
    /\ drawing_area s' = Some (0 + dx, 0 + dy, 100 + dx, 100 + dy)
    /\ drawing_items s' = map (moved dx dy) (drawing_items s)
    /\ drawing_items s <> [].
Proof.
  eexists.
  eassert (Hs : (s <- drawn ;; on_press (click 60 60) (set_tool "move" s))
                = Some _) by (unfold drawn, studio; stages).
  match type of Hs with
  | _ = Some ?s =>
      destruct (drag_carries_the_annotations 80 60 60 60 s 0 0 100 100)
        as (s' & dx & dy & Hrun & Harea & Hitems)
  end.
  - reflexivity.
  - reflexivity.
  - reflexivity.
  - reflexivity.
  - reflexivity.
  - cbn. repeat (constructor; [cbn; lia |]). constructor.
  - intros it Hin Htag Hui. cbn in Hin.
    repeat (destruct Hin as [<- | Hin]; [cbn in Htag, Hui |]);
      try discriminate; try contradiction.
    repeat (destruct Hui as [Hui | Hui]; [discriminate |]). contradiction.
  - exists s', dx, dy. split; [exact Hs |]. split; [exact Hrun |].
    split; [exact Harea |]. split; [exact Hitems |]. cbn. discriminate.
Defined.

(** ** Undo and redo in the middle of a stroke *)

(** X23. Undo and redo drop a stroke in progress.  When there is a
    command to undo, an undo between the press and the release of a
    stroke forgets the press point and takes the preview off the canvas,
    and the release then commits nothing; likewise for a redo when there
    is a command to redo.  With nothing to undo, or to redo, the key does
    nothing and the stroke goes on. *)
Theorem undo_and_redo_drop_a_pending_stroke (release : Event) (s : App) :
  (undo_stack s <> [] ->
   start_x (undo s) = None
   /\ Tk.find_withtag "temp_shape" (rect_canvas (undo s)) = []
   /\ end_draw release (undo s) = Some (undo s))
  /\ (redo_stack s <> [] ->
      start_x (redo s) = None
      /\ Tk.find_withtag "temp_shape" (rect_canvas (redo s)) = []
      /\ end_draw release (redo s) = Some (redo s))
  /\ (undo_stack s = [] -> undo s = s)
  /\ (redo_stack s = [] -> redo s = s).
Proof.
  split; [| split; [| split]].
  - intros Hne. destruct (exists_last Hne) as (rest & cmd & Hstack).
    unfold undo. rewrite Hstack, pop_app.
    destruct (Command.undo cmd _) as [cmd' c].
    split; [reflexivity |]. split; [apply find_withtag_delete |].
    reflexivity.
  - intros Hne. destruct (exists_last Hne) as (rest & cmd & Hstack).
    unfold redo. rewrite Hstack, pop_app.
    destruct (Command.execute cmd _) as [cmd' c].
    split; [reflexivity |]. split; [apply find_withtag_delete |].
    reflexivity.
  - intros Hnil. unfold undo. rewrite Hnil. reflexivity.
  - intros Hnil. unfold redo. rewrite Hnil. reflexivity.
Qed.

Lemma undo_and_redo_drop_a_pending_stroke_witness :
  exists s,
    (s <- drawn ;; on_press (click 20 20) s) = Some s
    /\ start_x s = Some 20
    /\ start_x (undo s) = None
    /\ end_draw (click 60 60) (undo s) = Some (undo s).
Proof.
  eexists.
  eassert (Hs : (s <- drawn ;; on_press (click 20 20) s) = Some _)
    by (unfold drawn, studio; stages).
  match type of Hs with
  | _ = Some ?s =>
      destruct (undo_and_redo_drop_a_pending_stroke (click 60 60) s)
        as (Hundo & _);
      destruct Hundo as (Hstart & _ & Hend); [cbn; discriminate |]
  end.
  split; [exact Hs |]. split; [evaluate; f_equal; lra |].
  split; [exact Hstart | exact Hend].
Defined.

(** ** The order of painting *)

(** X24. The export paints the commands in the order they were
    committed, each over what the earlier ones left: the image exported
    with one more command on the undo stack is the image exported
    without it, with the calls of that command made on top. *)
Theorem export_paints_in_commit_order (E : PIL.externals) (s : App)
    (rest : list Command.t) (cmd : Command.t) (x1 y1 x2 y2 : R)
    (below : PIL.image) :
  undo_stack s = rest ++ [cmd] ->
  drawing_area s = Some (x1, y1, x2, y2) ->
  flatten E (set_undo_stack rest s) = Some below ->
  flatten E s
  = Some (fold_left (run_call E)
            (command_calls (span (x1, y1) (x2, y2)) 1 cmd) below).
Proof.
  intros Hstack Harea. unfold flatten.
  cbn [drawing_area full_screenshot current_color undo_stack set_undo_stack].
  rewrite Hstack, Harea. cbn [bind].
  destruct (full_screenshot s) as [full |]; [| discriminate]. cbn [bind].
  intros H. injection H as <-.
  rewrite flat_map_app, fold_left_app. cbn [flat_map]. rewrite app_nil_r.
  reflexivity.
Qed.

Lemma export_paints_in_commit_order_witness :
  exists s cmd below,
    drawn = Some s
    /\ undo_stack s = [cmd]
    /\ flatten palette (set_undo_stack [] s) = Some below
    /\ flatten palette s
       = Some (fold_left (run_call palette)
                 (command_calls (span (0, 0) (100, 100)) 1 cmd) below).
Proof.
  eexists.
  eassert (Hs : drawn = Some _) by (unfold drawn, studio; stages).
  match type of Hs with
  | _ = Some ?s =>
      eassert (Hbelow : flatten palette (set_undo_stack [] s) = Some _)
        by reflexivity;
      eassert (Hstack : undo_stack s = [] ++ [_]) by reflexivity;
      pose proof (export_paints_in_commit_order palette s [] _ 0 0 100 100 _
                    Hstack eq_refl Hbelow) as Hexport
  end.
  do 2 eexists. split; [exact Hs |]. split; [exact Hstack |].
  split; [exact Hbelow | exact Hexport].
Defined.

(** ** From the hot key to the drawing mode *)

Lemma layout_update (i : nat) (f : Tk.item -> Tk.item) (c : Tk.canvas) :
  (forall it, Tk.iid (f it) = Tk.iid it /\ Tk.itags (f it) = Tk.itags it) ->
  layout (Tk.update i f c) = layout c.
Proof.
  intros Hf. unfold layout, Tk.update. cbn [Tk.items Tk.next_id]. f_equal.
  rewrite map_map. apply map_ext. intros it.
  destruct (Tk.is_id i it); [| reflexivity].
  destruct (Hf it) as [-> ->]. reflexivity.
Qed.

Lemma layout_set_coords (i : nat) (cs : list R) (c : Tk.canvas) :
  layout (Tk.set_coords i cs c) = layout c.
Proof. apply layout_update. intros it. split; reflexivity. Qed.

Lemma layout_itemconfig (i : nat) (kvs : list (string * Tk.optval))
    (c : Tk.canvas) :
  layout (Tk.itemconfig i kvs c) = layout c.
Proof. apply layout_update. intros it. split; reflexivity. Qed.

Lemma layout_fold {A : Type} (step : Tk.canvas -> A -> Tk.canvas)
    (l : list A) (c : Tk.canvas) :
  (forall c a, layout (step c a) = layout c) ->
  layout (fold_left step l c) = layout c.
Proof.
  intros Hstep. revert c. induction l as [| a l IH]; intros c; [reflexivity |].
  cbn [fold_left]. rewrite IH. apply Hstep.
Qed.

Lemma update_overlay_layout (x1 y1 x2 y2 : R) (s s' : App) :
  update_overlay x1 y1 x2 y2 s = Some s' ->
  layout (rect_canvas s') = layout (rect_canvas s).
Proof.
  unfold update_overlay. intros H.
  destruct (nth_error (overlay_rectangles s) 0) as [o0 |]; [| discriminate].
  destruct (nth_error (overlay_rectangles s) 1) as [o1 |]; [| discriminate].
  destruct (nth_error (overlay_rectangles s) 2) as [o2 |]; [| discriminate].
  destruct (nth_error (overlay_rectangles s) 3) as [o3 |]; [| discriminate].
  cbn [bind] in H. injection H as <-. cbn [rect_canvas set_rect_canvas].
  rewrite layout_itemconfig, layout_set_coords.
  rewrite layout_fold by (intros; apply layout_itemconfig).
  rewrite !layout_set_coords. reflexivity.
Qed.

(** A redraw of the selection changes coordinates and options only. *)
Lemma update_selection_layout (now : R) (s : App) :
  List.length (overlay_rectangles s) = 4%nat ->
  exists c t,
    update_selection now s = Some (set_rect_canvas c (set_last_update_time t s))
    /\ layout c = layout (rect_canvas s).
Proof.
  intros Hov. unfold update_selection.
  assert (Hsame : exists c t,
            Some s = Some (set_rect_canvas c (set_last_update_time t s))
            /\ layout c = layout (rect_canvas s)).
  { exists (rect_canvas s), (last_update_time s).
    split; [destruct s; reflexivity | reflexivity]. }
  destruct (start_x s) as [sx |]; [| exact Hsame].
  destruct (start_y s) as [sy |]; [| exact Hsame].
  destruct (end_x s) as [ex |]; [| exact Hsame].
  destruct (end_y s) as [ey |]; [| exact Hsame].
  destruct (Rltb _ _); [exact Hsame |].
  match goal with
  | |- context [update_overlay ?a ?b ?c ?d ?t] =>
      destruct (update_overlay_some a b c d t) as [c' Hc']; [exact Hov |];
      pose proof (update_overlay_layout _ _ _ _ _ _ Hc') as Hlay;
      rewrite Hc'
  end.
  cbn [rect_canvas set_rect_canvas] in Hlay.
  rewrite layout_set_coords in Hlay.
  exists c', now. split; [reflexivity | exact Hlay].
Qed.

Lemma selecting_redraw (now : R) (s : App) :
  selecting s ->
  exists s',
    update_selection now s = Some s'
    /\ selecting s'
    /\ start_x s' = start_x s /\ start_y s' = start_y s
    /\ full_screenshot s' = full_screenshot s.
Proof.
  intros (Hlay & Hsel & Hov & Hdim & Hundo & Hredo & Hfull).
  destruct (update_selection_layout now s) as (c & t & Hrun & Hc);
    [rewrite Hov; reflexivity |].
  eexists. split; [exact Hrun |].
  split; [| split; [reflexivity | split; reflexivity]].
  unfold selecting. cbn [rect_canvas set_rect_canvas selection_rect
                         overlay_rectangles dimension_text undo_stack
                         redo_stack full_screenshot set_last_update_time].
  rewrite Hc. tauto.
Qed.

Lemma selecting_set_end (ex ey : option R) (s : App) :
  selecting s -> selecting (set_end_x ex (set_end_y ey s)).
Proof. intros H. exact H. Qed.

Lemma on_move_press_all_selecting (moves : list (Event * R)) (s : App) :
  selecting s ->
  exists s',
    on_move_press_all moves s = Some s'
    /\ selecting s'
    /\ start_x s' = start_x s /\ start_y s' = start_y s
    /\ full_screenshot s' = full_screenshot s.
Proof.
  revert s. induction moves as [| [event now] moves IH]; intros s Hs;
    cbn [on_move_press_all].
  - exists s. split; [reflexivity |]. split; [exact Hs |].
    split; [reflexivity |]. split; reflexivity.
  - unfold on_move_press.
    destruct (selecting_redraw now
                (set_end_y (Some (IZR (ev_y event)))
                   (set_end_x (Some (IZR (ev_x event))) s)))
      as (s1 & Hrun & Hs1 & Hx1 & Hy1 & Hf1); [exact Hs |].
    rewrite Hrun. cbn [bind].
    destruct (IH s1 Hs1) as (s' & Hrest & Hs' & Hx & Hy & Hf).
    exists s'. split; [exact Hrest |]. split; [exact Hs' |].
    split; [rewrite Hx; exact Hx1 |]. split; [rewrite Hy; exact Hy1 |].
    rewrite Hf. exact Hf1.
Qed.

Lemma layout_create (kind : string) (coords : list R)
    (opts : list (string * Tk.optval)) (tags : list string) (c : Tk.canvas) :
  layout (snd (Tk.create kind coords opts tags c))
  = (fst (layout c) ++ [(Tk.next_id c, tags)], S (Tk.next_id c)).
Proof. unfold layout. cbn. rewrite map_app. reflexivity. Qed.

(** Entering the drawing mode adds the four handles on top. *)
Lemma setup_drawing_mode_layout (x1 y1 x2 y2 : R) (t : App) :
  let n := Tk.next_id (rect_canvas t) in
  layout (rect_canvas (setup_drawing_mode x1 y1 x2 y2 t))
  = (fst (layout (rect_canvas t))
     ++ [(n, ["handle0"]); (S n, ["handle1"]); (S (S n), ["handle2"]);
         (S (S (S n)), ["handle3"])], S (S (S (S n))))
  /\ resize_handles (setup_drawing_mode x1 y1 x2 y2 t)
     = [n; S n; S (S n); S (S (S n))].
Proof.
  cbv zeta. split; [| reflexivity].
  unfold setup_drawing_mode, create_resize_handles, layout.
  cbn -[Tk.normalize Rdiv]. f_equal.
  rewrite !map_app, map_map. cbn [map Tk.iid Tk.itags].
  rewrite <- !app_assoc. cbn [app]. f_equal.
  apply map_ext. intros it. destruct (Tk.is_id _ it); reflexivity.
Qed.

Lemma layout_ids (c : Tk.canvas) :
  map Tk.iid (Tk.items c) = map fst (fst (layout c)).
Proof. unfold layout. cbn [fst]. rewrite map_map. reflexivity. Qed.

Lemma layout_no_tag (t : string) (c : Tk.canvas) :
  Forall (fun e => existsb (String.eqb t) (snd e) = false) (fst (layout c)) ->
  forall it, In it (Tk.items c) -> Tk.has_tag t it = false.
Proof.
  unfold layout. cbn [fst]. intros Hall it Hin.
  rewrite Forall_map in Hall. rewrite Forall_forall in Hall.
  exact (Hall it Hin).
Qed.

Lemma layout_wf (c : Tk.canvas) :
  (0 < snd (layout c))%nat ->
  Forall (fun e => (fst e < snd (layout c))%nat) (fst (layout c)) ->
  Tk.wf c.
Proof.
  unfold layout. cbn [fst snd]. intros Hpos Hall. split; [exact Hpos |].
  rewrite Forall_map in Hall. exact Hall.
Qed.

Lemma selecting_initiate (w h : Z) (grab : PIL.image) (s0 : App) :
  selecting (initiate_screenshot w h grab s0).
Proof.
  unfold selecting. repeat split; try reflexivity. discriminate.
Qed.

(** The canvas facts follow from the layout of a capture that has just
    entered the drawing mode. *)
Lemma in_order_of_layout (s : App) :
  layout (rect_canvas s)
  = ([(1, []); (2, []); (3, ["overlay"]); (4, ["overlay"]); (5, ["overlay"]);
      (6, ["overlay"]); (7, ["dimensions"]); (8, ["handle0"]);
      (9, ["handle1"]); (10, ["handle2"]); (11, ["handle3"])], 12)%nat ->
  selection_rect s = 2%nat ->
  overlay_rectangles s = [3; 4; 5; 6]%nat ->
  dimension_text s = 7%nat ->
  resize_handles s = [8; 9; 10; 11]%nat ->
  canvas_in_order s /\ drawing_items s = [].
Proof.
  intros Hlay Hsel Hov Hdim Hhandles.
  assert (Hnone : forall it, In it (Tk.items (rect_canvas s)) ->
                             Tk.has_tag "drawing" it = false).
  { apply layout_no_tag. rewrite Hlay. repeat constructor. }
  split.
  - unfold canvas_in_order, in_order, ui_ids.
    rewrite layout_ids, Hlay, Hsel, Hov, Hdim, Hhandles.
    assert (Hnext : Tk.next_id (rect_canvas s) = 12%nat)
      by (apply (f_equal snd) in Hlay; exact Hlay).
    rewrite Hnext.
    split; [| split; [reflexivity | split; [reflexivity |]]].
    + split; [apply layout_wf; rewrite Hlay; cbn [fst snd];
              [lia | repeat constructor; cbn; lia] |].
      split; [cbn; repeat (constructor; [cbn; lia |]); constructor |].
      split; [intros it Hin Htag; rewrite (Hnone it Hin) in Htag;
              discriminate |].
      repeat constructor; lia.
    + cbn. repeat (constructor; [cbn; lia |]). constructor.
  - unfold drawing_items.
    induction (Tk.items (rect_canvas s)) as [| it l IH]; [reflexivity |].
    cbn [filter]. rewrite (Hnone it (or_introl eq_refl)).
    apply IH. intros j Hj. apply Hnone. right. exact Hj.
Qed.

Lemma in_order_flags (b : bool) (st : string) (s : App) :
  canvas_in_order s /\ drawing_items s = [] ->
  canvas_in_order (set_is_screenshot_in_progress b (set_state st s))
  /\ drawing_items (set_is_screenshot_in_progress b (set_state st s)) = [].
Proof. intros H. exact H. Qed.

(** X25. Every capture enters the drawing mode with its canvas in order.
    From any state of the controller, a new capture, a press, any
    motion handled at any times and a release give the drawing mode with
    nothing committed and nothing drawn, on a canvas whose ids are
    below the counter and used once, with four overlay panels and four
    handles, distinct from each other and from the selection rectangle
    and the dimension readout. *)
Theorem capture_enters_drawing_mode_in_order (w h : Z) (grab : PIL.image)
    (s0 : App) (press release : Event) (t0 t1 : R)
    (moves : list (Event * R)) :
  exists s1 s2 s3,
    on_button_press press t0 (initiate_screenshot w h grab s0) = Some s1
    /\ on_move_press_all moves s1 = Some s2
    /\ on_button_release release t1 s2 = Some s3
    /\ state s3 = "drawing" /\ is_drawing_mode s3 = true
    /\ undo_stack s3 = [] /\ redo_stack s3 = []
    /\ drawing_items s3 = []
    /\ canvas_in_order s3.
Proof.
  pose proof (selecting_initiate w h grab s0) as Hinit.
  revert Hinit. generalize (initiate_screenshot w h grab s0). intros si Hinit.
  (* the press *)
  unfold on_button_press.
  set (sp := set_end_y _ (set_start_y _ (set_end_x _ (set_start_x _ si)))).
  destruct (selecting_redraw t0 sp) as (s1 & Hpress & Hs1 & Hx1 & Hy1 & _);
    [exact Hinit |].
  (* the motion *)
  destruct (on_move_press_all_selecting moves s1 Hs1)
    as (s2 & Hmoves & Hs2 & Hx2 & Hy2 & _).
  rewrite Hx1 in Hx2. rewrite Hy1 in Hy2.
  change (start_x sp) with (Some (IZR (ev_x press))) in Hx2.
  change (start_y sp) with (Some (IZR (ev_y press))) in Hy2.
  (* the release *)
  exists s1, s2. unfold on_button_release. rewrite Hx2, Hy2.
  set (ends := if Reqb _ _ && Reqb _ _ then _ else _).
  destruct ends as [ex ey].
  destruct (selecting_redraw t1 (set_end_x (Some ex) (set_end_y (Some ey) s2)))
    as (s2' & Hrelease & Hs2' & _ & _ & _); [exact Hs2 |].
  rewrite Hrelease. cbn [bind].
  destruct Hs2' as (Hlay & Hsel & Hov & Hdim & Hundo & Hredo & Hfull).
  destruct (full_screenshot s2') as [full |] eqn:Hf; [| contradiction].
  set (t := set_screenshot _ s2').
  destruct (setup_drawing_mode_layout
              (Rmin (IZR (ev_x press)) ex) (Rmin (IZR (ev_y press)) ey)
              (Rmax (IZR (ev_x press)) ex) (Rmax (IZR (ev_y press)) ey) t)
    as [Hlay' Hhandles].
  change (rect_canvas t) with (rect_canvas s2') in Hlay', Hhandles.
  rewrite Hlay in Hlay'. cbn [fst app] in Hlay'.
  assert (Hnext : Tk.next_id (rect_canvas s2') = 8%nat)
    by (apply (f_equal snd) in Hlay; exact Hlay).
  rewrite Hnext in Hlay', Hhandles.
  assert (Hframe :
            selection_rect (setup_drawing_mode
                              (Rmin (IZR (ev_x press)) ex)
                              (Rmin (IZR (ev_y press)) ey)
                              (Rmax (IZR (ev_x press)) ex)
                              (Rmax (IZR (ev_y press)) ey) t)
            = selection_rect s2'
            /\ overlay_rectangles (setup_drawing_mode
                                     (Rmin (IZR (ev_x press)) ex)
                                     (Rmin (IZR (ev_y press)) ey)
                                     (Rmax (IZR (ev_x press)) ex)
                                     (Rmax (IZR (ev_y press)) ey) t)
               = overlay_rectangles s2'
            /\ dimension_text (setup_drawing_mode
                                 (Rmin (IZR (ev_x press)) ex)
                                 (Rmin (IZR (ev_y press)) ey)
                                 (Rmax (IZR (ev_x press)) ex)
                                 (Rmax (IZR (ev_y press)) ey) t)
               = dimension_text s2'
            /\ undo_stack (setup_drawing_mode
                             (Rmin (IZR (ev_x press)) ex)
                             (Rmin (IZR (ev_y press)) ey)
                             (Rmax (IZR (ev_x press)) ex)
                             (Rmax (IZR (ev_y press)) ey) t)
               = undo_stack s2'
            /\ redo_stack (setup_drawing_mode
                             (Rmin (IZR (ev_x press)) ex)
                             (Rmin (IZR (ev_y press)) ey)
                             (Rmax (IZR (ev_x press)) ex)
                             (Rmax (IZR (ev_y press)) ey) t)
               = redo_stack s2'
            /\ is_drawing_mode (setup_drawing_mode
                                  (Rmin (IZR (ev_x press)) ex)
                                  (Rmin (IZR (ev_y press)) ey)
                                  (Rmax (IZR (ev_x press)) ex)
                                  (Rmax (IZR (ev_y press)) ey) t)
               = true)
    by (repeat split; reflexivity).
  revert Hlay' Hhandles Hframe.
  generalize (setup_drawing_mode (Rmin (IZR (ev_x press)) ex)
                (Rmin (IZR (ev_y press)) ey) (Rmax (IZR (ev_x press)) ex)
                (Rmax (IZR (ev_y press)) ey) t).
  intros sd Hlay' Hhandles (Hsel' & Hov' & Hdim' & Hundo' & Hredo' & Hmode).
  rewrite Hsel in Hsel'. rewrite Hov in Hov'. rewrite Hdim in Hdim'.
  rewrite Hundo in Hundo'. rewrite Hredo in Hredo'.
  destruct (in_order_flags false "drawing" sd
              (in_order_of_layout sd Hlay' Hsel' Hov' Hdim' Hhandles))
    as [Horder Hnone].
  eexists. split; [exact Hpress |]. split; [exact Hmoves |].
  split; [reflexivity |]. split; [reflexivity |]. split; [exact Hmode |].
  split; [exact Hundo' |]. split; [exact Hredo' |].
  split; [exact Hnone | exact Horder].
Qed.

Lemma update_selection_resizing (now : R) (s s' : App) :
  update_selection now s = Some s' ->
  resizing s' = resizing s /\ dragging s' = dragging s.
Proof.
  unfold update_selection. intros H.
  assert (Hsame : forall t, Some s = Some t ->
            resizing t = resizing s /\ dragging t = dragging s)
    by (intros t Ht; injection Ht as <-; split; reflexivity).
  destruct (start_x s) as [sx |]; [| apply Hsame; exact H].
  destruct (start_y s) as [sy |]; [| apply Hsame; exact H].
  destruct (end_x s) as [ex |]; [| apply Hsame; exact H].
  destruct (end_y s) as [ey |]; [| apply Hsame; exact H].
  destruct (Rltb _ _); [apply Hsame; exact H |].
  apply update_overlay_find in H. rewrite H. split; reflexivity.
Qed.

Lemma on_move_press_all_resizing (moves : list (Event * R)) (s s' : App) :
  on_move_press_all moves s = Some s' ->
  resizing s' = resizing s /\ dragging s' = dragging s.
Proof.
  revert s. induction moves as [| [event now] moves IH]; intros s;
    cbn [on_move_press_all].
  - intros H. injection H as <-. split; reflexivity.
  - unfold on_move_press.
    destruct (update_selection now _) as [s1 |] eqn:Hrun; [| discriminate].
    cbn [bind]. intros Hrest.
    destruct (update_selection_resizing _ _ _ Hrun) as [Hr1 Hd1].
    destruct (IH s1 Hrest) as [Hr Hd].
    split; [rewrite Hr; exact Hr1 | rewrite Hd; exact Hd1].
Qed.

Lemma on_button_release_resizing (event : Event) (now : R) (s s' : App) :
  on_button_release event now s = Some s' ->
  resizing s' = resizing s /\ dragging s' = dragging s.
Proof.
  unfold on_button_release. intros H.
  assert (Hsame : forall t, Some s = Some t ->
            resizing t = resizing s /\ dragging t = dragging s)
    by (intros t Ht; injection Ht as <-; split; reflexivity).
  destruct (start_x s) as [sx |]; [| apply Hsame; exact H].
  destruct (start_y s) as [sy |]; [| apply Hsame; exact H].
  destruct (if Reqb _ _ && Reqb _ _ then _ else _) as [ex ey].
  destruct (update_selection now _) as [s1 |] eqn:Hrun; [| discriminate].
  cbn [bind] in H.
  destruct (update_selection_resizing _ _ _ Hrun) as [Hr1 Hd1].
  cbn [resizing dragging set_end_x set_end_y] in Hr1, Hd1.
  destruct (full_screenshot s1) as [full |].
  - injection H as <-.
    assert (Hframe : forall a b c d t,
              resizing (set_is_screenshot_in_progress false
                          (set_state "drawing" (setup_drawing_mode a b c d t)))
              = resizing t
              /\ dragging (set_is_screenshot_in_progress false
                             (set_state "drawing"
                                (setup_drawing_mode a b c d t)))
                 = dragging t)
      by (intros; split; reflexivity).
    match goal with
    | |- resizing (set_is_screenshot_in_progress _
                     (set_state _ (setup_drawing_mode ?a ?b ?c ?d ?t))) = _ /\ _ =>
        destruct (Hframe a b c d t) as [-> ->]
    end.
    split; [exact Hr1 | exact Hd1].
  - injection H as <-. split; [exact Hr1 | exact Hd1].
Qed.

Lemma initiate_screenshot_resizing (w h : Z) (grab : PIL.image) (s : App) :
  resizing (initiate_screenshot w h grab s) = resizing s.
Proof. destruct s. reflexivity. Qed.

Lemma safe_cancel_screenshot_resizing (s : App) :
  resizing (safe_cancel_screenshot s) = resizing s.
Proof. reflexivity. Qed.

Lemma pressed_resizing (x y : option R) (s : App) :
  resizing (set_end_y y (set_start_y y (set_end_x x (set_start_x x s))))
  = resizing s.
Proof. reflexivity. Qed.

(** X26. A resize interrupted by Escape is still pending in the next
    capture.  Abandoning a capture while a handle is grabbed leaves the
    handle grabbed: the next capture, from the hot key through the
    selection gesture into the drawing mode, does not release it, and
    there every motion with the button held resizes the drawing area
    instead of drawing with the tool. *)
Theorem interrupted_resize_survives_escape (w h : Z) (grab : PIL.image)
    (s s1 s2 s3 : App) (k : nat) (press release : Event) (t0 t1 : R)
    (moves : list (Event * R)) :
  resizing s = Some k ->
  on_button_press press t0
    (initiate_screenshot w h grab (safe_cancel_screenshot s)) = Some s1 ->
  on_move_press_all moves s1 = Some s2 ->
  on_button_release release t1 s2 = Some s3 ->
  resizing s3 = Some k
  /\ forall event,
       Z.land (ev_state event) 256 <> 0%Z ->
       on_drag event s3 = resize_selection (ev_x event) (ev_y event) s3.
Proof.
  intros Hres Hpress Hmoves Hrelease.
  assert (Hk : resizing s3 = Some k).
  { destruct (on_button_release_resizing _ _ _ _ Hrelease) as [-> _].
    destruct (on_move_press_all_resizing _ _ _ Hmoves) as [-> _].
    unfold on_button_press in Hpress.
    destruct (update_selection_resizing _ _ _ Hpress) as [-> _].
    rewrite pressed_resizing, initiate_screenshot_resizing,
      safe_cancel_screenshot_resizing.
    exact Hres. }
  split; [exact Hk |].
  intros event Hheld. apply (on_drag_resizing event s3 k Hheld Hk).
Qed.

Lemma interrupted_resize_survives_escape_witness :
  exists s s1 s3,
    (s <- drawn ;; on_press (click 100 100) s) = Some s
    /\ resizing s = Some 2%nat
    /\ on_button_press (click 10 10) 5
         (initiate_screenshot 200 200 (blank 200 200)
            (safe_cancel_screenshot s)) = Some s1
    /\ on_button_release (click 90 90) 6 s1 = Some s3
    /\ resizing s3 = Some 2%nat
    /\ on_drag (click 50 50) s3 = resize_selection 50 50 s3.
Proof.
  eexists.
  eassert (Hs : (s <- drawn ;; on_press (click 100 100) s) = Some _)
    by (unfold drawn, studio; stages).
  match type of Hs with
  | _ = Some ?s =>
      eassert (Hpress : on_button_press (click 10 10) 5
                          (initiate_screenshot 200 200 (blank 200 200)
                             (safe_cancel_screenshot s)) = Some _)
        by (evaluate; reflexivity);
      match type of Hpress with
      | _ = Some ?s1 =>
          eassert (Hrelease : on_button_release (click 90 90) 6 s1 = Some _)
            by (evaluate; reflexivity);
          match type of Hrelease with
          | _ = Some ?s3 =>
              destruct (interrupted_resize_survives_escape 200 200
                          (blank 200 200) s s1 s1 s3 2 (click 10 10)
                          (click 90 90) 5 6 [] eq_refl Hpress eq_refl Hrelease)
                as [Hk Hdrag]
          end
      end
  end.
  do 2 eexists. split; [exact Hs |]. split; [reflexivity |].
  split; [exact Hpress |]. split; [exact Hrelease |]. split; [exact Hk |].
  apply (Hdrag (click 50 50)). cbn. discriminate.
Defined.

(** ** The canvas stays in order *)

Lemma in_order_update (ui : list nat) (i : nat) (f : Tk.item -> Tk.item)
    (c : Tk.canvas) :
  (forall it, Tk.iid (f it) = Tk.iid it) ->
  (forall it, Tk.has_tag "drawing" (f it) = true ->
              Tk.has_tag "drawing" it = true \/ ~ In i ui) ->
  in_order ui c -> in_order ui (Tk.update i f c).
Proof.
  intros Hid Htag ([Hpos Hall] & Hnodup & Hsep & Hui).
  assert (Hids : map Tk.iid (map (fun it => if Tk.is_id i it then f it else it)
                               (Tk.items c))
                 = map Tk.iid (Tk.items c)).
  { rewrite map_map. apply map_ext. intros it.
    destruct (Tk.is_id i it); [apply Hid | reflexivity]. }
  unfold in_order, Tk.wf, Tk.update. cbn [Tk.items Tk.next_id].
  split; [split; [exact Hpos |] |].
  - apply Forall_map. eapply Forall_impl; [| exact Hall].
    intros it Hit. cbn. destruct (Tk.is_id i it); [rewrite Hid |]; exact Hit.
  - split; [rewrite Hids; exact Hnodup |]. split; [| exact Hui].
    intros it' Hin Hdraw. apply in_map_iff in Hin.
    destruct Hin as (it & <- & Hin).
    destruct (Tk.is_id i it) eqn:Hi; [| apply Hsep; assumption].
    rewrite Hid. destruct (Htag it Hdraw) as [Hold | Hnew].
    + apply Hsep; assumption.
    + unfold Tk.is_id in Hi. apply Nat.eqb_eq in Hi. rewrite Hi. exact Hnew.
Qed.

Lemma in_order_set_coords (ui : list nat) (i : nat) (cs : list R)
    (c : Tk.canvas) :
  in_order ui c -> in_order ui (Tk.set_coords i cs c).
Proof. apply in_order_update; [reflexivity | intros it H; left; exact H]. Qed.

Lemma in_order_itemconfig (ui : list nat) (i : nat)
    (kvs : list (string * Tk.optval)) (c : Tk.canvas) :
  in_order ui c -> in_order ui (Tk.itemconfig i kvs c).
Proof. apply in_order_update; [reflexivity | intros it H; left; exact H]. Qed.

Lemma in_order_move (ui : list nat) (i : nat) (dx dy : R) (c : Tk.canvas) :
  in_order ui c -> in_order ui (Tk.move i dx dy c).
Proof. apply in_order_update; [reflexivity | intros it H; left; exact H]. Qed.

Lemma in_order_addtag (ui : list nat) (new : string) (i : nat)
    (c : Tk.canvas) :
  ~ In i ui -> in_order ui c -> in_order ui (Tk.addtag_withtag new i c).
Proof.
  intros Hi. apply in_order_update.
  - intros it. destruct (Tk.has_tag new it); reflexivity.
  - intros it _. right. exact Hi.
Qed.

Lemma in_order_fold {A : Type} (ui : list nat)
    (step : Tk.canvas -> A -> Tk.canvas) (P : A -> Prop) (l : list A)
    (c : Tk.canvas) :
  (forall c a, P a -> in_order ui c -> in_order ui (step c a)) ->
  Forall P l -> in_order ui c -> in_order ui (fold_left step l c).
Proof.
  intros Hstep Hl. revert c. induction Hl as [| a l Ha _ IH]; intros c Hc;
    [exact Hc |].
  cbn [fold_left]. apply IH. apply Hstep; assumption.
Qed.

Lemma in_order_filter (ui : list nat) (p : Tk.item -> bool) (c : Tk.canvas) :
  in_order ui c ->
  in_order ui (Tk.mkCanvas (filter p (Tk.items c)) (Tk.next_id c)).
Proof.
  intros ([Hpos Hall] & Hnodup & Hsep & Hui).
  unfold in_order, Tk.wf. cbn [Tk.items Tk.next_id].
  split; [split; [exact Hpos |] |].
  - apply Forall_forall. intros it Hin. apply filter_In in Hin.
    destruct Hin as [Hin _]. revert it Hin. apply Forall_forall. exact Hall.
  - split; [apply NoDup_ids_filter; exact Hnodup |]. split; [| exact Hui].
    intros it Hin. apply filter_In in Hin. destruct Hin as [Hin _].
    apply Hsep. exact Hin.
Qed.

Lemma in_order_delete (ui : list nat) (i : nat) (c : Tk.canvas) :
  in_order ui c -> in_order ui (Tk.delete i c).
Proof. apply in_order_filter. Qed.

Lemma in_order_delete_withtag (ui : list nat) (t : string) (c : Tk.canvas) :
  in_order ui c -> in_order ui (Tk.delete_withtag t c).
Proof. apply in_order_filter. Qed.

Lemma NoDup_new_id (n : nat) (l : list Tk.item) :
  NoDup (map Tk.iid l) -> Forall (fun it => (Tk.iid it < n)%nat) l ->
  NoDup (map Tk.iid l ++ [n]).
Proof.
  intros Hnodup Hall. induction Hall as [| it l Hit _ IH]; cbn.
  - constructor; [intros [] | constructor].
  - inversion Hnodup as [| i m Hnotin Hrest]; subst.
    constructor; [| apply IH; exact Hrest].
    intros Hin. apply in_app_or in Hin. destruct Hin as [Hin | [Heq | []]];
      [contradiction | lia].
Qed.

Lemma in_order_create (ui : list nat) (kind : string) (coords : list R)
    (opts : list (string * Tk.optval)) (tags : list string) (c : Tk.canvas) :
  in_order ui c -> in_order ui (snd (Tk.create kind coords opts tags c)).
Proof.
  intros ([Hpos Hall] & Hnodup & Hsep & Hui).
  unfold in_order, Tk.wf, Tk.create. cbn [snd Tk.items Tk.next_id].
  split; [split; [lia |] |].
  - apply Forall_app. split; [apply Forall_below_S; exact Hall |].
    constructor; [cbn; lia | constructor].
  - split; [| split].
    + rewrite map_app. cbn [map Tk.iid]. apply NoDup_new_id; assumption.
    + intros it Hin Hdraw. apply in_app_or in Hin.
      destruct Hin as [Hin | [<- | []]]; [apply Hsep; assumption |].
      cbn [Tk.iid]. intros Hin. rewrite Forall_forall in Hui.
      specialize (Hui _ Hin). lia.
    + eapply Forall_impl; [| exact Hui]. cbn. intros i Hi. lia.
Qed.

Lemma not_in_ui (ui : list nat) (c : Tk.canvas) (i : nat) :
  in_order ui c -> (Tk.next_id c <= i)%nat -> ~ In i ui.
Proof.
  intros (_ & _ & _ & Hui) Hle Hin. rewrite Forall_forall in Hui.
  specialize (Hui i Hin). lia.
Qed.

(** [execute] keeps the canvas in order, and what it draws is not one
    of the fixed items. *)
Lemma in_order_draw_execute (ui : list nat) (d : DrawCommand.t)
    (c : Tk.canvas) :
  in_order ui c ->
  in_order ui (snd (DrawCommand.execute d c))
  /\ (DrawCommand.shape_id (fst (DrawCommand.execute d c))
      = DrawCommand.shape_id d
      \/ Forall (fun i => ~ In i ui)
           (handle_ids (Command.Draw (fst (DrawCommand.execute d c))))).
Proof.
  intros Hc. unfold DrawCommand.execute.
  destruct (String.eqb (DrawCommand.tool d) "rectangle").
  - destruct (Tk.create "rectangle" _ _ _ _) as [i c1] eqn:Hc1.
    pose proof (f_equal fst Hc1) as Hi. pose proof (f_equal snd Hc1) as Hs.
    cbn [fst snd Tk.create] in Hi. cbn [snd] in Hs. cbn [fst snd].
    split; [rewrite <- Hs; apply in_order_create; exact Hc |].
    right. cbn. constructor; [| constructor].
    rewrite <- Hi. apply (not_in_ui ui c); [exact Hc | lia].
  - destruct (String.eqb (DrawCommand.tool d) "arrow");
      [| split; [exact Hc | left; reflexivity]].
    destruct (Tk.create "line" _ _ _ _) as [shaft c1] eqn:Hc1.
    pose proof (f_equal fst Hc1) as Hi1. pose proof (f_equal snd Hc1) as Hs1.
    cbn [fst Tk.create] in Hi1. cbn [snd] in Hs1.
    destruct (Tk.create "polygon" _ _ _ _) as [head c2] eqn:Hc2.
    pose proof (f_equal fst Hc2) as Hi2. pose proof (f_equal snd Hc2) as Hs2.
    cbn [fst Tk.create] in Hi2. cbn [snd] in Hs2. cbn [fst snd].
    assert (Hin1 : in_order ui c1)
      by (rewrite <- Hs1; apply in_order_create; exact Hc).
    split; [rewrite <- Hs2; apply in_order_create; exact Hin1 |].
    right. cbn. constructor; [| constructor; [| constructor]].
    + rewrite <- Hi1. apply (not_in_ui ui c); [exact Hc | lia].
    + rewrite <- Hi2. apply (not_in_ui ui c); [exact Hc |].
      rewrite <- Hs1. cbn. lia.
Qed.

Lemma in_order_text_execute (ui : list nat) (t : TextCommand.t)
    (c : Tk.canvas) :
  in_order ui c -> in_order ui (snd (TextCommand.execute t c)).
Proof.
  intros Hc. unfold TextCommand.execute.
  destruct (Tk.create "text" _ _ _ _) as [i c1] eqn:Hc1.
  pose proof (f_equal fst Hc1) as Hi. pose proof (f_equal snd Hc1) as Hs.
  cbn [fst Tk.create] in Hi. cbn [snd] in Hs. cbn [snd].
  assert (Hin1 : in_order ui c1)
    by (rewrite <- Hs; apply in_order_create; exact Hc).
  assert (Hraise : Tk.tag_raise i c1 = c1).
  { rewrite <- Hs, <- Hi. unfold Tk.tag_raise, Tk.create.
    cbn [snd Tk.items Tk.next_id]. f_equal.
    destruct Hc as ([_ Hall] & _). apply raise_new_item; [exact Hall |].
    reflexivity. }
  rewrite Hraise. exact Hin1.
Qed.

Lemma in_order_execute (ui : list nat) (cmd : Command.t) (c : Tk.canvas) :
  in_order ui c -> in_order ui (snd (Command.execute cmd c)).
Proof.
  intros Hc. destruct cmd as [d | t]; cbn [Command.execute].
  - pose proof (in_order_draw_execute ui d c Hc) as [H _].
    destruct (DrawCommand.execute d c). exact H.
  - pose proof (in_order_text_execute ui t c Hc) as H.
    destruct (TextCommand.execute t c). exact H.
Qed.

Lemma in_order_command_undo (ui : list nat) (cmd : Command.t)
    (c : Tk.canvas) :
  in_order ui c -> in_order ui (snd (Command.undo cmd c)).
Proof.
  intros Hc. destruct cmd as [d | t]; cbn [Command.undo].
  - unfold DrawCommand.undo. destruct (DrawCommand.shape_id d) as [| i | l];
      cbn [snd]; [exact Hc | apply in_order_delete; exact Hc |].
    apply (in_order_fold ui _ (fun _ => True));
      [intros c' i _; apply in_order_delete | | exact Hc].
    apply Forall_forall. auto.
  - unfold TextCommand.undo.
    destruct (TextCommand.text_id t) as [[| n] |]; cbn [snd];
      [exact Hc | apply in_order_delete; exact Hc | exact Hc].
Qed.

Lemma same_ui_refl (s : App) : same_ui s s.
Proof. repeat split. Qed.

Lemma same_ui_trans (s1 s2 s3 : App) :
  same_ui s1 s2 -> same_ui s2 s3 -> same_ui s1 s3.
Proof.
  intros (H1 & H2 & H3 & H4) (K1 & K2 & K3 & K4).
  repeat split; congruence.
Qed.

Lemma same_ui_ids (s s' : App) : same_ui s s' -> ui_ids s' = ui_ids s.
Proof. intros (H1 & H2 & H3 & H4). unfold ui_ids. congruence. Qed.

Lemma update_overlay_in_order (ui : list nat) (x1 y1 x2 y2 : R) (s s' : App) :
  update_overlay x1 y1 x2 y2 s = Some s' ->
  in_order ui (rect_canvas s) ->
  in_order ui (rect_canvas s') /\ same_ui s s'.
Proof.
  intros H Hc. pose proof (update_overlay_find _ _ _ _ _ _ H) as Hs'.
  split; [| rewrite Hs'; repeat split].
  revert H. unfold update_overlay.
  destruct (nth_error (overlay_rectangles s) 0) as [o0 |]; [| discriminate].
  destruct (nth_error (overlay_rectangles s) 1) as [o1 |]; [| discriminate].
  destruct (nth_error (overlay_rectangles s) 2) as [o2 |]; [| discriminate].
  destruct (nth_error (overlay_rectangles s) 3) as [o3 |]; [| discriminate].
  cbn [bind]. intros H. injection H as <-. cbn [rect_canvas set_rect_canvas].
  apply in_order_itemconfig, in_order_set_coords.
  apply (in_order_fold ui _ (fun _ => True));
    [intros c a _; apply in_order_itemconfig | apply Forall_forall; auto |].
  repeat apply in_order_set_coords. exact Hc.
Qed.

Lemma update_resize_handles_in_order (ui : list nat) (x1 y1 x2 y2 : R)
    (s : App) :
  in_order ui (rect_canvas s) ->
  in_order ui (rect_canvas (update_resize_handles x1 y1 x2 y2 s)).
Proof.
  intros Hc. unfold update_resize_handles. cbn [rect_canvas set_rect_canvas].
  apply (in_order_fold ui _ (fun _ => True));
    [| apply Forall_forall; auto | exact Hc].
  intros c [handle [x y]] _. apply in_order_set_coords.
Qed.

Lemma resize_selection_in_order (ui : list nat) (x y : Z) (s s' : App) :
  resize_selection x y s = Some s' ->
  in_order ui (rect_canvas s) ->
  in_order ui (rect_canvas s') /\ same_ui s s'.
Proof.
  unfold resize_selection. intros H Hc.
  destruct (Tk.coords (selection_rect s) (rect_canvas s))
    as [| a [| b [| c [| d [| e rest]]]]]; try discriminate.
  destruct (match resizing s with
            | Some 0%nat => _ | Some 1%nat => _ | Some 2%nat => _
            | Some 3%nat => _ | _ => _ end) as [[[x1 y1] x2] y2].
  cbn [bind] in H.
  match type of H with
  | context [update_overlay ?a ?b ?c ?d ?t] =>
      destruct (update_overlay a b c d t) as [t' |] eqn:Hov; [| discriminate];
      destruct (update_overlay_in_order ui _ _ _ _ _ _ Hov) as [Hc' Hui]
  end.
  - apply update_resize_handles_in_order. cbn [rect_canvas set_rect_canvas].
    apply in_order_set_coords. exact Hc.
  - cbn [bind] in H. injection H as <-.
    cbn [rect_canvas set_rect_canvas set_drawing_area].
    split; [apply in_order_set_coords, in_order_itemconfig; exact Hc' |].
    destruct Hui as (H1 & H2 & H3 & H4). repeat split; assumption.
Qed.

Lemma drag_selection_in_order (ui : list nat) (x y : Z) (s s' : App) :
  drag_selection x y s = Some s' ->
  in_order ui (rect_canvas s) ->
  in_order ui (rect_canvas s') /\ same_ui s s'.
Proof.
  unfold drag_selection. intros H Hc.
  destruct (dragging s); cbn [negb] in H;
    [| injection H as <-; split; [exact Hc | apply same_ui_refl]].
  destruct (drag_start_x s) as [dsx |]; [| discriminate].
  destruct (drag_start_y s) as [dsy |]; [| discriminate].
  destruct (drawing_area s) as [[[[x1 y1] x2] y2] |]; [| discriminate].
  cbn [bind] in H.
  match type of H with
  | context [update_overlay ?a ?b ?c ?d ?t] =>
      destruct (update_overlay a b c d t) as [t' |] eqn:Hov; [| discriminate];
      destruct (update_overlay_in_order ui _ _ _ _ _ _ Hov) as [Hc' Hui]
  end.
  - cbn [rect_canvas set_drawing_area].
    apply update_resize_handles_in_order. cbn [rect_canvas set_rect_canvas].
    apply (in_order_fold ui _ (fun _ => True));
      [intros c a _; apply in_order_move | apply Forall_forall; auto |].
    apply in_order_set_coords. exact Hc.
  - cbn [bind] in H. injection H as <-.
    cbn [rect_canvas set_rect_canvas set_drag_start_x set_drag_start_y].
    split; [apply in_order_itemconfig; exact Hc' |].
    destruct Hui as (H1 & H2 & H3 & H4). repeat split; assumption.
Qed.

Lemma draw_shape_in_order (ui : list nat) (event : Event) (s s' : App) :
  draw_shape event s = Some s' ->
  in_order ui (rect_canvas s) ->
  in_order ui (rect_canvas s') /\ same_ui s s'.
Proof.
  intros H Hc.
  destruct (draw_shape_preview event s s' H) as (Hs' & _).
  split; [| rewrite Hs'; repeat split].
  revert H. unfold draw_shape.
  destruct (start_x s) as [sx |]; [| intros H; injection H as <-; exact Hc].
  destruct (point_in_drawing_area (ev_x event) (ev_y event) s) as [[|] |];
    cbn [bind negb]; [| intros H; injection H as <-; exact Hc | discriminate].
  cbn [drawing_area set_rect_canvas current_tool start_y].
  destruct (drawing_area s) as [[[[x1 y1] x2] y2] |]; cbn [bind];
    [| discriminate].
  destruct (String.eqb (current_tool s) "rectangle").
  - destruct (start_y s) as [sy |]; cbn [bind]; [| discriminate].
    destruct (Tk.create "rectangle" _ _ _ _) as [i c] eqn:Hcreate.
    apply (f_equal snd) in Hcreate. cbn [snd rect_canvas set_rect_canvas] in Hcreate.
    intros H. injection H as <-. cbn [rect_canvas set_rect_canvas].
    rewrite <- Hcreate. apply in_order_create, in_order_delete_withtag.
    exact Hc.
  - destruct (String.eqb (current_tool s) "arrow").
    + destruct (start_y s) as [sy |]; cbn [bind]; [| discriminate].
      intros H. injection H as <-.
      match goal with
      | |- context [draw_arrow ?a ?b ?c ?d ?tags ?t] =>
          destruct (draw_arrow_canvas a b c d tags t)
            as (k1 & cs1 & o1 & k2 & cs2 & o2 & ->)
      end.
      cbn [rect_canvas set_rect_canvas].
      apply in_order_create, in_order_create, in_order_delete_withtag.
      exact Hc.
    + intros H. injection H as <-. cbn [rect_canvas set_rect_canvas].
      apply in_order_delete_withtag. exact Hc.
Qed.

Lemma end_draw_in_order (ui : list nat) (event : Event) (s s' : App) :
  end_draw event s = Some s' ->
  in_order ui (rect_canvas s) ->
  in_order ui (rect_canvas s') /\ same_ui s s'.
Proof.
  unfold end_draw. intros H Hc.
  destruct (start_x s) as [sx |];
    [| injection H as <-; split; [exact Hc | apply same_ui_refl]].
  destruct (point_in_drawing_area (ev_x event) (ev_y event) s) as [[|] |];
    cbn [bind negb] in H;
    [| injection H as <-; split; [exact Hc | apply same_ui_refl]
     | discriminate].
  destruct (drawing_area s) as [[[[x1 y1] x2] y2] |]; cbn [bind] in H;
    [| discriminate].
  destruct (start_y s) as [sy |]; cbn [bind] in H; [| discriminate].
  match type of H with
  | context [DrawCommand.execute ?d ?c] =>
      destruct (in_order_draw_execute ui d c) as [Hexec Hhandle];
        [apply in_order_delete_withtag; exact Hc |];
      destruct (DrawCommand.execute d c) as [d' c']
  end.
  cbn [fst snd DrawCommand.shape_id handle_ids] in Hexec, Hhandle.
  destruct (DrawCommand.shape_id d') as [| i | l] eqn:Hid;
    cbn [bind] in H; [discriminate | |];
    (destruct Hhandle as [Hold | Hnew]; [discriminate |]);
    injection H as <-; cbn [rect_canvas set_rect_canvas set_undo_stack
                            set_redo_stack set_start_x set_start_y];
    (split; [| repeat split]).
  - inversion Hnew; subst. apply in_order_addtag; assumption.
  - apply (in_order_fold ui _ (fun i => ~ In i ui));
      [intros c a Ha; apply in_order_addtag; exact Ha | exact Hnew
      | exact Hexec].
Qed.

Lemma end_text_entry_in_order (ui : list nat) (s : App) :
  in_order ui (rect_canvas s) ->
  in_order ui (rect_canvas (end_text_entry s)) /\ same_ui s (end_text_entry s).
Proof.
  intros Hc. unfold end_text_entry.
  destruct (text_entry s) as [entry |]; [| split; [exact Hc | apply same_ui_refl]].
  destruct (negb (String.eqb (te_content entry) "")).
  - match goal with
    | |- context [TextCommand.execute ?t ?c] =>
        pose proof (in_order_text_execute ui t c Hc) as Hexec;
        destruct (TextCommand.execute t c) as [t' c']
    end.
    cbn [snd] in Hexec.
    cbn [rect_canvas set_rect_canvas set_undo_stack set_redo_stack
         set_text_entry].
    split; [apply in_order_delete_withtag; exact Hexec | repeat split].
  - cbn [rect_canvas set_rect_canvas set_text_entry].
    split; [apply in_order_delete_withtag; exact Hc | repeat split].
Qed.

Lemma start_text_entry_in_order (ui : list nat) (event : Event) (s s' : App) :
  start_text_entry event s = Some s' ->
  in_order ui (rect_canvas s) ->
  in_order ui (rect_canvas s') /\ same_ui s s'.
Proof.
  unfold start_text_entry. intros H Hc.
  destruct (point_in_drawing_area (ev_x event) (ev_y event) s) as [[|] |];
    cbn [bind] in H;
    [| injection H as <-; split; [exact Hc | apply same_ui_refl]
     | discriminate].
  assert (Hpending : exists t,
            in_order ui (rect_canvas t) /\ same_ui s t
            /\ t = match text_entry s with
                   | Some _ => end_text_entry s
                   | None => s
                   end).
  { destruct (text_entry s) as [entry |] eqn:Hentry.
    - exists (end_text_entry s).
      destruct (end_text_entry_in_order ui s Hc) as [H1 H2]. auto.
    - exists s. split; [exact Hc |]. split; [apply same_ui_refl | reflexivity]. }
  destruct Hpending as (t & Ht & Hui & Heq). rewrite <- Heq in H.
  destruct (Tk.create "rectangle" _ _ _ _) as [box c] eqn:Hcreate in H.
  apply (f_equal snd) in Hcreate.
  cbn [snd rect_canvas set_start_x set_start_y] in Hcreate.
  injection H as <-.
  cbn [rect_canvas set_rect_canvas set_text_box]. rewrite <- Hcreate.
  split; [apply in_order_create; exact Ht |].
  destruct Hui as (H1 & H2 & H3 & H4). repeat split; assumption.
Qed.

Lemma undo_in_order (ui : list nat) (s : App) :
  in_order ui (rect_canvas s) ->
  in_order ui (rect_canvas (undo s)) /\ same_ui s (undo s).
Proof.
  intros Hc. unfold undo.
  destruct (pop (undo_stack s)) as [[rest cmd] |];
    [| split; [exact Hc | apply same_ui_refl]].
  pose proof (in_order_command_undo ui cmd
                (rect_canvas (set_undo_stack rest s)) Hc) as Hundo.
  destruct (Command.undo cmd _) as [cmd' c]. cbn [snd] in Hundo.
  cbn [rect_canvas set_rect_canvas set_redo_stack set_start_x set_start_y].
  split; [apply in_order_delete_withtag; exact Hundo | repeat split].
Qed.

Lemma redo_in_order (ui : list nat) (s : App) :
  in_order ui (rect_canvas s) ->
  in_order ui (rect_canvas (redo s)) /\ same_ui s (redo s).
Proof.
  intros Hc. unfold redo.
  destruct (pop (redo_stack s)) as [[rest cmd] |];
    [| split; [exact Hc | apply same_ui_refl]].
  pose proof (in_order_execute ui cmd
                (rect_canvas (set_redo_stack rest s)) Hc) as Hexec.
  destruct (Command.execute cmd _) as [cmd' c]. cbn [snd] in Hexec.
  cbn [rect_canvas set_rect_canvas set_undo_stack set_start_x set_start_y].
  split; [apply in_order_delete_withtag; exact Hexec | repeat split].
Qed.

Lemma on_press_in_order (ui : list nat) (event : Event) (s s' : App) :
  on_press event s = Some s' ->
  in_order ui (rect_canvas s) ->
  in_order ui (rect_canvas s') /\ same_ui s s'.
Proof.
  unfold on_press. intros H Hc.
  destruct (hit_handle _ _ _ _ _) as [[i |] |]; cbn [bind] in H;
    [| | discriminate].
  - injection H as <-.
    cbn [rect_canvas set_rect_canvas set_resizing set_resize_start_x
         set_resize_start_y dimension_text].
    split; [apply in_order_itemconfig; exact Hc | repeat split].
  - destruct (String.eqb (current_tool s) "move").
    + destruct (drawing_area s) as [[[[x1 y1] x2] y2] |]; cbn [bind] in H;
        [| discriminate].
      destruct (_ && _); injection H as <-;
        (split; [exact Hc | repeat split]).
    + destruct (String.eqb (current_tool s) "text");
        [exact (start_text_entry_in_order ui event s s' H Hc) |].
      unfold start_draw in H.
      destruct (drawing_area s) as [[[[x1 y1] x2] y2] |]; cbn [bind] in H;
        [| discriminate].
      injection H as <-. split; [exact Hc | repeat split].
Qed.

Lemma on_drag_in_order (ui : list nat) (event : Event) (s s' : App) :
  on_drag event s = Some s' ->
  in_order ui (rect_canvas s) ->
  in_order ui (rect_canvas s') /\ same_ui s s'.
Proof.
  unfold on_drag. intros H Hc.
  destruct (negb _);
    [| injection H as <-; split; [exact Hc | apply same_ui_refl]].
  destruct (resizing s) as [k |];
    [exact (resize_selection_in_order ui _ _ s s' H Hc) |].
  destruct (dragging s && String.eqb (current_tool s) "move");
    [exact (drag_selection_in_order ui _ _ s s' H Hc) |].
  destruct (negb (is_text_or_move (current_tool s)));
    [exact (draw_shape_in_order ui event s s' H Hc) |].
  injection H as <-. split; [exact Hc | apply same_ui_refl].
Qed.

Lemma on_release_in_order (ui : list nat) (event : Event) (s s' : App) :
  on_release event s = Some s' ->
  in_order ui (rect_canvas s) ->
  in_order ui (rect_canvas s') /\ same_ui s s'.
Proof.
  unfold on_release. intros H Hc.
  destruct (resizing s) as [k |].
  - destruct (resize_selection (ev_x event) (ev_y event) s) as [t |] eqn:Hrun;
      [| discriminate].
    destruct (resize_selection_in_order ui _ _ s t Hrun Hc) as [Ht Hui].
    cbn [bind] in H. injection H as <-.
    cbn [rect_canvas set_rect_canvas set_resizing set_resize_start_x
         set_resize_start_y dimension_text].
    split; [apply in_order_itemconfig; exact Ht |].
    destruct Hui as (H1 & H2 & H3 & H4). repeat split; assumption.
  - destruct (dragging s && String.eqb (current_tool s) "move").
    + destruct (drag_selection (ev_x event) (ev_y event) s) as [t |] eqn:Hrun;
        [| discriminate].
      destruct (drag_selection_in_order ui _ _ s t Hrun Hc) as [Ht Hui].
      cbn [bind] in H. injection H as <-.
      split; [exact Ht |].
      destruct Hui as (H1 & H2 & H3 & H4). repeat split; assumption.
    + destruct (negb (is_text_or_move (current_tool s)));
        [exact (end_draw_in_order ui event s s' H Hc) |].
      injection H as <-. split; [exact Hc | apply same_ui_refl].
Qed.

Lemma drawing_step_in_order (ui : list nat) (s s' : App) :
  drawing_step s s' ->
  in_order ui (rect_canvas s) ->
  in_order ui (rect_canvas s') /\ same_ui s s'.
Proof.
  intros Hstep Hc.
  destruct Hstep as [event H | event H | event H | event H | event H
                    | typed H | H | H | H | tool H | delta H].
  - exact (on_press_in_order ui event s s' H Hc).
  - exact (on_drag_in_order ui event s s' H Hc).
  - exact (on_release_in_order ui event s s' H Hc).
  - unfold resize_text_box in H.
    destruct (text_box s) as [box |]; [| discriminate].
    destruct (start_x s) as [sx |]; [| discriminate].
    destruct (start_y s) as [sy |]; [| discriminate].
    cbn [bind] in H. injection H as <-. cbn [rect_canvas set_rect_canvas].
    split; [apply in_order_set_coords; exact Hc | repeat split].
  - unfold finalize_text_box in H.
    destruct (text_box s) as [box |]; [| discriminate]. cbn [bind] in H.
    destruct (Tk.coords box (rect_canvas s))
      as [| a [| b [| c [| d [| e rest]]]]]; try discriminate.
    injection H as <-. split; [exact Hc | repeat split].
  - subst s'. unfold type_text.
    destruct (text_entry s); (split; [exact Hc | repeat split]).
  - subst s'. apply end_text_entry_in_order. exact Hc.
  - subst s'. apply undo_in_order. exact Hc.
  - subst s'. apply redo_in_order. exact Hc.
  - subst s'. split; [exact Hc | repeat split].
  - subst s'. split; [exact Hc | repeat split].
Qed.

(** X27. The canvas stays in order for the whole session.  Once the
    canvas is in order (ids below the counter and used once, no
    annotation among the fixed items, four overlay panels and four
    handles, all distinct), it remains so after every succession of
    events of the drawing mode: presses, motion and releases with any
    tool, text boxes and typing, undo, redo and the toolbar buttons; and
    the fixed items remain the same. *)
Theorem canvas_stays_in_order (s s' : App) :
  canvas_in_order s ->
  drawing_steps s s' ->
  canvas_in_order s' /\ same_ui s s'.
Proof.
  intros Hs Hsteps. induction Hsteps as [| s1 s2 _ [IH Hui] Hstep].
  - split; [exact Hs | apply same_ui_refl].
  - destruct IH as (Hc & Hov & Hhandles & Hnodup).
    destruct (drawing_step_in_order (ui_ids s1) s1 s2 Hstep Hc) as [Hc2 Hui2].
    pose proof (same_ui_ids s1 s2 Hui2) as Hids.
    split; [| exact (same_ui_trans _ _ _ Hui Hui2)].
    unfold canvas_in_order. rewrite Hids.
    destruct Hui2 as (_ & _ & -> & ->). auto.
Qed.

Lemma canvas_stays_in_order_witness :
  exists s s',
    studio = Some s
    /\ drawing_steps s s'
    /\ undo_stack s' <> []
    /\ canvas_in_order s'.
Proof.
  eexists.
  eassert (Hstudio : studio = Some _) by (unfold studio; stages).
  match type of Hstudio with
  | _ = Some ?s =>
      assert (Hs : canvas_in_order s);
      [| eassert (Hpress : on_press (click 10 10) (set_tool "rectangle" s)
                           = Some _) by (evaluate; reflexivity);
         match type of Hpress with
         | _ = Some ?s2 =>
             eassert (Hrelease : on_release (click 50 50) s2 = Some _)
               by (evaluate; reflexivity);
             match type of Hrelease with
             | _ = Some ?s3 =>
                 assert (Hsteps : drawing_steps s s3)
                   by (eapply steps_more;
                       [eapply steps_more;
                        [eapply steps_more;
                         [apply steps_none
                         | apply (step_set_tool _ _ "rectangle"); reflexivity]
                        | apply (step_press _ _ (click 10 10)); exact Hpress]
                       | apply (step_release _ _ (click 50 50)); exact Hrelease]);
                 destruct (canvas_stays_in_order s s3 Hs Hsteps) as [Hs3 _];
                 exists s3
             end
         end]
  end.
  - unfold canvas_in_order, in_order, Tk.wf. cbn.
    split; [| split; [reflexivity | split; [reflexivity |]]].
    + split; [split; [lia | repeat constructor; cbn; lia] |].
      split; [repeat (constructor; [cbn; lia |]); constructor |].
      split; [| repeat constructor; lia].
      intros it Hin Htag.
      repeat (destruct Hin as [<- | Hin]; [cbn in Htag |]);
        try discriminate; contradiction.
    + repeat (constructor; [cbn; lia |]). constructor.
  - split; [exact Hstudio |]. split; [exact Hsteps |].
    split; [cbn; discriminate | exact Hs3].
Defined.
